(** * sourmash.index: the Index abstraction and its search algorithms

    A shallow embedding of [src/sourmash/index/__init__.py]: the abstract
    [Index] class with its default algorithms ([find], [search], [gather],
    [counter_gather]), the selection predicate [select_signature], and the
    three backends [LinearIndex], [ZipFileLinearIndex] and [MultiIndex].

    Python values are modelled as the code uses them: [int] as [Z], [float]
    as an IEEE 754 binary64 value ([spec_float] at precision 53), [str] as
    [string], keyword dictionaries as [gmap string PyVal], the insertion
    ordered [collections.Counter] as an association list, exceptions and
    the order of effects by a small writer/error monad. *)

From Stdlib Require Import ZArith List Bool String Ascii Lia.
From Stdlib Require Import Sorting.Sorted Sorting.Permutation.
From Stdlib Require Import Floats.SpecFloat.
From stdpp Require Import base gmap strings.
Import ListNotations.

Set Warnings "-register-all".

Local Open Scope string_scope.
Local Open Scope list_scope.
Local Open Scope Z_scope.

(** ** Python exceptions *)

Inductive Exn : Type :=
| TypeError (msg : string)
| ValueError (msg : string)
| IndexError
| OverflowError
| ZeroDivisionError
| AttributeError (attr : string)
| AssertionError
| NotImplementedError.

(** ** Python floats: IEEE 754 binary64 *)

Module PyFloat.

Definition float : Type := spec_float.

Definition prec : Z := 53.
Definition emax : Z := 1024.

Definition zero : float := S754_zero false.
(** [1.0] *)
Definition one : float := S754_finite false 4503599627370496 (-52).

(** [float(z)] and the implicit conversion of an [int] operand: rounds to
    nearest even, [OverflowError] when the integer is too large. *)
Definition of_int (z : Z) : Exn + float :=
  match binary_normalize prec emax z 0 false with
  | S754_infinity _ => inl OverflowError
  | f => inr f
  end.

(** [x / y] on floats. *)
Definition truediv (x y : float) : Exn + float :=
  match y with
  | S754_zero _ => inl ZeroDivisionError
  | _ => inr (SFdiv prec emax x y)
  end.

(** Truth value of a float: anything but [0.0] and [-0.0]. *)
Definition truthy (x : float) : bool :=
  match x with
  | S754_zero _ => false
  | _ => true
  end.

Definition is_nan (x : float) : bool :=
  match x with
  | S754_nan => true
  | _ => false
  end.

Definition neg (x : float) : float := SFopp x.
Definition eqb (x y : float) : bool := SFeqb x y.
Definition ltb (x y : float) : bool := SFltb x y.
Definition leb (x y : float) : bool := SFleb x y.
(** [x >= y] and [x > y] *)
Definition geb (x y : float) : bool := SFleb y x.
Definition gtb (x y : float) : bool := SFltb y x.

End PyFloat.

Abbreviation float := PyFloat.float.

(** ** Python numbers that are either [int] or [float]

    [counter_gather] compares integer counts with [n_threshold_hashes],
    which is the [int] 0 or a [float]; Python compares an [int] with a
    [float] by their exact values. *)

Inductive Num : Type :=
| Int (z : Z)
| Float (f : float).

Definition int_cmp_float (z : Z) (f : float) : option comparison :=
  match f with
  | S754_nan => None
  | S754_infinity s => Some (if s then Gt else Lt)
  | S754_zero _ => Some (z ?= 0)
  | S754_finite s m e =>
      let v := if s then Z.neg m else Z.pos m in
      Some (if 0 <=? e then z ?= v * 2 ^ e else z * 2 ^ (- e) ?= v)
  end.

(** [a >= b] *)
Definition num_ge (a b : Num) : bool :=
  match a, b with
  | Int x, Int y => y <=? x
  | Float x, Float y => PyFloat.geb x y
  | Int x, Float y =>
      match int_cmp_float x y with
      | Some Lt | None => false
      | Some _ => true
      end
  | Float x, Int y =>
      match int_cmp_float y x with
      | Some Gt | None => false
      | Some _ => true
      end
  end.

(** ** Python strings *)

(** [s.endswith(suffix)] *)
Definition endswith (s suffix : string) : bool :=
  let n := String.length s in
  let k := String.length suffix in
  (k <=? n)%nat && String.eqb (substring (n - k) k s) suffix.

(** ** [list.sort] and [sorted]

    Python's sort is stable and compares keys with [<] only.  It is
    modelled by insertion: on keys that [<] orders as a strict weak order
    (every key sorted in this module is a non-NaN float, an int, or a pair
    of a non-NaN float and a string) the stable sorted arrangement is
    unique, so every stable comparison sort returns this list.
    [reverse=True] reverses the list, sorts it, and reverses the result,
    which is how CPython keeps a reversed sort stable. *)

Section PySort.
Context {A : Type}.
Variable lt : A -> A -> bool.

Fixpoint insert_stable (x : A) (l : list A) : list A :=
  match l with
  | [] => [x]
  | y :: l' => if lt y x then y :: insert_stable x l' else x :: l
  end.

Fixpoint stable_sort (l : list A) : list A :=
  match l with
  | [] => []
  | x :: l' => insert_stable x (stable_sort l')
  end.

Definition list_sort (reverse : bool) (l : list A) : list A :=
  if reverse then rev (stable_sort (rev l)) else stable_sort l.
End PySort.

(** ** Keyword arguments *)

Inductive PyVal : Type :=
| VNone
| VBool (b : bool)
| VInt (z : Z)
| VStr (s : string).

Definition truthy (v : PyVal) : bool :=
  match v with
  | VNone => false
  | VBool b => b
  | VInt z => negb (z =? 0)
  | VStr s => negb (String.eqb s "")
  end.

(** [v == w]: [bool] is a subtype of [int], so [True == 1]. *)
Definition py_eq (v w : PyVal) : bool :=
  match v, w with
  | VNone, VNone => true
  | VBool a, VBool b => Bool.eqb a b
  | VBool a, VInt z | VInt z, VBool a => Z.b2z a =? z
  | VInt a, VInt b => a =? b
  | VStr a, VStr b => String.eqb a b
  | _, _ => false
  end.

Definition py_ne (v w : PyVal) : bool := negb (py_eq v w).

Abbreviation kwargs := (gmap string PyVal).

(** [kw.get(name, default)], which is also how a keyword parameter with a
    default value is bound from [**kw]. *)
Definition kw_get (kw : kwargs) (name : string) (default : PyVal) : PyVal :=
  match kw !! name with
  | Some v => v
  | None => default
  end.

(** Truth value of an optional dictionary: [None] and [{}] are false. *)
Definition dict_truthy (d : option kwargs) : bool :=
  match d with
  | None => false
  | Some kw => negb (bool_decide (kw = ∅))
  end.

(** Truth value of an optional string: [None] and [""] are false. *)
Definition str_truthy (s : option string) : bool :=
  match s with
  | None => false
  | Some s => negb (String.eqb s "")
  end.

(** [a or b] on optional strings *)
Definition str_or (a b : option string) : option string :=
  if str_truthy a then a else b.

(** ** Sketches and signatures *)

(** A sketch's descriptive parameters and its hash content.  [scaled] and
    [num] are 0 when the sketch does not use that sampling policy.  The
    index layer reads the four parameters and hands the sketch to the
    comparison capability below; it never inspects [hashes]. *)
Record MinHash : Type := {
  ksize : Z;
  moltype : string;
  scaled : Z;
  num : Z;
  hashes : list Z
}.

Record Signature : Type := {
  name : string;
  minhash : MinHash
}.

(** Modelled from the spec: the sketch capability (module [sourmash.minhash]
    and the comparison methods of [sourmash.signature]) is not under src/;
    the spec gives it as an opaque comparator with these operations, each
    returning a score, a count, a size or a fingerprint. *)
Class SketchCapability : Type := {
  (** [a.similarity(b, downsample, ignore_abundance)] on signatures *)
  sig_similarity : Signature -> Signature -> bool -> bool -> float;
  (** [a.contained_by(b, downsample)] on signatures *)
  sig_contained_by : Signature -> Signature -> bool -> float;
  (** [a.max_containment(b, downsample)] on signatures *)
  sig_max_containment : Signature -> Signature -> bool -> float;
  (** [a.contained_by(b, downsample)] on sketches *)
  mh_contained_by : MinHash -> MinHash -> bool -> float;
  (** [a.count_common(b, downsample)] on sketches *)
  mh_count_common : MinHash -> MinHash -> bool -> Z;
  (** [len(a)] *)
  mh_len : MinHash -> nat;
  (** [ss.md5sum()], the fingerprint *)
  md5sum : Signature -> string
}.

(** ** Effects: a trace of what was enumerated and compared, and an outcome *)

Inductive Event : Type :=
| Enumerated (ss : Signature)       (* [signatures()] handed out [ss] *)
| Compared (a b : MinHash).         (* a sketch comparison of [a] with [b] *)

Inductive Outcome (A : Type) : Type :=
| Returns (a : A)
| Raises (e : Exn)
| OutOfFuel.                          (* the loop bound of the model ran out *)

Arguments Returns {A} a.
Arguments Raises {A} e.
Arguments OutOfFuel {A}.

Definition M (A : Type) : Type := list Event * Outcome A.

Definition ret {A} (a : A) : M A := ([], Returns a).
Definition raise {A} (e : Exn) : M A := ([], Raises e).
Definition out_of_fuel {A} : M A := ([], OutOfFuel).
Definition tell (ev : Event) : M unit := ([ev], Returns tt).

Definition bind {A B} (m : M A) (k : A -> M B) : M B :=
  match m with
  | (t, Returns a) => let (t', r) := k a in (t ++ t', r)
  | (t, Raises e) => (t, Raises e)
  | (t, OutOfFuel) => (t, OutOfFuel)
  end.

Definition lift {A} (r : Exn + A) : M A :=
  match r with
  | inl e => raise e
  | inr a => ret a
  end.

Declare Scope py_scope.
Delimit Scope py_scope with py.
Notation "x <- m ;; k" := (bind m (fun x => k))
  (at level 100, m at next level, right associativity) : py_scope.
Notation "m ;;; k" := (bind m (fun _ => k))
  (at level 100, right associativity) : py_scope.
Local Open Scope py_scope.

Definition trace {A} (m : M A) : list Event := fst m.
Definition outcome {A} (m : M A) : Outcome A := snd m.

(** A generator: the items it yields, then either exhaustion or the
    exception that ended it. *)
Definition Gen (A : Type) : Type := list A * option Exn.

Definition gen_cons {A} (x : A) (g : Gen A) : Gen A := (x :: fst g, snd g).

(** Run [g1], then [g2] unless [g1] raised. *)
Definition gen_app {A} (g1 g2 : Gen A) : Gen A :=
  match snd g1 with
  | Some e => g1
  | None => (fst g1 ++ fst g2, snd g2)
  end.

(** [for ss in <generator of signatures>: state = body(ss, state)] *)
Fixpoint for_sigs {S} (items : list Signature) (stop : option Exn)
    (body : Signature -> S -> M S) (s : S) : M S :=
  match items with
  | [] => match stop with
          | None => ret s
          | Some e => raise e
          end
  | ss :: rest =>
      tell (Enumerated ss) ;;;
      s' <- body ss s ;;
      for_sigs rest stop body s'
  end.

Definition for_signatures {S} (g : Gen Signature)
    (body : Signature -> S -> M S) (s : S) : M S :=
  for_sigs (fst g) (snd g) body s.

(** [for a, b in zip(l1, l2): state = body(a, b, state)] *)
Definition for_zip {A B S} (body : A -> B -> S -> M S) :
    list A -> list B -> S -> M S :=
  fix go (l1 : list A) (l2 : list B) (s : S) : M S :=
    match l1, l2 with
    | a :: l1', b :: l2' => s' <- body a b s ;; go l1' l2' s'
    | _, _ => ret s
    end.

(** ** The insertion-ordered counter of [counter_gather]

    A [collections.Counter] keyed by dataset index.  Iteration follows
    insertion order; assigning to a present key keeps its position, and a
    key that was deleted and is assigned again goes to the end. *)

Module Counter.

Definition t : Type := list (nat * Z).

Definition empty : t := [].

(** [counter[k]]; a missing key reads as 0 and is not inserted. *)
Fixpoint get (k : nat) (c : t) : Z :=
  match c with
  | [] => 0
  | (k', v) :: c' => if Nat.eqb k k' then v else get k c'
  end.

Fixpoint mem (k : nat) (c : t) : bool :=
  match c with
  | [] => false
  | (k', _) :: c' => Nat.eqb k k' || mem k c'
  end.

(** [counter[k] = v] *)
Fixpoint set (k : nat) (v : Z) (c : t) : t :=
  match c with
  | [] => [(k, v)]
  | (k', v') :: c' =>
      if Nat.eqb k k' then (k, v) :: c' else (k', v') :: set k v c'
  end.

(** [del counter[k]] for a key that is present *)
Fixpoint del (k : nat) (c : t) : t :=
  match c with
  | [] => []
  | (k', v') :: c' => if Nat.eqb k k' then c' else (k', v') :: del k c'
  end.

(** [counter[k] -= common], then [del counter[k]] if that left 0 *)
Definition subtract (k : nat) (common : Z) (c : t) : t :=
  let c := set k (get k c - common) c in
  if get k c =? 0 then del k c else c.

Definition keys (c : t) : list nat := map fst c.

(** [bool(counter)] *)
Definition nonempty (c : t) : bool :=
  match c with
  | [] => false
  | _ => true
  end.

(** [counter.most_common()], that is
    [sorted(counter.items(), key=itemgetter(1), reverse=True)] *)
Definition most_common (c : t) : list (nat * Z) :=
  list_sort (fun a b => snd a <? snd b) true c.

End Counter.

(** ** The selection predicate *)

Definition select_signature_params : list string :=
  ["ksize"; "moltype"; "scaled"; "num"; "containment"].

(** [select_signature(ss, **kw)].  A keyword the function does not declare
    is a [TypeError] at the call. *)
Definition select_signature (ss : Signature) (kw : kwargs) : Exn + bool :=
  if negb (bool_decide (dom kw ⊆@{gset string}
                          list_to_set select_signature_params))
  then inl (TypeError "select_signature() got an unexpected keyword argument")
  else
    let ksize_ := kw_get kw "ksize" VNone in
    let moltype_ := kw_get kw "moltype" VNone in
    let scaled_ := kw_get kw "scaled" (VInt 0) in
    let num_ := kw_get kw "num" (VInt 0) in
    let containment_ := kw_get kw "containment" (VBool false) in
    (* ksize match? *)
    if truthy ksize_ && py_ne ksize_ (VInt (ksize (minhash ss)))
    then inr false
    (* moltype match? *)
    else if truthy moltype_ && py_ne moltype_ (VStr (moltype (minhash ss)))
    then inr false
    (* containment requires scaled; similarity does not. *)
    else if truthy containment_ && negb (truthy scaled_)
    then inl (ValueError "'containment' requires 'scaled' in Index.select'")
    else if truthy containment_ && (scaled (minhash ss) =? 0)
    then inr false
    (* 'scaled' and 'num' are incompatible *)
    else if truthy scaled_ && negb (num (minhash ss) =? 0)
    then inr false
    else if truthy num_ &&
            (negb (scaled (minhash ss) =? 0)
             || py_ne num_ (VInt (num (minhash ss))))
    then inr false
    else inr true.

(** ** The backends *)

(** A member of a zip archive: its name and the signatures that
    [load_signatures] decodes from it (none for a member that holds no
    valid signature). *)
Record ZipInfo : Type := {
  zi_filename : string;
  zi_signatures : list Signature
}.

Record ZipFile : Type := {
  zf_filename : option string;
  infolist : list ZipInfo
}.

Inductive Index : Type :=
| LinearIndex (_signatures : list Signature) (location : option string)
| ZipFileLinearIndex (zf : ZipFile) (selection_dict : option kwargs)
                     (traverse_yield_all : bool)
| MultiIndex (index_list : list Index) (source_list : list (option string)).

(** [LinearIndex(_signatures, filename)] *)
Definition LinearIndex_init (_signatures : list Signature)
    (filename : option string) : Index :=
  LinearIndex (match _signatures with
               | [] => []
               | _ => _signatures
               end) filename.

(** [MultiIndex(index_list, source_list)] *)
Definition MultiIndex_init (index_list : list Index)
    (source_list : list (option string)) : Exn + Index :=
  if Nat.eqb (List.length index_list) (List.length source_list)
  then inr (MultiIndex index_list source_list)
  else inl AssertionError.

(** [self.location]: an attribute of [LinearIndex], a property of
    [ZipFileLinearIndex], absent from [MultiIndex]. *)
Definition location (self : Index) : Exn + option string :=
  match self with
  | LinearIndex _ loc => inr loc
  | ZipFileLinearIndex zf _ _ => inr (zf_filename zf)
  | MultiIndex _ _ => inl (AttributeError "location")
  end.

(** [getattr(self, name, None)] on the attributes that hold a provenance
    source: [location] is the only one, on the two classes that have it. *)
Definition getattr_source (self : Index) (name : string) : option string :=
  match self with
  | LinearIndex _ loc => if String.eqb name "location" then loc else None
  | ZipFileLinearIndex zf _ _ =>
      if String.eqb name "location" then zf_filename zf else None
  | MultiIndex _ _ => None
  end.

(** The inner loop of [ZipFileLinearIndex.signatures] over the signatures
    loaded from one member. *)
Fixpoint zip_member_signatures (selection_dict : option kwargs)
    (loaded : list Signature) : Gen Signature :=
  match loaded with
  | [] => ([], None)
  | ss :: rest =>
      if dict_truthy selection_dict then
        match select_signature ss (default ∅ selection_dict) with
        | inl e => ([], Some e)
        | inr true =>
            gen_cons ss (zip_member_signatures selection_dict rest)
        | inr false => zip_member_signatures selection_dict rest
        end
      else gen_cons ss (zip_member_signatures selection_dict rest)
  end.

Fixpoint ZipFileLinearIndex_signatures (members : list ZipInfo)
    (selection_dict : option kwargs) (traverse_yield_all : bool)
    : Gen Signature :=
  match members with
  | [] => ([], None)
  | zipinfo :: rest =>
      if endswith (zi_filename zipinfo) ".sig"
         || endswith (zi_filename zipinfo) ".sig.gz"
         || traverse_yield_all
      then gen_app
             (zip_member_signatures selection_dict (zi_signatures zipinfo))
             (ZipFileLinearIndex_signatures rest selection_dict
                traverse_yield_all)
      else ZipFileLinearIndex_signatures rest selection_dict
             traverse_yield_all
  end.

(** The loop of [MultiIndex.signatures] over [index_list], with [sigs]
    standing for [idx.signatures] *)
Definition signatures_each (sigs : Index -> Gen Signature) :
    list Index -> Gen Signature :=
  fix each (l : list Index) : Gen Signature :=
    match l with
    | [] => ([], None)
    | idx :: l' => gen_app (sigs idx) (each l')
    end.

(** [self.signatures()] *)
Fixpoint signatures (self : Index) : Gen Signature :=
  match self with
  | LinearIndex sigs _ => (sigs, None)
  | ZipFileLinearIndex zf selection_dict traverse_yield_all =>
      ZipFileLinearIndex_signatures (infolist zf) selection_dict
        traverse_yield_all
  | MultiIndex index_list _ => signatures_each signatures index_list
  end.

(** The loop of [LinearIndex.select] *)
Fixpoint select_siglist (sigs : list Signature) (kw : kwargs)
    : Exn + list Signature :=
  match sigs with
  | [] => inr []
  | ss :: rest =>
      match select_signature ss kw with
      | inl e => inl e
      | inr keep =>
          match select_siglist rest kw with
          | inl e => inl e
          | inr siglist => inr (if keep then ss :: siglist else siglist)
          end
      end
  end.

(** The loop of [MultiIndex.select] over [zip(index_list, source_list)],
    with [sel] standing for [idx.select] *)
Definition select_each (sel : Index -> Exn + Index) :
    list Index -> list (option string) ->
    Exn + (list Index * list (option string)) :=
  fix each (il : list Index) (sl : list (option string)) :=
    match il, sl with
    | idx :: il', src :: sl' =>
        match sel idx with
        | inl e => inl e
        | inr idx' =>
            match each il' sl' with
            | inl e => inl e
            | inr (new_idx_list, new_src_list) =>
                inr (idx' :: new_idx_list, src :: new_src_list)
            end
        end
    | _, _ => inr ([], [])
    end.

(** [self.select] with keyword arguments [kw].  [LinearIndex.select]
    passes [kw] itself to [select_signature] (the dictionary it builds
    without the false values is not used); [ZipFileLinearIndex.select]
    replaces the selection dictionary; [MultiIndex.select] selects in
    every sub-index. *)
Fixpoint select (self : Index) (kw : kwargs) : Exn + Index :=
  match self with
  | LinearIndex sigs loc =>
      match select_siglist sigs kw with
      | inl e => inl e
      | inr siglist => inr (LinearIndex_init siglist loc)
      end
  | ZipFileLinearIndex zf _ traverse_yield_all =>
      inr (ZipFileLinearIndex zf (Some kw) traverse_yield_all)
  | MultiIndex index_list source_list =>
      match select_each (fun idx => select idx kw) index_list source_list
      with
      | inl e => inl e
      | inr (new_idx_list, new_src_list) =>
          MultiIndex_init new_idx_list new_src_list
      end
  end.

(** The list comprehension [[len(idx) for idx in self.index_list]], with
    [len] standing for [len(idx)] *)
Definition len_each (len : Index -> Exn + nat) :
    list Index -> Exn + list nat :=
  fix each (l : list Index) : Exn + list nat :=
    match l with
    | [] => inr []
    | idx :: l' =>
        match len idx with
        | inl e => inl e
        | inr n =>
            match each l' with
            | inl e => inl e
            | inr ns => inr (n :: ns)
            end
        end
    end.

(** [len(self)]: the length of the list of a [LinearIndex], the length of
    [list(self.signatures())] for a [ZipFileLinearIndex], the sum of the
    lengths of the sub-indexes for a [MultiIndex]. *)
Fixpoint len (self : Index) : Exn + nat :=
  match self with
  | LinearIndex sigs _ => inr (List.length sigs)
  | ZipFileLinearIndex zf selection_dict traverse_yield_all =>
      match ZipFileLinearIndex_signatures (infolist zf) selection_dict
              traverse_yield_all with
      | (l, None) => inr (List.length l)
      | (_, Some e) => inl e
      end
  | MultiIndex index_list _ =>
      match len_each len index_list with
      | inl e => inl e
      | inr ns => inr (list_sum ns)
      end
  end.

(** [self.insert(node)], giving the index as the call leaves it:
    [LinearIndex.insert] appends to the list, the two other backends raise
    [NotImplementedError]. *)
Definition Index_insert (self : Index) (node : Signature) : Exn + Index :=
  match self with
  | LinearIndex sigs loc => inr (LinearIndex (sigs ++ [node]) loc)
  | ZipFileLinearIndex _ _ _ => inl NotImplementedError
  | MultiIndex _ _ => inl NotImplementedError
  end.

(** [(f(x) for x in g)] *)
Definition gen_map {A B} (f : A -> B) (g : Gen A) : Gen B :=
  (map f (fst g), snd g).

(** [MultiIndex.signatures_with_location], over
    [zip(self.index_list, self.source_list)] *)
Fixpoint MultiIndex_signatures_with_location (index_list : list Index)
    (source_list : list (option string))
    : Gen (Signature * option string) :=
  match index_list, source_list with
  | idx :: il, loc :: sl =>
      gen_app (gen_map (fun ss => (ss, loc)) (signatures idx))
        (MultiIndex_signatures_with_location il sl)
  | _, _ => ([], None)
  end.

(** [self.filter(filter_fn)].  Only [MultiIndex] defines the method, and
    its loop, which is the loop of [MultiIndex.select] with [idx.filter]
    for [idx.select], calls it on every sub-index; on a [LinearIndex] and
    on a [ZipFileLinearIndex] the attribute lookup fails. *)
Fixpoint Index_filter (self : Index) (filter_fn : Signature -> bool)
    : Exn + Index :=
  match self with
  | LinearIndex _ _ => inl (AttributeError "filter")
  | ZipFileLinearIndex _ _ _ => inl (AttributeError "filter")
  | MultiIndex index_list source_list =>
      match select_each (fun idx => Index_filter idx filter_fn)
              index_list source_list with
      | inl e => inl e
      | inr (new_idx_list, new_src_list) =>
          MultiIndex_init new_idx_list new_src_list
      end
  end.

(** ** Loading from files

    The loaders come from [sourmash.signature], [sourmash.sourmash_args]
    and [os.path], which are not under src/: they are parameters here, and
    nothing is assumed about what they return.  [load_from_path] catches
    [IOError] and [SourmashError], so the exceptions of a loader are split
    into these two classes and the rest. *)

Inductive LoadError : Type :=
| IOError                 (* [IOError] and its subclasses *)
| SourmashError           (* [sourmash.exceptions.SourmashError] *)
| Uncaught (e : Exn).     (* any other exception *)

(** [except (IOError, sourmash.exceptions.SourmashError)] *)
Definition caught (e : LoadError) : bool :=
  match e with
  | IOError | SourmashError => true
  | Uncaught _ => false
  end.

Class Loaders : Type := {
  (** [os.path.exists(pathname)] *)
  path_exists : string -> bool;
  (** [traverse_find_sigs(filenames, yield_all_files)]: the file names the
      generator yields, then how it ends *)
  traverse_find_sigs : list string -> bool -> list string * option LoadError;
  (** [load_signatures(location, do_raise=True)], run to its end *)
  load_signatures : string -> LoadError + list Signature;
  (** [load_pathlist_from_file(filename)] *)
  load_pathlist_from_file : string -> LoadError + list string;
  (** [load_file_as_index(fname)] *)
  load_file_as_index : string -> LoadError + Index
}.

Section Loading.
Context `{Loaders}.

(** [LinearIndex.load(location)] *)
Definition LinearIndex_load (location : string) : LoadError + Index :=
  match load_signatures location with
  | inl e => inl e
  | inr si => inr (LinearIndex_init si (Some location))
  end.

(** The loop of [load_from_path] over the files that the traversal
    yields *)
Fixpoint load_from_path_loop (files : list string) (stop : option LoadError)
    (force : bool) (index_list : list Index)
    (source_list : list (option string))
    : LoadError + (list Index * list (option string)) :=
  match files with
  | [] =>
      match stop with
      | None => inr (index_list, source_list)
      | Some e => inl e
      end
  | thisfile :: rest =>
      match LinearIndex_load thisfile with
      | inr idx =>
          load_from_path_loop rest stop force (index_list ++ [idx])
            (source_list ++ [Some thisfile])
      | inl e =>
          if caught e then
            if force then                     (* ignore error *)
              load_from_path_loop rest stop force index_list source_list
            else inl e
          else inl e
      end
  end.

(** [MultiIndex.load_from_path(pathname, force)] *)
Definition MultiIndex_load_from_path (pathname : string) (force : bool)
    : LoadError + Index :=
  if negb (path_exists pathname) then
    inl (Uncaught (ValueError ("'" ++ pathname ++ "' must be a directory")))
  else
    let (files, stop) := traverse_find_sigs [pathname] force in
    match load_from_path_loop files stop force [] [] with
    | inl e => inl e
    | inr (index_list, source_list) =>
        match index_list with
        | [] =>
            inl (Uncaught (ValueError
                   ("no signatures to load under directory '"
                    ++ pathname ++ "'")))
        | _ :: _ =>
            match MultiIndex_init index_list source_list with
            | inl e => inl (Uncaught e)
            | inr db => inr db
            end
        end
    end.

(** The loop of [load_from_pathlist] *)
Fixpoint load_from_pathlist_loop (file_list : list string)
    (idx_list : list Index) (src_list : list (option string))
    : LoadError + (list Index * list (option string)) :=
  match file_list with
  | [] => inr (idx_list, src_list)
  | fname :: rest =>
      match load_file_as_index fname with
      | inl e => inl e
      | inr idx =>
          load_from_pathlist_loop rest (idx_list ++ [idx])
            (src_list ++ [Some fname])
      end
  end.

(** [MultiIndex.load_from_pathlist(filename)] *)
Definition MultiIndex_load_from_pathlist (filename : string)
    : LoadError + Index :=
  match load_pathlist_from_file filename with
  | inl e => inl e
  | inr file_list =>
      match load_from_pathlist_loop file_list [] [] with
      | inl e => inl e
      | inr (idx_list, src_list) =>
          match MultiIndex_init idx_list src_list with
          | inl e => inl (Uncaught e)
          | inr db => inr db
          end
      end
  end.

End Loading.

(** ** The default algorithms of [Index] and the overrides of [MultiIndex] *)

(** A result triple: (score, matched signature, provenance source). *)
Definition Result : Type := float * Signature * option string.

Definition score (r : Result) : float := fst (fst r).
Definition matched (r : Result) : Signature := snd (fst r).
Definition source (r : Result) : option string := snd r.

(** [a < b] on tuples [(float, str)]: the first components decide unless
    they are equal. *)
Definition tuple_lt (a b : float * string) : bool :=
  if PyFloat.eqb (fst a) (fst b)
  then String.ltb (snd a) (snd b)
  else PyFloat.ltb (fst a) (fst b).

Section Algorithms.
Context `{SketchCapability}.

(** A comparison made through the sketch capability, recorded. *)
Definition compared {A} (a b : MinHash) (v : A) : M A :=
  tell (Compared a b) ;;; ret v.

(** [key=lambda x: -x[0]] *)
Definition search_key_lt (x y : Result) : bool :=
  PyFloat.ltb (PyFloat.neg (score x)) (PyFloat.neg (score y)).

(** [key=lambda x: (x[0], x[1].md5sum())] *)
Definition gather_key (x : Result) : float * string :=
  (score x, md5sum (matched x)).

Definition gather_key_lt (x y : Result) : bool :=
  tuple_lt (gather_key x) (gather_key y).

(** [Index.find] *)
Definition find (self : Index) (search_fn : Signature -> bool)
    : M (list Signature) :=
  for_signatures (signatures self)
    (fun node matches =>
       if search_fn node then ret (matches ++ [node]) else ret matches)
    [].

(** The scoring function [query_match] that [Index.search] configures *)
Definition query_match (query : Signature)
    (do_containment do_max_containment ignore_abundance : bool)
    (x : Signature) : float :=
  if do_containment then sig_contained_by query x true
  else if do_max_containment then sig_max_containment query x true
  else sig_similarity query x true ignore_abundance.

(** [Index.search] *)
Definition Index_search (self : Index) (query : Signature)
    (threshold : option float)
    (do_containment do_max_containment ignore_abundance : bool)
    : M (list Result) :=
  (* check arguments *)
  match threshold with
  | None => raise (TypeError "'search' requires 'threshold'")
  | Some threshold =>
      if do_containment && do_max_containment then
        raise (TypeError
          "'do_containment' and 'do_max_containment' cannot both be True")
      else
        (* do the actual search: *)
        matches <- for_signatures (signatures self)
          (fun ss matches =>
             score <- compared (minhash query) (minhash ss)
                        (query_match query do_containment
                           do_max_containment ignore_abundance ss) ;;
             if PyFloat.geb score threshold then
               loc <- lift (location self) ;;
               ret (matches ++ [(score, ss, loc)])
             else ret matches)
          [] ;;
        (* sort! *)
        ret (list_sort search_key_lt false matches)
  end.

(** The scan and the sort that end [Index.gather] *)
Definition gather_scan (self : Index) (query : Signature)
    (threshold : float) : M (list Result) :=
  results <- for_signatures (signatures self)
    (fun ss results =>
       cont <- compared (minhash query) (minhash ss)
                 (mh_contained_by (minhash query) (minhash ss) true) ;;
       if PyFloat.truthy cont && PyFloat.geb cont threshold then
         loc <- lift (location self) ;;
         ret (results ++ [(cont, ss, loc)])
       else ret results)
    [] ;;
  ret (list_sort gather_key_lt true results).

(** [float(threshold_bp) / scaled] and [n_threshold_hashes / len(...)]:
    a float divided by an int *)
Definition float_div_int (x : float) (n : Z) : M float :=
  d <- lift (PyFloat.of_int n) ;;
  lift (PyFloat.truediv x d).

(** [Index.gather], with [threshold_bp = kwargs.get('threshold_bp', 0.0)] *)
Definition Index_gather (self : Index) (query : Signature)
    (threshold_bp : float) : M (list Result) :=
  if Nat.eqb (mh_len (minhash query)) 0 then       (* empty query? quit. *)
    ret []
  else
    let scaled := scaled (minhash query) in
    if scaled =? 0 then
      raise (ValueError "gather requires scaled signatures")
    else
      (* are we setting a threshold? *)
      if PyFloat.truthy threshold_bp then
        n_threshold_hashes <- float_div_int threshold_bp scaled ;;
        threshold <- float_div_int n_threshold_hashes
                       (Z.of_nat (mh_len (minhash query))) ;;
        (* is it too high to ever match? if so, exit. *)
        if PyFloat.gtb threshold PyFloat.one then ret []
        else gather_scan self query threshold
      else gather_scan self query PyFloat.zero.

(** *** [Index.counter_gather] *)

(** The variables of the greedy loop *)
Record Greedy : Type := {
  counter : Counter.t;
  match_size : Num;
  results : list Result
}.

Inductive Step : Type :=
| Continue (st : Greedy)
| Break (st : Greedy).

(** [for (i, ss) in enumerate(signatures): counter[i] = ...] *)
Fixpoint count_shared (query : Signature) (i : nat)
    (signatures : list Signature) (counter : Counter.t) : M Counter.t :=
  match signatures with
  | [] => ret counter
  | ss :: rest =>
      shared <- compared (minhash query) (minhash ss)
                  (mh_count_common (minhash query) (minhash ss) true) ;;
      count_shared query (S i) rest (Counter.set i shared counter)
  end.

(** [for (dataset_id, _) in most_common: counter[dataset_id] -= ...] *)
Fixpoint decrement_counter (signatures : list Signature)
    (match_ : Signature) (most_common : list (nat * Z))
    (counter : Counter.t) : M Counter.t :=
  match most_common with
  | [] => ret counter
  | (dataset_id, _) :: rest =>
      match nth_error signatures dataset_id with
      | None => raise IndexError
      | Some ss =>
          common <- compared (minhash ss) (minhash match_)
                      (mh_count_common (minhash ss) (minhash match_) true) ;;
          decrement_counter signatures match_ rest
            (Counter.subtract dataset_id common counter)
      end
  end.

(** One pass through the body of the [while] loop *)
Definition greedy_iteration (self : Index) (query : Signature)
    (signatures : list Signature) (n_threshold_hashes : Num)
    (threshold : float) (st : Greedy) : M Step :=
  let most_common := Counter.most_common (counter st) in
  match most_common with
  | [] => raise IndexError
  | (dataset_id, size) :: _ =>
      if num_ge (Int size) n_threshold_hashes then
        match nth_error signatures dataset_id with
        | None => raise IndexError
        | Some match_ =>
            let counter := Counter.del dataset_id (counter st) in
            cont <- compared (minhash query) (minhash match_)
                      (mh_contained_by (minhash query) (minhash match_)
                         true) ;;
            let results :=
              if PyFloat.truthy cont && PyFloat.geb cont threshold
              then results st
                     ++ [(cont, match_, getattr_source self "filename")]
              else results st in
            (* Prepare counter for finding the next match *)
            counter <- decrement_counter signatures match_ most_common
                         counter ;;
            ret (Continue {| counter := counter;
                             match_size := Int size;
                             results := results |})
        end
      else ret (Break st)
  end.

(** [while counter and match_size >= n_threshold_hashes: ...], run for
    at most [fuel] iterations *)
Fixpoint greedy_loop (fuel : nat) (self : Index) (query : Signature)
    (signatures : list Signature) (n_threshold_hashes : Num)
    (threshold : float) (st : Greedy) : M (list Result) :=
  if Counter.nonempty (counter st)
     && num_ge (match_size st) n_threshold_hashes
  then
    match fuel with
    | O => out_of_fuel
    | S fuel' =>
        step <- greedy_iteration self query signatures n_threshold_hashes
                  threshold st ;;
        match step with
        | Continue st' =>
            greedy_loop fuel' self query signatures n_threshold_hashes
              threshold st'
        | Break st' => ret (results st')
        end
    end
  else ret (results st).

(** [Index.counter_gather] from "Pre-loading signatures" on *)
Definition decompose (fuel : nat) (self : Index) (query : Signature)
    (n_threshold_hashes : Num) (threshold : float) : M (list Result) :=
  signatures <- for_signatures (signatures self)
                  (fun ss l => ret (l ++ [ss])) [] ;;
  counter <- count_shared query 0 signatures Counter.empty ;;
  results <- greedy_loop fuel self query signatures n_threshold_hashes
               threshold
               {| counter := counter;
                  match_size := n_threshold_hashes;
                  results := [] |} ;;
  ret (list_sort gather_key_lt true results).

(** [Index.counter_gather]; [fuel] bounds the iterations of its loop. *)
Definition Index_counter_gather (fuel : nat) (self : Index)
    (query : Signature) (threshold_bp : float) : M (list Result) :=
  if Nat.eqb (mh_len (minhash query)) 0 then       (* empty query? quit. *)
    ret []
  else
    let scaled := scaled (minhash query) in
    if scaled =? 0 then
      raise (ValueError "gather requires scaled signatures")
    else
      (* are we setting a threshold? *)
      if PyFloat.truthy threshold_bp then
        n_threshold_hashes <- float_div_int threshold_bp scaled ;;
        threshold <- float_div_int n_threshold_hashes
                       (Z.of_nat (mh_len (minhash query))) ;;
        (* is it too high to ever match? if so, exit. *)
        if PyFloat.gtb threshold PyFloat.one then ret []
        else decompose fuel self query (Float n_threshold_hashes) threshold
      else decompose fuel self query (Int 0) PyFloat.zero.

(** *** Method dispatch *)

(** [best_src = src or filename] on every triple of a sub-index *)
Definition retag (src : option string) (sub : list Result) : list Result :=
  map (fun r => (score r, matched r, str_or src (source r))) sub.

(** [self.search(query, threshold, ...)]: [MultiIndex.search] for a
    [MultiIndex], the inherited [Index.search] otherwise *)
Fixpoint search (self : Index) (query : Signature)
    (threshold : option float)
    (do_containment do_max_containment ignore_abundance : bool)
    : M (list Result) :=
  match self with
  | MultiIndex index_list source_list =>
      matches <- for_zip
        (fun idx src matches =>
           sub <- search idx query threshold do_containment
                    do_max_containment ignore_abundance ;;
           ret (matches ++ retag src sub))
        index_list source_list [] ;;
      ret (list_sort search_key_lt false matches)
  | _ => Index_search self query threshold do_containment
           do_max_containment ignore_abundance
  end.

(** [self.gather(query, threshold_bp=...)] *)
Fixpoint gather (self : Index) (query : Signature) (threshold_bp : float)
    : M (list Result) :=
  match self with
  | MultiIndex index_list source_list =>
      results <- for_zip
        (fun idx src results =>
           sub <- gather idx query threshold_bp ;;
           ret (results ++ retag src sub))
        index_list source_list [] ;;
      ret (list_sort gather_key_lt true results)
  | _ => Index_gather self query threshold_bp
  end.

(** [self.counter_gather(query, threshold_bp=...)]: no class overrides it *)
Definition counter_gather (fuel : nat) (self : Index) (query : Signature)
    (threshold_bp : float) : M (list Result) :=
  Index_counter_gather fuel self query threshold_bp.

End Algorithms.

(** ** Vocabulary of the statements *)

(** The loop of [tagged_signatures] over [zip(index_list, source_list)] *)
Definition tagged_each
    (tagged : Index -> list (Signature * option string)) :
    list Index -> list (option string) ->
    list (Signature * option string) :=
  fix each (il : list Index) (sl : list (option string)) :=
    match il, sl with
    | idx :: il', src :: sl' =>
        map (fun p => (fst p, str_or src (snd p))) (tagged idx)
        ++ each il' sl'
    | _, _ => []
    end.

(** The enumeration of an index, each signature with the source that
    [search] and [gather] report for it: the location of the
    [LinearIndex] or [ZipFileLinearIndex] that holds it, replaced by
    [src or ...] at every enclosing [MultiIndex]. *)
Fixpoint tagged_signatures (self : Index)
    : list (Signature * option string) :=
  match self with
  | LinearIndex sigs loc => map (fun ss => (ss, loc)) sigs
  | ZipFileLinearIndex zf selection_dict traverse_yield_all =>
      map (fun ss => (ss, zf_filename zf))
        (fst (ZipFileLinearIndex_signatures (infolist zf) selection_dict
                traverse_yield_all))
  | MultiIndex index_list source_list =>
      tagged_each tagged_signatures index_list source_list
  end.

(** What the constructor of [MultiIndex] asserts, at every level *)
Inductive well_formed : Index -> Prop :=
| wf_LinearIndex sigs loc : well_formed (LinearIndex sigs loc)
| wf_ZipFileLinearIndex zf sd tya :
    well_formed (ZipFileLinearIndex zf sd tya)
| wf_MultiIndex index_list source_list :
    List.length index_list = List.length source_list ->
    Forall well_formed index_list ->
    well_formed (MultiIndex index_list source_list).

(** [ss] scores at least the threshold under the selected score. *)
Definition search_hit `{SketchCapability} (query : Signature)
    (threshold : float)
    (do_containment do_max_containment ignore_abundance : bool)
    (ss : Signature) : bool :=
  PyFloat.geb
    (query_match query do_containment do_max_containment ignore_abundance ss)
    threshold.

(** The triples of the signatures of [tagged] that score at least the
    threshold, in the order of [tagged] *)
Definition search_hits `{SketchCapability} (query : Signature)
    (threshold : float)
    (do_containment do_max_containment ignore_abundance : bool)
    (tagged : list (Signature * option string)) : list Result :=
  map (fun p =>
         (query_match query do_containment do_max_containment
            ignore_abundance (fst p), fst p, snd p))
    (List.filter
       (fun p => search_hit query threshold do_containment
                   do_max_containment ignore_abundance (fst p))
       tagged).

(** The results of [search] are the hits of the tagged enumeration: as a
    multiset, non-increasing in score, and score class by score class in
    order. *)
Definition search_exact `{SketchCapability} (query : Signature)
    (threshold : float)
    (do_containment do_max_containment ignore_abundance : bool)
    (self : Index) : Prop :=
  well_formed self -> snd (signatures self) = None ->
  exists rs,
    outcome (search self query (Some threshold) do_containment
               do_max_containment ignore_abundance) = Returns rs
    /\ Permutation rs
         (search_hits query threshold do_containment do_max_containment
            ignore_abundance (tagged_signatures self))
    /\ StronglySorted
         (fun a b => PyFloat.geb (score a) (score b) = true) rs
    /\ forall s : float,
         List.filter (fun r => PyFloat.eqb (score r) s) rs =
         List.filter (fun r => PyFloat.eqb (score r) s)
           (search_hits query threshold do_containment do_max_containment
              ignore_abundance (tagged_signatures self)).

(** [query.minhash.contained_by(ss.minhash, True)] *)
Definition containment `{SketchCapability} (query ss : Signature) : float :=
  mh_contained_by (minhash query) (minhash ss) true.

(** The test of the scan of [gather] *)
Definition gather_keep `{SketchCapability} (query : Signature)
    (threshold : float) (ss : Signature) : bool :=
  PyFloat.truthy (containment query ss)
  && PyFloat.geb (containment query ss) threshold.

(** The triples that the scan of [gather] keeps, in enumeration order *)
Definition gather_found `{SketchCapability} (query : Signature)
    (threshold : float) (loc : option string) (sigs : list Signature)
    : list Result :=
  map (fun ss => (containment query ss, ss, loc))
    (List.filter (gather_keep query threshold) sigs).

Definition score_not_nan (r : Result) : Prop :=
  PyFloat.is_nan (score r) = false.

(** The results after an iteration of the greedy loop that selects
    [match_] *)
Definition emitted `{SketchCapability} (self : Index) (query : Signature)
    (threshold : float) (st : Greedy) (match_ : Signature) : list Result :=
  let cont := containment query match_ in
  if PyFloat.truthy cont && PyFloat.geb cont threshold
  then results st ++ [(cont, match_, getattr_source self "filename")]
  else results st.

(** ** A concrete sketch capability for the examples

    Sketches compared as plain hash sets: the common count is the number
    of hashes of the first sketch that occur in the second, containment and
    similarity are the usual ratios, and the fingerprint of a signature is
    its name. *)

Module ExampleSketch.

Definition common (a b : MinHash) : nat :=
  List.length
    (List.filter (fun h => existsb (Z.eqb h) (hashes b)) (hashes a)).

Definition ratio (n d : nat) : float :=
  match PyFloat.of_int (Z.of_nat n), PyFloat.of_int (Z.of_nat d) with
  | inr x, inr y =>
      match PyFloat.truediv x y with
      | inr q => q
      | inl _ => PyFloat.zero
      end
  | _, _ => PyFloat.zero
  end.

Definition contained_by (a b : MinHash) : float :=
  ratio (common a b) (List.length (hashes a)).

Definition jaccard (a b : MinHash) : float :=
  ratio (common a b)
    (List.length (hashes a) + List.length (hashes b) - common a b).

Definition max_containment (a b : MinHash) : float :=
  ratio (common a b)
    (Nat.min (List.length (hashes a)) (List.length (hashes b))).

Definition capability : SketchCapability := {|
  sig_similarity a b _ _ := jaccard (minhash a) (minhash b);
  sig_contained_by a b _ := contained_by (minhash a) (minhash b);
  sig_max_containment a b _ := max_containment (minhash a) (minhash b);
  mh_contained_by a b _ := contained_by a b;
  mh_count_common a b _ := Z.of_nat (common a b);
  mh_len a := List.length (hashes a);
  md5sum ss := name ss
|}.

(** A scaled DNA sketch with the given hashes *)
Definition sketch (hs : list Z) : MinHash :=
  {| ksize := 31; moltype := "DNA"; scaled := 1000; num := 0;
     hashes := hs |}.

Definition sig (n : string) (hs : list Z) : Signature :=
  {| name := n; minhash := sketch hs |}.

(** A fixed-size sketch: [num] set, no [scaled] *)
Definition num_sig (n : string) (hs : list Z) : Signature :=
  {| name := n;
     minhash := {| ksize := 31; moltype := "DNA"; scaled := 0; num := 500;
                   hashes := hs |} |}.

End ExampleSketch.

(** ** Example data: a query of eight hashes and four signatures *)

Module Example.
Import ExampleSketch.

Definition query : Signature := sig "query" [1; 2; 3; 4; 5; 6; 7; 8].
Definition sigA : Signature := sig "A" [1; 2; 3; 4; 5].
Definition sigB : Signature := sig "B" [5; 6; 7].
Definition sigC : Signature := sig "C" [9; 10].
Definition sigD : Signature := sig "D" [6; 7; 8].

(** [LinearIndex([A, B], filename="db.sig")] *)
Definition index_AB : Index :=
  LinearIndex_init [sigA; sigB] (Some "db.sig").

(** [LinearIndex([B, A, C, D], filename="db.sig")] *)
Definition index_BACD : Index :=
  LinearIndex_init [sigB; sigA; sigC; sigD] (Some "db.sig").

(** [2000.0], [2.0] and [0.25] *)
Definition bp_2000 : float := S754_finite false 8796093022208000 (-42).
Definition two : float := S754_finite false 4503599627370496 (-51).
Definition quarter : float := S754_finite false 4503599627370496 (-54).

(** The state of the greedy loop on [index_AB] before its first
    iteration, with the default [threshold_bp] *)
Definition start_AB : Greedy :=
  {| counter := [(0%nat, 5); (1%nat, 3)];
     match_size := Int 0;
     results := [] |}.

(** The same for [LinearIndex([B, D, C])]: B and D tie at 3 *)
(** [MultiIndex([LinearIndex([B, A, C, D], "db.sig"), LinearIndex([D])],
    [None, "extra.sig"])] *)
Definition multi : Index :=
  MultiIndex [index_BACD; LinearIndex [sigD] None] [None; Some "extra.sig"].

Definition start_BDC : Greedy :=
  {| counter := [(0%nat, 3); (1%nat, 3); (2%nat, 0)];
     match_size := Int 0;
     results := [] |}.

(** The result triples of the example signatures *)
Definition hit (cont : float) (ss : Signature) (src : option string)
    : Result := (cont, ss, src).

Definition five_eighths : float := S754_finite false 5629499534213120 (-53).
Definition three_eighths : float :=
  S754_finite false 6755399441055744 (-54).
End Example.

(** ** Example data: keyword dictionaries, an archive and a directory *)

Module ExampleSelect.
Import ExampleSketch.

Definition kw_containment : kwargs := <["containment" := VBool true]> ∅.
Definition kw_scaled_num : kwargs :=
  <["scaled" := VInt 1000]> (<["num" := VInt 500]> ∅).
Definition kw_nothing : kwargs :=
  <["ksize" := VNone]> (<["scaled" := VInt 0]> ∅).
Definition kw_scaled : kwargs := <["scaled" := VInt 1000]> ∅.
Definition kw_ksize : kwargs := <["ksize" := VInt 31]> ∅.

(** A fixed-size signature among scaled ones *)
Definition sigN : Signature := num_sig "N" [1; 2].

(** [LinearIndex([A, N, B], filename="mixed.sig")] *)
Definition index_ANB : Index :=
  LinearIndex_init [Example.sigA; sigN; Example.sigB] (Some "mixed.sig").

(** [MultiIndex([LinearIndex([A, B], "db.sig"), LinearIndex([D])],
    ["one", "two"])] *)
Definition multi_named : Index :=
  MultiIndex [Example.index_AB; LinearIndex [Example.sigD] None]
    [Some "one"; Some "two"].

End ExampleSelect.

Module ExampleLoaders.

(** A directory [dir] with the files [dir/a.sig], holding A and B,
    [dir/bad.sig], which does not load, and [dir/b.sig], holding D; the
    traversal yields the file that does not load only when it is asked
    for all files. *)
Definition loaders : Loaders := {|
  path_exists p := String.eqb p "dir";
  traverse_find_sigs _ yield_all_files :=
    (if yield_all_files
     then ["dir/a.sig"; "dir/bad.sig"; "dir/b.sig"]
     else ["dir/a.sig"; "dir/b.sig"], None);
  load_signatures location :=
    if String.eqb location "dir/a.sig"
    then inr [Example.sigA; Example.sigB]
    else if String.eqb location "dir/b.sig" then inr [Example.sigD]
    else inl IOError;
  load_pathlist_from_file _ := inr ["dir/a.sig"; "dir/b.sig"];
  load_file_as_index fname :=
    if String.eqb fname "dir/a.sig"
    then inr (LinearIndex [Example.sigA; Example.sigB] (Some fname))
    else if String.eqb fname "dir/b.sig"
    then inr (LinearIndex [Example.sigD] (Some fname))
    else inl IOError
|}.

End ExampleLoaders.

(** ** The order of gather results

    [a] may stand before [b] in a list that descends by
    (containment, fingerprint): its containment is larger, or the
    containments are equal and its fingerprint is not the smaller one. *)

Definition descends `{SketchCapability} (a b : Result) : Prop :=
  PyFloat.gtb (score a) (score b) = true
  \/ (PyFloat.eqb (score a) (score b) = true
      /\ String.leb (md5sum (matched b)) (md5sum (matched a)) = true).

(** ** Candidates that can still be selected

    The greedy loop selects a candidate only while its count is at least
    [n_threshold_hashes]; [eligible] counts those candidates.  A threshold
    is a floor when only non-negative counts reach it, as is the case for
    the default 0 and for every quotient of a non-negative [threshold_bp]
    by a positive [scaled]. *)

Definition reaches (n_threshold_hashes : Num) (kv : nat * Z) : bool :=
  num_ge (Int (snd kv)) n_threshold_hashes.

Definition eligible (n_threshold_hashes : Num) (c : Counter.t) : nat :=
  List.length (List.filter (reaches n_threshold_hashes) c).

Definition is_floor (n_threshold_hashes : Num) : Prop :=
  forall z : Z, num_ge (Int z) n_threshold_hashes = true -> 0 <= z.

(** Keys are indexes into the list of signatures, each at most once. *)
Definition well_keyed (signatures : list Signature) (c : Counter.t) : Prop :=
  List.NoDup (Counter.keys c)
  /\ Forall (fun k => (k < List.length signatures)%nat) (Counter.keys c).

(** The counter that the decrement loop of one iteration leaves *)
Fixpoint subtract_all `{SketchCapability} (signatures : list Signature)
    (match_ : Signature) (most_common : list (nat * Z)) (c : Counter.t)
    : Counter.t :=
  match most_common with
  | [] => c
  | (dataset_id, _) :: rest =>
      match nth_error signatures dataset_id with
      | None => c
      | Some ss =>
          subtract_all signatures match_ rest
            (Counter.subtract dataset_id
               (mh_count_common (minhash ss) (minhash match_) true) c)
      end
  end.

(** The sign carried by a float that is not NaN *)
Definition has_sign (s : bool) (x : float) : Prop :=
  match x with
  | S754_nan => True
  | S754_zero s' | S754_infinity s' | S754_finite s' _ _ => s' = s
  end.

(** ** The rank of a float

    Every non-NaN float has a rank in the lexicographic order on integer
    triples (sign class, exponent, mantissa); the order facts about float
    comparison are read off it. *)

Module FloatRank.

Definition rank (x : float) : Z * Z * Z :=
  match x with
  | S754_zero _ | S754_nan => (0, 0, 0)
  | S754_infinity s => (if s then -2 else 2, 0, 0)
  | S754_finite s m e =>
      if s then (-1, - e, Z.neg m) else (1, e, Z.pos m)
  end.

Definition lex_lt (a b : Z * Z * Z) : Prop :=
  let '(a1, a2, a3) := a in
  let '(b1, b2, b3) := b in
  a1 < b1 \/ (a1 = b1 /\ (a2 < b2 \/ (a2 = b2 /\ a3 < b3))).

Definition lex_le (a b : Z * Z * Z) : Prop := lex_lt a b \/ a = b.

End FloatRank.

(** ** Vocabulary of the properties of [select] and of the backends *)

(** The keywords of [kw] are parameters of [select_signature]. *)
Definition declared_keywords (kw : kwargs) : Prop :=
  dom kw ⊆@{gset string} list_to_set select_signature_params.

(** [select_signature(ss, **kw)] returns [True]. *)
Definition accepts (kw : kwargs) (ss : Signature) : bool :=
  match select_signature ss kw with
  | inr true => true
  | _ => false
  end.

(** The first two tests of [select_signature] let [ss] pass: it has the
    requested [ksize] and the requested [moltype], where one is requested. *)
Definition ksize_moltype_match (kw : kwargs) (ss : Signature) : bool :=
  negb (truthy (kw_get kw "ksize" VNone)
        && py_ne (kw_get kw "ksize" VNone) (VInt (ksize (minhash ss))))
  && negb (truthy (kw_get kw "moltype" VNone)
           && py_ne (kw_get kw "moltype" VNone)
                (VStr (moltype (minhash ss)))).

(** The test of [ZipFileLinearIndex.signatures] on a member of the
    archive *)
Definition member_is_loaded (traverse_yield_all : bool) (zipinfo : ZipInfo)
    : bool :=
  endswith (zi_filename zipinfo) ".sig"
  || endswith (zi_filename zipinfo) ".sig.gz"
  || traverse_yield_all.

(** Every signature that the archive holds in the members it loads, in
    the order of the archive *)
Definition archive_signatures (zf : ZipFile) (traverse_yield_all : bool)
    : list Signature :=
  flat_map zi_signatures
    (List.filter (member_is_loaded traverse_yield_all) (infolist zf)).

(** ** Vocabulary of the properties of [gather] on every index *)

(** The containment threshold that [gather] and [counter_gather] derive
    from [threshold_bp]: [0.0] when [threshold_bp] is false, and
    [(float(threshold_bp) / scaled) / len(query.minhash)] otherwise. *)
Definition containment_threshold `{SketchCapability} (query : Signature)
    (threshold_bp : float) : M float :=
  if PyFloat.truthy threshold_bp then
    n_threshold_hashes <- float_div_int threshold_bp
                            (scaled (minhash query)) ;;
    float_div_int n_threshold_hashes (Z.of_nat (mh_len (minhash query)))
  else ret PyFloat.zero.

(** The triples of the signatures of [tagged] that the scan of [gather]
    keeps, in the order of [tagged], each with its source *)
Definition gather_hits `{SketchCapability} (query : Signature)
    (threshold : float) (tagged : list (Signature * option string))
    : list Result :=
  map (fun p => (containment query (fst p), fst p, snd p))
    (List.filter (fun p => gather_keep query threshold (fst p)) tagged).

(** A triple that the greedy loop of [counter_gather] can append: a
    signature of the pre-loaded list that passes the test of the scan of
    [gather], with its containment and no source *)
Definition greedy_member `{SketchCapability} (query : Signature)
    (threshold : float) (signatures : list Signature) (r : Result) : Prop :=
  In (matched r) signatures
  /\ score r = containment query (matched r)
  /\ gather_keep query threshold (matched r) = true
  /\ source r = None.

(** ** Vocabulary of the properties of the loaders *)

(** The files of [files] that [LinearIndex.load] loads, in order, each
    with the index it gives *)
Fixpoint loadable `{Loaders} (files : list string) : list (string * Index) :=
  match files with
  | [] => []
  | thisfile :: rest =>
      match LinearIndex_load thisfile with
      | inr idx => (thisfile, idx) :: loadable rest
      | inl _ => loadable rest
      end
  end.

(** The [MultiIndex] over the indexes of [loaded], each recorded under
    the name of its file *)
Definition MultiIndex_of_files (loaded : list (string * Index)) : Index :=
  MultiIndex (map snd loaded) (map (fun p => Some (fst p)) loaded).

(** No selection is pending in [self]: every [ZipFileLinearIndex] in it
    has a selection dictionary that is [None] or empty. *)
Inductive unselected : Index -> Prop :=
| unselected_LinearIndex sigs loc : unselected (LinearIndex sigs loc)
| unselected_ZipFileLinearIndex zf sd tya :
    dict_truthy sd = false -> unselected (ZipFileLinearIndex zf sd tya)
| unselected_MultiIndex index_list source_list :
    Forall unselected index_list ->
    unselected (MultiIndex index_list source_list).

(** * Properties *)

(** ** Order facts about binary64 comparison *)

Module FloatOrder.
Import PyFloat FloatRank.

Lemma compare_rank (x y : float) :
  is_nan x = false -> is_nan y = false ->
  exists c, SFcompare x y = Some c /\
    match c with
    | Lt => lex_lt (rank x) (rank y)
    | Eq => rank x = rank y
    | Gt => lex_lt (rank y) (rank x)
    end.
Proof.
  destruct x as [sx|sx| |sx mx ex], y as [sy|sy| |sy my ey];
    simpl; try discriminate; intros _ _.
  1-8: eexists; split; [reflexivity|];
       repeat match goal with b : bool |- _ => destruct b end;
       simpl; try reflexivity; lia.
  eexists; split; [reflexivity|].
  change (Pos.compare_cont Eq mx my) with (Pos.compare mx my).
  destruct sx, sy; simpl; try lia;
    destruct (Z.compare_spec ex ey); simpl; try lia;
    destruct (Pos.compare_spec mx my); simpl; subst;
    try reflexivity; lia.
Qed.

Lemma compare_nan_l (x y : float) :
  is_nan x = true -> SFcompare x y = None.
Proof. destruct x; try discriminate. reflexivity. Qed.

Lemma compare_nan_r (x y : float) :
  is_nan y = true -> SFcompare x y = None.
Proof. destruct y; try discriminate. destruct x; reflexivity. Qed.

Lemma lex_lt_irrefl a : ~ lex_lt a a.
Proof. destruct a as [[a1 a2] a3]. unfold lex_lt. lia. Qed.

Lemma lex_lt_asym a b : lex_lt a b -> ~ lex_lt b a.
Proof.
  destruct a as [[a1 a2] a3], b as [[b1 b2] b3]. unfold lex_lt. lia.
Qed.

Lemma lex_lt_trans a b c : lex_lt a b -> lex_lt b c -> lex_lt a c.
Proof.
  destruct a as [[a1 a2] a3], b as [[b1 b2] b3], c as [[c1 c2] c3].
  unfold lex_lt. lia.
Qed.

Lemma lex_total a b : lex_lt a b \/ a = b \/ lex_lt b a.
Proof.
  destruct a as [[a1 a2] a3], b as [[b1 b2] b3]. unfold lex_lt.
  destruct (Z.lt_total a1 b1) as [?|[?|?]];
    destruct (Z.lt_total a2 b2) as [?|[?|?]];
    destruct (Z.lt_total a3 b3) as [?|[?|?]]; subst; auto; lia.
Qed.

Lemma ltb_rank (x y : float) :
  ltb x y = true <->
  is_nan x = false /\ is_nan y = false /\ lex_lt (rank x) (rank y).
Proof.
  unfold ltb, SFltb.
  destruct (is_nan x) eqn:Hx.
  { rewrite (compare_nan_l x y Hx). intuition discriminate. }
  destruct (is_nan y) eqn:Hy.
  { rewrite (compare_nan_r x y Hy). intuition discriminate. }
  destruct (compare_rank x y Hx Hy) as [c [-> Hc]].
  destruct c; split; intros; auto; try discriminate.
  - destruct H as (_ & _ & H). rewrite Hc in H.
    now apply lex_lt_irrefl in H.
  - destruct H as (_ & _ & H). now apply lex_lt_asym in H.
Qed.

Lemma eqb_rank (x y : float) :
  eqb x y = true <->
  is_nan x = false /\ is_nan y = false /\ rank x = rank y.
Proof.
  unfold eqb, SFeqb.
  destruct (is_nan x) eqn:Hx.
  { rewrite (compare_nan_l x y Hx). intuition discriminate. }
  destruct (is_nan y) eqn:Hy.
  { rewrite (compare_nan_r x y Hy). intuition discriminate. }
  destruct (compare_rank x y Hx Hy) as [c [-> Hc]].
  destruct c; split; intros; auto; try discriminate.
  - destruct H as (_ & _ & H). rewrite H in Hc.
    now apply lex_lt_irrefl in Hc.
  - destruct H as (_ & _ & H). rewrite H in Hc.
    now apply lex_lt_irrefl in Hc.
Qed.

Lemma leb_rank (x y : float) :
  leb x y = true <->
  is_nan x = false /\ is_nan y = false /\ lex_le (rank x) (rank y).
Proof.
  unfold leb, SFleb, lex_le.
  destruct (is_nan x) eqn:Hx.
  { rewrite (compare_nan_l x y Hx). intuition discriminate. }
  destruct (is_nan y) eqn:Hy.
  { rewrite (compare_nan_r x y Hy). intuition discriminate. }
  destruct (compare_rank x y Hx Hy) as [c [-> Hc]].
  destruct c; split; intros; auto; try discriminate.
  destruct H as (_ & _ & [H|H]).
  - now apply lex_lt_asym in H.
  - rewrite H in Hc. now apply lex_lt_irrefl in Hc.
Qed.

Lemma rank_neg (x : float) :
  rank (neg x) =
  let '(a, b, c) := rank x in (- a, - b, - c).
Proof.
  destruct x as [s|s| |s m e]; simpl; try reflexivity;
    destruct s; simpl; try reflexivity; f_equal; f_equal; lia.
Qed.

Lemma is_nan_neg (x : float) : is_nan (neg x) = is_nan x.
Proof. destruct x; reflexivity. Qed.

(** [-x < -y] exactly when [y < x], away from NaN. *)
Lemma ltb_neg (x y : float) : ltb (neg x) (neg y) = ltb y x.
Proof.
  apply eq_true_iff_eq. rewrite !ltb_rank, !is_nan_neg, !rank_neg.
  destruct (rank x) as [[a1 a2] a3], (rank y) as [[b1 b2] b3].
  unfold lex_lt. intuition lia.
Qed.

Lemma geb_not_nan (x t : float) : geb x t = true -> is_nan x = false.
Proof. unfold geb. intros H. now apply leb_rank in H. Qed.

Lemma ltb_asym (x y : float) : ltb x y = true -> ltb y x = false.
Proof.
  intros H. apply ltb_rank in H. destruct H as (Hx & Hy & H).
  apply not_true_is_false. intros H'. apply ltb_rank in H'.
  destruct H' as (_ & _ & H'). now apply lex_lt_asym in H.
Qed.

(** Among non-NaN floats, "not less" is "greater or equal". *)
Lemma not_ltb_geb (x y : float) :
  is_nan x = false -> is_nan y = false ->
  ltb x y = false <-> geb x y = true.
Proof.
  intros Hx Hy. unfold geb. rewrite leb_rank.
  rewrite <- not_true_iff_false, ltb_rank. unfold lex_le.
  destruct (lex_total (rank x) (rank y)) as [H|[H|H]]; split; intros;
    auto; try tauto.
  - intros (_ & _ & H'). destruct H0 as (_ & _ & [H0|H0]).
    + now apply lex_lt_asym in H.
    + rewrite H0 in H. now apply lex_lt_irrefl in H.
  - intros (_ & _ & H'). rewrite H in H'. now apply lex_lt_irrefl in H'.
  - intros (_ & _ & H'). now apply lex_lt_asym in H.
Qed.

Lemma geb_trans (x y z : float) :
  geb x y = true -> geb y z = true -> geb x z = true.
Proof.
  unfold geb. rewrite !leb_rank. unfold lex_le.
  intros (? & ? & H1) (? & ? & H2). repeat split; auto.
  destruct H1 as [H1|H1], H2 as [H2|H2].
  - left. eapply lex_lt_trans; eauto.
  - left. now rewrite H2.
  - left. now rewrite <- H1.
  - right. congruence.
Qed.

(** Rounding an integer never produces NaN. *)
Lemma shr_1_nonneg (mrs : shr_record) :
  0 <= shr_m mrs -> 0 <= shr_m (shr_1 mrs).
Proof.
  destruct mrs as [m r s]. destruct m as [|p|p]; simpl; try lia;
    destruct p; simpl; lia.
Qed.

Lemma iter_pos_invariant {A} (Inv : A -> Prop) (f : A -> A) :
  (forall x, Inv x -> Inv (f x)) ->
  forall n x, Inv x -> Inv (SpecFloat.iter_pos f n x).
Proof.
  intros Hf. induction n as [n IH|n IH|]; intros x Hx; simpl; auto.
Qed.

Lemma shr_fexp_nonneg (m e : Z) (l : SpecFloat.location) :
  0 <= m -> 0 <= shr_m (fst (shr_fexp prec emax m e l)).
Proof.
  intros Hm. unfold shr_fexp, shr.
  assert (H0 : 0 <= shr_m (shr_record_of_loc m l))
    by (destruct l as [|[]]; exact Hm).
  destruct (fexp prec emax (Zdigits2 m + e) - e); simpl; auto.
  apply (iter_pos_invariant (fun r => 0 <= shr_m r)); auto.
  apply shr_1_nonneg.
Qed.

Lemma round_nearest_even_nonneg (m : Z) (l : SpecFloat.location) :
  0 <= m -> 0 <= round_nearest_even m l.
Proof.
  intros Hm. destruct l as [|[]]; simpl; try lia.
  destruct (Z.even m); lia.
Qed.

Lemma binary_round_aux_not_nan (sx : bool) (mx ex : Z)
    (lx : SpecFloat.location) :
  0 <= mx -> is_nan (binary_round_aux prec emax sx mx ex lx) = false.
Proof.
  intros Hm. unfold binary_round_aux.
  pose proof (shr_fexp_nonneg mx ex lx Hm) as H1.
  destruct (shr_fexp prec emax mx ex lx) as [mrs' e']. simpl in H1.
  pose proof (shr_fexp_nonneg _ e' loc_Exact
                (round_nearest_even_nonneg _ (loc_of_shr_record mrs') H1))
    as H2.
  destruct (shr_fexp prec emax _ e' loc_Exact) as [mrs'' e''].
  simpl in H2. destruct (shr_m mrs''); try lia; try reflexivity.
  destruct (e'' <=? emax - prec); reflexivity.
Qed.

Lemma of_int_not_nan (z : Z) (d : float) :
  of_int z = inr d -> is_nan d = false.
Proof.
  unfold of_int.
  assert (Hn : is_nan (binary_normalize prec emax z 0 false) = false).
  { destruct z; simpl; try reflexivity; unfold binary_round;
      destruct (shl_align _ _ _) as [mz ez];
      apply binary_round_aux_not_nan; lia. }
  destruct (binary_normalize prec emax z 0 false); try discriminate;
    intros [= <-]; reflexivity.
Qed.

(** Signs: rounding keeps the sign it is given, an integer that is not
    negative converts to a float that is not, and a quotient carries
    the product of the signs. *)
Lemma binary_round_aux_sign (sx : bool) (mx ex : Z)
    (lx : SpecFloat.location) :
  has_sign sx (binary_round_aux prec emax sx mx ex lx).
Proof.
  unfold binary_round_aux.
  destruct (shr_fexp prec emax mx ex lx) as [mrs' e'].
  destruct (shr_fexp prec emax _ e' loc_Exact) as [mrs'' e''].
  destruct (shr_m mrs''); simpl; auto.
  destruct (e'' <=? emax - prec); reflexivity.
Qed.

Lemma of_int_sign (z : Z) (d : float) :
  0 <= z -> of_int z = inr d -> has_sign false d.
Proof.
  intros Hz. unfold of_int.
  assert (Hs : has_sign false (binary_normalize prec emax z 0 false)).
  { destruct z; simpl; try reflexivity; try lia. unfold binary_round.
    destruct (shl_align _ _ _) as [mz ez]. apply binary_round_aux_sign. }
  destruct (binary_normalize prec emax z 0 false); try discriminate;
    intros [= <-]; exact Hs.
Qed.

Lemma SFdiv_sign (x y : float) :
  has_sign false x -> has_sign false y ->
  has_sign false (SFdiv prec emax x y).
Proof.
  destruct x as [sx|sx| |sx mx ex], y as [sy|sy| |sy my ey]; simpl;
    intros; subst; try reflexivity; auto.
  destruct (SFdiv_core_binary _ _ _ _ _ _) as [[mz ez] lz].
  apply binary_round_aux_sign.
Qed.

Lemma not_negative_sign (x : float) :
  truthy x = true -> ltb x zero = false -> has_sign false x.
Proof.
  destruct x as [s|s| |s m e]; simpl; auto; try discriminate;
    destruct s; auto; discriminate.
Qed.

(** Both zeros compare alike. *)
Lemma geb_zero_sign (c : float) (s : bool) :
  geb c (S754_zero s) = geb c zero.
Proof. destruct c; reflexivity. Qed.

(** A zero divided by a float that is neither zero nor NaN is a zero. *)
Lemma truediv_zero (x d q : float) :
  truthy x = false -> is_nan d = false -> truediv x d = inr q ->
  exists s, q = S754_zero s.
Proof.
  destruct x as [sx| | |]; try discriminate. intros _ Hd.
  destruct d as [sd|sd| |sd md ed]; try discriminate; simpl;
    intros [= <-]; eexists; reflexivity.
Qed.

Lemma eqb_refl (x : float) : is_nan x = false -> eqb x x = true.
Proof. intros Hx. apply eqb_rank. auto. Qed.

Lemma eqb_sym (x y : float) : eqb x y = eqb y x.
Proof.
  apply eq_true_iff_eq. rewrite !eqb_rank. intuition congruence.
Qed.

Lemma gtb_rank (x y : float) :
  gtb x y = true <->
  is_nan y = false /\ is_nan x = false /\ lex_lt (rank y) (rank x).
Proof. exact (ltb_rank y x). Qed.

Lemma geb_rank (x y : float) :
  geb x y = true <->
  is_nan y = false /\ is_nan x = false /\ lex_le (rank y) (rank x).
Proof. exact (leb_rank y x). Qed.

Lemma geb_cases (x y : float) :
  geb x y = true <-> gtb x y = true \/ eqb x y = true.
Proof.
  rewrite geb_rank, gtb_rank, eqb_rank. unfold lex_le.
  intuition congruence.
Qed.

Lemma eqb_not_gtb (x y : float) : eqb x y = true -> gtb x y = false.
Proof.
  rewrite eqb_rank. intros (_ & _ & E).
  apply not_true_is_false. rewrite gtb_rank. intros (_ & _ & Hlt).
  rewrite E in Hlt. now apply lex_lt_irrefl in Hlt.
Qed.

Lemma eqb_not_ltb (x y s : float) :
  eqb x s = true -> eqb y s = true -> ltb x y = false.
Proof.
  rewrite !eqb_rank. intros (_ & _ & Ex) (_ & _ & Ey).
  apply not_true_is_false. rewrite ltb_rank. intros (_ & _ & Hlt).
  rewrite Ex, Ey in Hlt. now apply lex_lt_irrefl in Hlt.
Qed.

End FloatOrder.

(** ** The sort model: permutation, stability, order *)

Section SortFacts.
Context {A : Type}.
Variable lt : A -> A -> bool.

Lemma insert_stable_perm (x : A) (l : list A) :
  Permutation (insert_stable lt x l) (x :: l).
Proof.
  induction l as [|y l IH]; simpl; [reflexivity|].
  destruct (lt y x); [|reflexivity].
  rewrite IH. apply perm_swap.
Qed.

Lemma stable_sort_perm (l : list A) : Permutation (stable_sort lt l) l.
Proof.
  induction l as [|x l IH]; simpl; [reflexivity|].
  rewrite insert_stable_perm. now apply perm_skip.
Qed.

Lemma list_sort_perm (reverse : bool) (l : list A) :
  Permutation (list_sort lt reverse l) l.
Proof.
  unfold list_sort. destruct reverse.
  - rewrite <- Permutation_rev, stable_sort_perm.
    symmetry. apply Permutation_rev.
  - apply stable_sort_perm.
Qed.

Lemma list_sort_In (reverse : bool) (l : list A) (x : A) :
  In x (list_sort lt reverse l) <-> In x l.
Proof.
  split; apply Permutation_in;
    [apply list_sort_perm | symmetry; apply list_sort_perm].
Qed.

(** Stability.  A class [p] of elements none of which is less than
    another keeps its order of arrival. *)
Lemma insert_stable_filter (p : A -> bool) (x : A) (l : list A) :
  (forall y, In y l -> p y = true -> p x = true -> lt y x = false) ->
  List.filter p (insert_stable lt x l) = List.filter p (x :: l).
Proof.
  induction l as [|y l IH]; intros Hp; [reflexivity|].
  simpl. destruct (lt y x) eqn:Hyx.
  - simpl. rewrite IH by (intros; apply Hp; simpl; auto).
    simpl. destruct (p y) eqn:Hy; [|reflexivity].
    destruct (p x) eqn:Hx; [|reflexivity].
    rewrite Hp in Hyx; simpl; auto. discriminate.
  - reflexivity.
Qed.

Lemma stable_sort_filter (p : A -> bool) (l : list A) :
  (forall x y, In x l -> In y l -> p x = true -> p y = true ->
               lt x y = false) ->
  List.filter p (stable_sort lt l) = List.filter p l.
Proof.
  induction l as [|x l IH]; intros Hp; [reflexivity|].
  simpl stable_sort. rewrite insert_stable_filter.
  - simpl. rewrite IH by (intros; apply Hp; simpl; auto). reflexivity.
  - intros y Hy. apply Hp; simpl; auto.
    right. eapply Permutation_in; [apply stable_sort_perm|exact Hy].
Qed.

Lemma filter_rev (p : A -> bool) (l : list A) :
  List.filter p (rev l) = rev (List.filter p l).
Proof.
  induction l as [|x l IH]; [reflexivity|].
  simpl. rewrite List.filter_app, IH. simpl.
  destruct (p x); simpl; [reflexivity|apply app_nil_r].
Qed.

Lemma list_sort_filter (p : A -> bool) (reverse : bool) (l : list A) :
  (forall x y, In x l -> In y l -> p x = true -> p y = true ->
               lt x y = false) ->
  List.filter p (list_sort lt reverse l) = List.filter p l.
Proof.
  intros Hp. unfold list_sort. destruct reverse.
  - rewrite filter_rev, stable_sort_filter, filter_rev, rev_involutive.
    + reflexivity.
    + intros x y Hx Hy. apply Hp; now apply in_rev.
  - now apply stable_sort_filter.
Qed.

(** Order.  [P] holds of the elements being sorted; on them [lt] is
    asymmetric and "not less" is transitive. *)
Variable P : A -> Prop.
Hypothesis lt_asym : forall x y, P x -> P y -> lt x y = true -> lt y x = false.
Hypothesis nlt_trans : forall x y z, P x -> P y -> P z ->
  lt y x = false -> lt z y = false -> lt z x = false.

Lemma insert_stable_sorted (x : A) (l : list A) :
  P x -> Forall P l ->
  StronglySorted (fun a b => lt b a = false) l ->
  StronglySorted (fun a b => lt b a = false) (insert_stable lt x l).
Proof.
  intros Px. induction l as [|y l IH]; intros HP Hs; simpl.
  - constructor; constructor.
  - inversion HP as [|? ? Py HPl]; subst.
    inversion Hs as [|? ? Hsl Hy]; subst.
    destruct (lt y x) eqn:Hyx.
    + constructor; [now apply IH|].
      rewrite List.Forall_forall in Hy |- *. intros z Hz.
      apply (Permutation_in _ (insert_stable_perm x l)) in Hz.
      destruct Hz as [<-|Hz]; [now apply lt_asym|now apply Hy].
    + constructor; [assumption|].
      constructor; [assumption|].
      rewrite List.Forall_forall in Hy, HPl |- *. intros z Hz.
      apply (nlt_trans x y z); auto.
Qed.

Lemma stable_sort_sorted (l : list A) :
  Forall P l ->
  StronglySorted (fun a b => lt b a = false) (stable_sort lt l).
Proof.
  induction l as [|x l IH]; intros HP; simpl; [constructor|].
  inversion HP; subst. apply insert_stable_sorted; auto.
  rewrite List.Forall_forall in *. intros y Hy. 
  apply (Permutation_in _ (stable_sort_perm l)) in Hy. auto.
Qed.

Lemma StronglySorted_snoc (R : A -> A -> Prop) (l : list A) (x : A) :
  StronglySorted R l -> Forall (fun y => R y x) l ->
  StronglySorted R (l ++ [x]).
Proof.
  induction l as [|y l IH]; intros Hs Hx; simpl.
  - constructor; constructor.
  - inversion Hs; subst. inversion Hx; subst.
    constructor; [now apply IH|].
    apply List.Forall_app. split; [assumption|]. now constructor.
Qed.

Lemma StronglySorted_rev (R : A -> A -> Prop) (l : list A) :
  StronglySorted R l -> StronglySorted (fun a b => R b a) (rev l).
Proof.
  induction 1 as [|x l Hs IH Hx]; simpl; [constructor|].
  apply StronglySorted_snoc; [assumption|].
  rewrite List.Forall_forall in Hx |- *. intros y Hy.
  apply Hx. now apply in_rev.
Qed.

(** An ascending sort leaves no element less than an earlier one; a
    reversed sort leaves none greater. *)
Lemma list_sort_sorted (reverse : bool) (l : list A) :
  Forall P l ->
  StronglySorted
    (fun a b => (if reverse then lt a b else lt b a) = false)
    (list_sort lt reverse l).
Proof.
  intros HP. unfold list_sort. destruct reverse.
  - apply (StronglySorted_rev (fun a b => lt b a = false)).
    apply stable_sort_sorted.
    rewrite List.Forall_forall in *. intros x Hx. apply HP. now apply in_rev.
  - now apply stable_sort_sorted.
Qed.

End SortFacts.

Lemma StronglySorted_weaken {A} (R R' : A -> A -> Prop) (l : list A) :
  (forall a b, In a l -> In b l -> R a b -> R' a b) ->
  StronglySorted R l -> StronglySorted R' l.
Proof.
  intros HR Hs. induction Hs as [|x l Hs IH Hx]; constructor.
  - apply IH. intros a b Ha Hb. apply HR; simpl; auto.
  - rewrite List.Forall_forall in Hx |- *. intros y Hy.
    apply HR; simpl; auto.
Qed.

(** ** Running the monad *)

Lemma outcome_bind {A B} (m : M A) (k : A -> M B) :
  outcome (bind m k) =
  match outcome m with
  | Returns a => outcome (k a)
  | Raises e => Raises e
  | OutOfFuel => OutOfFuel
  end.
Proof.
  destruct m as [t [a|e|]]; simpl; try reflexivity.
  destruct (k a); reflexivity.
Qed.

Lemma bind_ret {A B} (a : A) (k : A -> M B) : bind (ret a) k = k a.
Proof. unfold bind, ret. now destruct (k a). Qed.

Lemma outcome_ret {A} (a : A) : outcome (ret a) = Returns a.
Proof. reflexivity. Qed.

Lemma outcome_raise {A} (e : Exn) : outcome (@raise A e) = Raises e.
Proof. reflexivity. Qed.

Lemma outcome_tell (ev : Event) : outcome (tell ev) = Returns tt.
Proof. reflexivity. Qed.

Lemma outcome_lift_inr {A} (a : A) : outcome (lift (inr a)) = Returns a.
Proof. reflexivity. Qed.

Lemma outcome_lift_inl {A} (e : Exn) : outcome (@lift A (inl e)) = Raises e.
Proof. reflexivity. Qed.

Lemma outcome_compared {A} (a b : MinHash) (v : A) :
  outcome (compared a b v) = Returns v.
Proof. reflexivity. Qed.

Create Rewrite HintDb run.

#[global] Hint Rewrite @outcome_bind @outcome_ret @outcome_raise
  @outcome_tell @outcome_lift_inr @outcome_lift_inl @outcome_compared : run.

Lemma filter_map_comm {A B} (f : B -> bool) (g : A -> B) (l : list A) :
  List.filter f (map g l) = map g (List.filter (fun x => f (g x)) l).
Proof.
  induction l as [|x l IH]; [reflexivity|].
  simpl. destruct (f (g x)); simpl; now rewrite IH.
Qed.

(** ** [Index.search] *)

Section SearchFacts.
Context `{SketchCapability}.

Variables (query : Signature) (threshold : float).
Variables (do_containment do_max_containment ignore_abundance : bool).

(** The scan of [Index.search] keeps, in enumeration order, the
    signatures that score at least the threshold. *)
Lemma search_scan (self : Index) (loc : option string)
    (sigs : list Signature) (stop : option Exn) (acc : list Result) :
  location self = inr loc ->
  outcome
    (for_sigs sigs stop
       (fun ss matches =>
          score <- compared (minhash query) (minhash ss)
                     (query_match query do_containment do_max_containment
                        ignore_abundance ss) ;;
          if PyFloat.geb score threshold then
            loc <- lift (location self) ;;
            ret (matches ++ [(score, ss, loc)])
          else ret matches)
       acc) =
  match stop with
  | None =>
      Returns (acc ++ search_hits query threshold do_containment
                        do_max_containment ignore_abundance
                        (map (fun ss => (ss, loc)) sigs))
  | Some e => Raises e
  end.
Proof.
  intros Hloc. rewrite Hloc. revert acc. unfold search_hits, search_hit.
  induction sigs as [|ss rest IH]; intros acc; cbn [for_sigs].
  - destruct stop; simpl; [reflexivity|]. now rewrite app_nil_r.
  - autorewrite with run. cbn [List.filter map fst snd].
    destruct (PyFloat.geb _ threshold) eqn:Hge.
    + autorewrite with run. rewrite IH.
      destruct stop; [reflexivity|]. simpl. now rewrite <- app_assoc.
    + autorewrite with run. now rewrite IH.
Qed.

Lemma search_key_lt_neg (x y : Result) :
  search_key_lt x y = PyFloat.ltb (score y) (score x).
Proof. apply FloatOrder.ltb_neg. Qed.

Lemma search_hits_reach (tagged : list (Signature * option string)) :
  Forall (fun r => PyFloat.geb (score r) threshold = true)
    (search_hits query threshold do_containment do_max_containment
       ignore_abundance tagged).
Proof.
  rewrite List.Forall_forall. intros r Hr. unfold search_hits in Hr.
  apply in_map_iff in Hr. destruct Hr as (p & <- & Hp).
  apply filter_In in Hp. now destruct Hp as [_ Hhit].
Qed.

(** The sort that ends [search], on triples whose score is not NaN:
    a permutation, non-increasing in score, every score class in its
    former order. *)
Lemma search_sort (l : list Result) :
  Forall score_not_nan l ->
  Permutation (list_sort search_key_lt false l) l
  /\ StronglySorted (fun a b => PyFloat.geb (score a) (score b) = true)
       (list_sort search_key_lt false l)
  /\ forall s : float,
       List.filter (fun r => PyFloat.eqb (score r) s)
         (list_sort search_key_lt false l) =
       List.filter (fun r => PyFloat.eqb (score r) s) l.
Proof.
  intros Hnan. split; [apply list_sort_perm|]. split.
  - apply (StronglySorted_weaken (fun a b => search_key_lt b a = false)).
    + intros a b Ha Hb. rewrite search_key_lt_neg.
      apply list_sort_In in Ha, Hb.
      rewrite List.Forall_forall in Hnan.
      now apply FloatOrder.not_ltb_geb; apply Hnan.
    + refine (list_sort_sorted search_key_lt score_not_nan _ _
                false l Hnan).
      * intros x y _ _. rewrite !search_key_lt_neg.
        apply FloatOrder.ltb_asym.
      * intros x y z Hx Hy Hz. rewrite !search_key_lt_neg.
        rewrite !FloatOrder.not_ltb_geb by assumption.
        apply FloatOrder.geb_trans.
  - intros s. apply list_sort_filter.
    intros x y _ _ Hx Hy. rewrite search_key_lt_neg.
    exact (FloatOrder.eqb_not_ltb _ _ _ Hy Hx).
Qed.

(** [Index.search] on a backend with a location whose enumeration
    succeeds *)
Lemma Index_search_returns (self : Index) (loc : option string)
    (sigs : list Signature) :
  signatures self = (sigs, None) ->
  location self = inr loc ->
  do_containment && do_max_containment = false ->
  outcome (Index_search self query (Some threshold) do_containment
             do_max_containment ignore_abundance) =
  Returns (list_sort search_key_lt false
             (search_hits query threshold do_containment do_max_containment
                ignore_abundance (map (fun ss => (ss, loc)) sigs))).
Proof.
  intros Hsigs Hloc Hflags.
  unfold Index_search. rewrite Hflags. autorewrite with run.
  unfold for_signatures. rewrite Hsigs. cbn [fst snd].
  pose proof (search_scan self loc sigs None [] Hloc) as Hscan.
  unfold Result in Hscan |- *. rewrite Hscan. reflexivity.
Qed.

End SearchFacts.

(** C2. [Index.search], the method that [search] is on every backend but
    [MultiIndex], checks its arguments first: without a threshold, and
    with both containment flags set, it raises [TypeError], and its trace
    is empty, so no signature was enumerated or compared.  This holds for
    any receiver, also one whose enumeration would itself raise. *)
Theorem search_rejects_bad_arguments_first `{SketchCapability}
    (self : Index) (query : Signature) (threshold : option float)
    (do_containment do_max_containment ignore_abundance : bool) :
  let no_threshold :=
    Index_search self query None do_containment do_max_containment
      ignore_abundance in
  let both_flags :=
    Index_search self query threshold true true ignore_abundance in
  (trace no_threshold = []
   /\ outcome no_threshold
      = Raises (TypeError "'search' requires 'threshold'"))
  /\ (trace both_flags = []
      /\ exists msg, outcome both_flags = Raises (TypeError msg))
  /\ forall t,
       Index_search self query (Some t) true true ignore_abundance
       = ([], Raises (TypeError
           "'do_containment' and 'do_max_containment' cannot both be True")).
Proof.
  cbv zeta. split; [split; reflexivity|]. split; [|reflexivity].
  destruct threshold; split; try reflexivity; eexists; reflexivity.
Qed.

(** ** [Index.gather] and [Index.counter_gather]: the preconditions *)

Section GatherPreconditions.
Context `{SketchCapability}.
Variables (self : Index) (query : Signature) (threshold_bp : float).

Lemma gather_empty_query :
  mh_len (minhash query) = 0%nat ->
  Index_gather self query threshold_bp = ([], Returns []).
Proof. intros E. unfold Index_gather. now rewrite E. Qed.

Lemma counter_gather_empty_query (fuel : nat) :
  mh_len (minhash query) = 0%nat ->
  Index_counter_gather fuel self query threshold_bp = ([], Returns []).
Proof. intros E. unfold Index_counter_gather. now rewrite E. Qed.

Lemma gather_not_scaled :
  mh_len (minhash query) <> 0%nat ->
  scaled (minhash query) = 0 ->
  Index_gather self query threshold_bp
  = ([], Raises (ValueError "gather requires scaled signatures")).
Proof.
  intros Hlen Hsc. unfold Index_gather.
  apply Nat.eqb_neq in Hlen. now rewrite Hlen, Hsc.
Qed.

Lemma counter_gather_not_scaled (fuel : nat) :
  mh_len (minhash query) <> 0%nat ->
  scaled (minhash query) = 0 ->
  Index_counter_gather fuel self query threshold_bp
  = ([], Raises (ValueError "gather requires scaled signatures")).
Proof.
  intros Hlen Hsc. unfold Index_counter_gather.
  apply Nat.eqb_neq in Hlen. now rewrite Hlen, Hsc.
Qed.

(** C3, with the order of the two tests made explicit.  Both algorithms
    return the empty list at once (empty trace) on an empty query sketch,
    whatever its sampling policy, and raise [ValueError] at once on a
    non-empty query sketch that has no scaled policy. *)
Theorem gather_preconditions (fuel : nat) :
  (mh_len (minhash query) = 0%nat ->
     Index_gather self query threshold_bp = ([], Returns [])
     /\ Index_counter_gather fuel self query threshold_bp
        = ([], Returns []))
  /\ (mh_len (minhash query) <> 0%nat -> scaled (minhash query) = 0 ->
        Index_gather self query threshold_bp
        = ([], Raises (ValueError "gather requires scaled signatures"))
        /\ Index_counter_gather fuel self query threshold_bp
           = ([], Raises (ValueError "gather requires scaled signatures"))).
Proof.
  split.
  - intros E. split.
    + now apply gather_empty_query.
    + now apply counter_gather_empty_query.
  - intros Hlen Hsc. split.
    + now apply gather_not_scaled.
    + now apply counter_gather_not_scaled.
Qed.

End GatherPreconditions.

(** The amended C3 at an empty fixed-size query and at a non-empty one. *)
Lemma gather_preconditions_witness :
  (Index_gather (H := ExampleSketch.capability) (LinearIndex [] None)
     (ExampleSketch.num_sig "q" []) PyFloat.zero = ([], Returns [])
   /\ Index_counter_gather (H := ExampleSketch.capability) 1
        (LinearIndex [] None) (ExampleSketch.num_sig "q" []) PyFloat.zero
      = ([], Returns []))
  /\ (Index_gather (H := ExampleSketch.capability) (LinearIndex [] None)
        (ExampleSketch.num_sig "q" [1; 2]) PyFloat.zero
      = ([], Raises (ValueError "gather requires scaled signatures"))
      /\ Index_counter_gather (H := ExampleSketch.capability) 1
           (LinearIndex [] None) (ExampleSketch.num_sig "q" [1; 2])
           PyFloat.zero
         = ([], Raises (ValueError "gather requires scaled signatures"))).
Proof.
  split.
  - apply (gather_preconditions (H := ExampleSketch.capability)
             (LinearIndex [] None) (ExampleSketch.num_sig "q" [])
             PyFloat.zero 1).
    reflexivity.
  - apply (gather_preconditions (H := ExampleSketch.capability)
             (LinearIndex [] None) (ExampleSketch.num_sig "q" [1; 2])
             PyFloat.zero 1).
    + simpl. discriminate.
    + reflexivity.
Defined.

(** C3 does not hold of every fixed-size query: a query whose sketch uses
    the fixed-size policy ([num] = 500, no [scaled]) and is empty makes
    [gather] return the empty list instead of raising. *)
Lemma gather_fixed_size_query_need_not_raise :
  ~ (forall (cap : SketchCapability) (self : Index) (query : Signature)
            (threshold_bp : float),
       scaled (minhash query) = 0 ->
       exists e, outcome (gather (H := cap) self query threshold_bp)
                 = Raises e).
Proof.
  intros Hall.
  destruct (Hall ExampleSketch.capability (LinearIndex [] None)
              (ExampleSketch.num_sig "q" []) PyFloat.zero eq_refl)
    as [e He].
  discriminate He.
Qed.

(** ** [Index.gather]: threshold and matches *)

Lemma float_div_int_returns (x : float) (n : Z) (q : float) :
  outcome (float_div_int x n) = Returns q ->
  exists d, PyFloat.of_int n = inr d /\ PyFloat.truediv x d = inr q.
Proof.
  unfold float_div_int. rewrite outcome_bind.
  destruct (PyFloat.of_int n) as [e|d]; simpl; [discriminate|].
  destruct (PyFloat.truediv x d) as [e|q'] eqn:Hq; simpl; [discriminate|].
  intros [= <-]. eauto.
Qed.

Lemma float_div_int_outcome (x : float) (n : Z) (q : float) :
  outcome (float_div_int x n) = Returns q ->
  float_div_int x n = ([], Returns q).
Proof.
  unfold float_div_int, bind, lift.
  destruct (PyFloat.of_int n) as [e|d]; simpl; [discriminate|].
  destruct (PyFloat.truediv x d) as [e|q']; simpl; [discriminate|].
  now intros [= <-].
Qed.

Lemma float_div_int_ends (x : float) (n : Z) :
  outcome (float_div_int x n) <> OutOfFuel.
Proof.
  unfold float_div_int, bind, lift.
  destruct (PyFloat.of_int n) as [e|d]; simpl; [discriminate|].
  destruct (PyFloat.truediv x d); simpl; discriminate.
Qed.

(** Dividing a zero by an integer, when it returns, returns a zero. *)
Lemma float_div_int_zero (x : float) (n : Z) (q : float) :
  PyFloat.truthy x = false ->
  outcome (float_div_int x n) = Returns q ->
  exists s, q = S754_zero s.
Proof.
  intros Hx Hq. apply float_div_int_returns in Hq.
  destruct Hq as (d & Hd & Hq).
  eapply FloatOrder.truediv_zero; eauto.
  eapply FloatOrder.of_int_not_nan; eauto.
Qed.

Section GatherFacts.
Context `{SketchCapability}.
Variables (self : Index) (loc : option string) (sigs : list Signature).
Variable query : Signature.
Hypothesis Hsigs : signatures self = (sigs, None).
Hypothesis Hloc : location self = inr loc.

Lemma gather_loop (threshold : float) (l : list Signature)
    (stop : option Exn) (acc : list Result) :
  outcome
    (for_sigs l stop
       (fun ss results =>
          c <- compared (minhash query) (minhash ss) (containment query ss) ;;
          if PyFloat.truthy c && PyFloat.geb c threshold then
            loc <- lift (location self) ;;
            ret (results ++ [(c, ss, loc)])
          else ret results)
       acc) =
  match stop with
  | None => Returns (acc ++ gather_found query threshold loc l)
  | Some e => Raises e
  end.
Proof.
  rewrite Hloc. revert acc. unfold gather_found.
  induction l as [|ss rest IH]; intros acc; cbn [for_sigs].
  - destruct stop; simpl; [reflexivity|]. now rewrite app_nil_r.
  - autorewrite with run. cbn [List.filter map]. unfold gather_keep at 1.
    destruct (PyFloat.truthy (containment query ss)
              && PyFloat.geb (containment query ss) threshold).
    + autorewrite with run. rewrite IH.
      destruct stop; [reflexivity|]. simpl. now rewrite <- app_assoc.
    + autorewrite with run. now rewrite IH.
Qed.

Lemma gather_scan_returns (threshold : float) :
  outcome (gather_scan self query threshold) =
  Returns (list_sort gather_key_lt true
             (gather_found query threshold loc sigs)).
Proof.
  unfold gather_scan, for_signatures. rewrite Hsigs. cbn [fst snd].
  rewrite outcome_bind.
  pose proof (gather_loop threshold sigs None []) as Hl.
  unfold containment, Result in Hl |- *. rewrite Hl. reflexivity.
Qed.

Lemma gather_is_Index_gather (threshold_bp : float) :
  gather self query threshold_bp = Index_gather self query threshold_bp.
Proof. destruct self; try reflexivity. discriminate Hloc. Qed.

(** C4. On a scaled, non-empty query, with
    [n_threshold_hashes = threshold_bp / scaled] and
    [threshold = n_threshold_hashes / len(query.minhash)] (both float
    divisions returning), [gather] returns the empty list when
    [threshold > 1.0], and otherwise the signatures whose containment
    [query.minhash.contained_by(ss.minhash)] is nonzero and at least
    [threshold], and no others, in sorted order. *)
Theorem gather_threshold_and_matches
    (threshold_bp n_threshold_hashes threshold : float) :
  mh_len (minhash query) <> 0%nat ->
  scaled (minhash query) <> 0 ->
  outcome (float_div_int threshold_bp (scaled (minhash query)))
    = Returns n_threshold_hashes ->
  outcome (float_div_int n_threshold_hashes
             (Z.of_nat (mh_len (minhash query))))
    = Returns threshold ->
  exists results,
    outcome (gather self query threshold_bp) = Returns results
    /\ (PyFloat.gtb threshold PyFloat.one = true -> results = [])
    /\ (PyFloat.gtb threshold PyFloat.one = false ->
          results = list_sort gather_key_lt true
                      (gather_found query threshold loc sigs)
          /\ Permutation results (gather_found query threshold loc sigs)).
Proof.
  intros Hlen Hsc Hn Ht.
  rewrite gather_is_Index_gather. unfold Index_gather.
  apply Nat.eqb_neq in Hlen. apply Z.eqb_neq in Hsc.
  rewrite Hlen, Hsc.
  destruct (PyFloat.truthy threshold_bp) eqn:Hbp.
  - rewrite (float_div_int_outcome _ _ _ Hn). cbn [bind app].
    rewrite (float_div_int_outcome _ _ _ Ht). cbn [bind app].
    destruct (PyFloat.gtb threshold PyFloat.one) eqn:Hgt.
    + exists []. split; [reflexivity|]. split; [auto|discriminate].
    + exists (list_sort gather_key_lt true
                (gather_found query threshold loc sigs)).
      split; [|split; [discriminate|]].
      * destruct (gather_scan self query threshold) eqn:E.
        pose proof (gather_scan_returns threshold) as Hr.
        rewrite E in Hr. simpl in Hr. now subst.
      * intros _. split; [reflexivity|apply list_sort_perm].
  - destruct (float_div_int_zero _ _ _ Hbp Hn) as [s ->].
    destruct (float_div_int_zero (S754_zero s) _ _ eq_refl Ht) as [s' ->].
    assert (Efound : gather_found query (S754_zero s') loc sigs
                     = gather_found query PyFloat.zero loc sigs).
    { unfold gather_found. apply f_equal, List.filter_ext. intros ss.
      unfold gather_keep. now rewrite FloatOrder.geb_zero_sign. }
    exists (list_sort gather_key_lt true
              (gather_found query PyFloat.zero loc sigs)).
    split; [apply gather_scan_returns|].
    split; [destruct s'; discriminate|].
    intros _. rewrite Efound. split; [reflexivity|apply list_sort_perm].
Qed.

End GatherFacts.

(** ** The order of strings and of [(float, str)] keys *)

Module StringOrder.

Lemma ascii_compare_refl (a : ascii) : Ascii.compare a a = Eq.
Proof. unfold Ascii.compare. apply N.compare_refl. Qed.

Lemma ascii_compare_lt_trans (a b c : ascii) :
  Ascii.compare a b = Lt -> Ascii.compare b c = Lt ->
  Ascii.compare a c = Lt.
Proof. unfold Ascii.compare. rewrite !N.compare_lt_iff. lia. Qed.

Lemma string_compare_lt_trans (a b c : string) :
  String.compare a b = Lt -> String.compare b c = Lt ->
  String.compare a c = Lt.
Proof.
  revert b c. induction a as [|x a IH]; intros [|y b] [|z c]; simpl;
    try discriminate; try reflexivity.
  destruct (Ascii.compare x y) eqn:Hxy; try discriminate;
    destruct (Ascii.compare y z) eqn:Hyz; try discriminate;
    intros Hab Hbc.
  - apply Ascii.compare_eq_iff in Hxy, Hyz. subst.
    rewrite ascii_compare_refl. eauto.
  - apply Ascii.compare_eq_iff in Hxy. subst. now rewrite Hyz.
  - apply Ascii.compare_eq_iff in Hyz. subst. now rewrite Hxy.
  - now rewrite (ascii_compare_lt_trans _ _ _ Hxy Hyz).
Qed.

Lemma string_ltb_false_leb (a b : string) :
  String.ltb a b = false <-> String.leb b a = true.
Proof.
  unfold String.ltb, String.leb. rewrite (String.compare_antisym b a).
  destruct (String.compare a b); simpl; split; congruence.
Qed.

Lemma string_ltb_asym (a b : string) :
  String.ltb a b = true -> String.ltb b a = false.
Proof.
  unfold String.ltb. rewrite (String.compare_antisym b a).
  destruct (String.compare a b); simpl; congruence.
Qed.

Lemma string_leb_trans (a b c : string) :
  String.leb a b = true -> String.leb b c = true -> String.leb a c = true.
Proof.
  unfold String.leb.
  destruct (String.compare a b) eqn:Hab; try discriminate;
    destruct (String.compare b c) eqn:Hbc; try discriminate; intros _ _.
  - apply String.compare_eq_iff in Hab. subst. now rewrite Hbc.
  - apply String.compare_eq_iff in Hab. subst. now rewrite Hbc.
  - apply String.compare_eq_iff in Hbc. subst. now rewrite Hab.
  - now rewrite (string_compare_lt_trans _ _ _ Hab Hbc).
Qed.

End StringOrder.

Section KeyOrder.
Context `{SketchCapability}.

(** On results whose score is not NaN, "the key of [a] is not less than
    the key of [b]" is [descends a b]. *)
Lemma gather_key_lt_false_iff (a b : Result) :
  score_not_nan a -> score_not_nan b ->
  gather_key_lt a b = false <-> descends a b.
Proof.
  unfold score_not_nan, gather_key_lt, tuple_lt, gather_key, descends.
  cbn [fst snd]. intros Ha Hb.
  destruct (PyFloat.eqb (score a) (score b)) eqn:E.
  - rewrite StringOrder.string_ltb_false_leb, (FloatOrder.eqb_not_gtb _ _ E).
    intuition discriminate.
  - rewrite (FloatOrder.not_ltb_geb _ _ Ha Hb), FloatOrder.geb_cases, E.
    intuition discriminate.
Qed.

Lemma gather_key_lt_asym (a b : Result) :
  gather_key_lt a b = true -> gather_key_lt b a = false.
Proof.
  unfold gather_key_lt, tuple_lt, gather_key. cbn [fst snd].
  rewrite (FloatOrder.eqb_sym (score b) (score a)).
  destruct (PyFloat.eqb (score a) (score b)).
  - apply StringOrder.string_ltb_asym.
  - apply FloatOrder.ltb_asym.
Qed.

Lemma descends_trans (a b c : Result) :
  descends a b -> descends b c -> descends a c.
Proof.
  unfold descends.
  rewrite !FloatOrder.gtb_rank, !FloatOrder.eqb_rank.
  intros [(Hb & Ha & Hab)|((Ha & Hb & Eab) & Sab)]
         [(Hc & _ & Hbc)|((_ & Hc & Ebc) & Sbc)].
  - left. repeat split; auto. eapply FloatOrder.lex_lt_trans; eauto.
  - left. repeat split; auto. now rewrite <- Ebc.
  - left. repeat split; auto. now rewrite Eab.
  - right. repeat split; auto; [congruence|].
    eapply StringOrder.string_leb_trans; eauto.
Qed.

(** A list sorted with [reverse=True] on the gather key descends. *)
Lemma gather_sort_descends (l : list Result) :
  Forall score_not_nan l ->
  StronglySorted descends (list_sort gather_key_lt true l).
Proof.
  intros Hl.
  apply (StronglySorted_weaken (fun a b => gather_key_lt a b = false)).
  - intros a b Ha Hb. apply list_sort_In in Ha, Hb.
    rewrite List.Forall_forall in Hl.
    now rewrite gather_key_lt_false_iff by auto.
  - refine (list_sort_sorted gather_key_lt score_not_nan _ _ true l Hl).
    + intros x y _ _. apply gather_key_lt_asym.
    + intros x y z Hx Hy Hz.
      rewrite !gather_key_lt_false_iff by assumption.
      intros Hxy Hyz. eapply descends_trans; eauto.
Qed.

End KeyOrder.

(** ** What the greedy loop of [counter_gather] emits *)

Section GreedyResults.
Context `{SketchCapability}.
Variables (self : Index) (query : Signature).
Variables (signatures : list Signature).
Variables (n_threshold_hashes : Num) (threshold : float).

(** [Q] holds of every triple the loop can append. *)
Variable Q : Result -> Prop.
Hypothesis Q_emitted : forall (cont : float) (match_ : Signature),
  PyFloat.truthy cont && PyFloat.geb cont threshold = true ->
  Q (cont, match_, getattr_source self "filename").

Lemma greedy_iteration_results (st : Greedy) (step : Step) :
  Forall Q (results st) ->
  outcome (greedy_iteration self query signatures n_threshold_hashes
             threshold st) = Returns step ->
  match step with
  | Continue st' | Break st' => Forall Q (results st')
  end.
Proof.
  intros HQ. unfold greedy_iteration.
  destruct (Counter.most_common (counter st)) as [|[dataset_id size] rest];
    [discriminate|].
  destruct (num_ge (Int size) n_threshold_hashes).
  - destruct (nth_error signatures dataset_id) as [match_|]; [|discriminate].
    autorewrite with run.
    destruct (outcome (decrement_counter _ _ _ _)); try discriminate.
    autorewrite with run. intros [= <-]. cbn [results].
    destruct (PyFloat.truthy _ && PyFloat.geb _ threshold) eqn:E.
    + apply List.Forall_app. split; [assumption|].
      constructor; [|constructor]. now apply Q_emitted.
    + assumption.
  - autorewrite with run. now intros [= <-].
Qed.

Lemma greedy_loop_results (fuel : nat) (st : Greedy) (rs : list Result) :
  Forall Q (results st) ->
  outcome (greedy_loop fuel self query signatures n_threshold_hashes
             threshold st) = Returns rs ->
  Forall Q rs.
Proof.
  revert st. induction fuel as [|fuel IH]; intros st HQ; cbn [greedy_loop];
    destruct (Counter.nonempty (counter st)
              && num_ge (match_size st) n_threshold_hashes);
    autorewrite with run; try (now intros [= <-]); try discriminate.
  destruct (outcome (greedy_iteration _ _ _ _ _ st)) as [step| |] eqn:E;
    try discriminate.
  pose proof (greedy_iteration_results st step HQ E) as Hstep.
  destruct step as [st'|st'].
  - now apply IH.
  - autorewrite with run. now intros [= <-].
Qed.

End GreedyResults.

(** ** Induction on indexes, through the sub-indexes of a [MultiIndex] *)

Lemma Index_nested_ind (P : Index -> Prop) :
  (forall sigs loc, P (LinearIndex sigs loc)) ->
  (forall zf sd tya, P (ZipFileLinearIndex zf sd tya)) ->
  (forall index_list source_list,
     Forall P index_list -> P (MultiIndex index_list source_list)) ->
  forall self, P self.
Proof.
  intros HL HZ HM. fix IH 1. intros [sigs loc|zf sd tya|index_list source_list].
  - apply HL.
  - apply HZ.
  - apply HM. induction index_list as [|idx rest IHl]; constructor.
    + apply IH.
    + exact IHl.
Qed.

Lemma Forall_list_sort {A} (lt : A -> A -> bool) (reverse : bool)
    (Q : A -> Prop) (l : list A) :
  Forall Q l -> Forall Q (list_sort lt reverse l).
Proof.
  rewrite !List.Forall_forall. intros HQ x Hx.
  apply HQ. now apply list_sort_In in Hx.
Qed.

(** The pooling loop shared by [MultiIndex.search] and [MultiIndex.gather]:
    what holds of every sub-index's results, and survives re-tagging,
    holds of the pool. *)
Lemma for_zip_pool (call : Index -> M (list Result)) (Q : Result -> Prop)
    (index_list : list Index) (source_list : list (option string)) :
  (forall r src, Q r -> Q (score r, matched r, str_or src (source r))) ->
  Forall (fun idx => forall rs, outcome (call idx) = Returns rs -> Forall Q rs)
    index_list ->
  forall acc pooled,
    Forall Q acc ->
    outcome (for_zip (fun idx src acc =>
                        sub <- call idx ;; ret (acc ++ retag src sub))
               index_list source_list acc) = Returns pooled ->
    Forall Q pooled.
Proof.
  intros Hretag Hsub. revert source_list.
  induction Hsub as [|idx rest Hidx Hrest IH];
    intros source_list acc pooled Hacc; cbn [for_zip].
  - autorewrite with run. now intros [= <-].
  - destruct source_list as [|src sl].
    + autorewrite with run. now intros [= <-].
    + autorewrite with run.
      destruct (outcome (call idx)) as [sub| |] eqn:E; try discriminate.
      autorewrite with run. apply IH.
      apply List.Forall_app. split; [assumption|].
      unfold retag. rewrite List.Forall_forall. intros r Hr.
      apply in_map_iff in Hr. destruct Hr as (r0 & <- & Hr0).
      apply Hretag. specialize (Hidx sub eq_refl).
      rewrite List.Forall_forall in Hidx. now apply Hidx.
Qed.

(** ** What [gather] returns, on every index *)

Section GatherResults.
Context `{SketchCapability}.
Variable query : Signature.

Lemma gather_scan_results (self : Index) (loc : option string)
    (threshold : float) (rs : list Result) :
  location self = inr loc ->
  outcome (gather_scan self query threshold) = Returns rs ->
  exists rs0, rs = list_sort gather_key_lt true rs0
    /\ Forall (fun r => score_not_nan r /\ source r = loc) rs0.
Proof.
  intros Hloc. unfold gather_scan, for_signatures.
  destruct (signatures self) as [sigs stop] eqn:Hsigs. cbn [fst snd].
  rewrite outcome_bind.
  pose proof (gather_loop self loc query Hloc threshold sigs stop []) as Hl.
  unfold containment, Result in Hl |- *. rewrite Hl.
  destruct stop; [discriminate|]. autorewrite with run.
  intros [= <-]. eexists. split; [reflexivity|].
  rewrite List.Forall_forall. intros r Hr. cbn [app] in Hr.
  unfold gather_found in Hr. apply in_map_iff in Hr.
  destruct Hr as (ss & <- & Hss).
  apply filter_In in Hss. destruct Hss as [_ Hkeep].
  apply andb_true_iff in Hkeep. destruct Hkeep as [_ Hge].
  split; [|reflexivity].
  exact (FloatOrder.geb_not_nan _ _ Hge).
Qed.

Lemma Index_gather_results (self : Index) (loc : option string)
    (threshold_bp : float) (rs : list Result) :
  location self = inr loc ->
  outcome (Index_gather self query threshold_bp) = Returns rs ->
  exists rs0, rs = list_sort gather_key_lt true rs0
    /\ Forall (fun r => score_not_nan r /\ source r = loc) rs0.
Proof.
  intros Hloc. unfold Index_gather.
  destruct (Nat.eqb _ _).
  { intros [= <-]. exists []. split; [reflexivity|constructor]. }
  destruct (scaled (minhash query) =? 0); [discriminate|].
  destruct (PyFloat.truthy threshold_bp).
  - autorewrite with run.
    destruct (outcome (float_div_int threshold_bp _)); try discriminate.
    autorewrite with run.
    destruct (outcome (float_div_int _ _)) as [threshold| |];
      try discriminate.
    destruct (PyFloat.gtb threshold PyFloat.one).
    + intros [= <-]. exists []. split; [reflexivity|constructor].
    + now apply gather_scan_results.
  - now apply gather_scan_results.
Qed.

(** Every list [gather] returns, from any index, is the reversed sort
    on the gather key of triples whose containment is not NaN. *)
Lemma gather_results (threshold_bp : float) (self : Index) :
  forall rs, outcome (gather self query threshold_bp) = Returns rs ->
  exists rs0, rs = list_sort gather_key_lt true rs0 /\ Forall score_not_nan rs0.
Proof.
  induction self as [sigs loc|zf sd tya|index_list source_list IH]
    using Index_nested_ind; intros rs.
  - intros Hrs.
    destruct (Index_gather_results (LinearIndex sigs loc) loc _ _
                eq_refl Hrs) as (rs0 & E & H0).
    exists rs0. split; [exact E|].
    eapply List.Forall_impl; [|exact H0]. now intros r [Hr _].
  - intros Hrs.
    destruct (Index_gather_results (ZipFileLinearIndex zf sd tya)
                (zf_filename zf) _ _ eq_refl Hrs) as (rs0 & E & H0).
    exists rs0. split; [exact E|].
    eapply List.Forall_impl; [|exact H0]. now intros r [Hr _].
  - cbn [gather]. rewrite outcome_bind.
    destruct (outcome (for_zip _ index_list source_list []))
      as [pooled| |] eqn:Hpool; try discriminate.
    autorewrite with run. intros [= <-].
    exists pooled. split; [reflexivity|].
    refine (for_zip_pool (fun idx => gather idx query threshold_bp)
              score_not_nan index_list source_list _ _ [] pooled _ Hpool).
    + intros r src Hr. exact Hr.
    + eapply List.Forall_impl; [|exact IH]. intros idx Hidx sub Hsub.
      destruct (Hidx sub Hsub) as (sub0 & -> & H0).
      now apply Forall_list_sort.
    + constructor.
Qed.

End GatherResults.

(** ** What [counter_gather] returns *)

Section CounterGatherResults.
Context `{SketchCapability}.
Variables (self : Index) (query : Signature).

Variable Q : Result -> Prop.
Hypothesis Q_emitted : forall (threshold cont : float) (match_ : Signature),
  PyFloat.truthy cont && PyFloat.geb cont threshold = true ->
  Q (cont, match_, getattr_source self "filename").

Lemma decompose_results (fuel : nat) (n_threshold_hashes : Num)
    (threshold : float) (rs : list Result) :
  outcome (decompose fuel self query n_threshold_hashes threshold)
    = Returns rs ->
  exists rs0, rs = list_sort gather_key_lt true rs0 /\ Forall Q rs0.
Proof.
  unfold decompose. autorewrite with run.
  destruct (outcome (for_signatures _ _ _)) as [sigs| |]; try discriminate.
  autorewrite with run.
  destruct (outcome (count_shared _ _ _ _)) as [c| |]; try discriminate.
  autorewrite with run.
  destruct (outcome (greedy_loop _ _ _ _ _ _ _)) as [rs0| |] eqn:E;
    try discriminate.
  autorewrite with run. intros [= <-]. exists rs0. split; [reflexivity|].
  eapply (greedy_loop_results self query sigs n_threshold_hashes threshold
            Q (Q_emitted threshold)); [|exact E].
  constructor.
Qed.

Lemma counter_gather_results (fuel : nat) (threshold_bp : float)
    (rs : list Result) :
  outcome (counter_gather fuel self query threshold_bp) = Returns rs ->
  exists rs0, rs = list_sort gather_key_lt true rs0 /\ Forall Q rs0.
Proof.
  unfold counter_gather, Index_counter_gather.
  destruct (Nat.eqb _ _).
  { intros [= <-]. exists []. split; [reflexivity|constructor]. }
  destruct (scaled (minhash query) =? 0); [discriminate|].
  destruct (PyFloat.truthy threshold_bp).
  - autorewrite with run.
    destruct (outcome (float_div_int threshold_bp _)); try discriminate.
    autorewrite with run.
    destruct (outcome (float_div_int _ _)) as [threshold| |];
      try discriminate.
    destruct (PyFloat.gtb threshold PyFloat.one).
    + intros [= <-]. exists []. split; [reflexivity|constructor].
    + apply decompose_results.
  - apply decompose_results.
Qed.

End CounterGatherResults.

(** ** Counts against the threshold *)

Lemma cmp_not_lt (a b : Z) :
  match a ?= b with Lt => false | _ => true end = (b <=? a).
Proof.
  destruct (Z.compare_spec a b); symmetry;
    [apply Z.leb_le|apply Z.leb_gt|apply Z.leb_le]; lia.
Qed.

Lemma num_ge_Int_Float (z : Z) (f : float) :
  num_ge (Int z) (Float f) =
  match f with
  | S754_nan => false
  | S754_infinity s => s
  | S754_zero _ => 0 <=? z
  | S754_finite s m e =>
      let v := if s then Z.neg m else Z.pos m in
      if 0 <=? e then v * 2 ^ e <=? z else v <=? z * 2 ^ (- e)
  end.
Proof.
  unfold num_ge, int_cmp_float.
  destruct f as [s|s| |s m e]; try reflexivity.
  - apply cmp_not_lt.
  - now destruct s.
  - cbv zeta. destruct (0 <=? e); apply cmp_not_lt.
Qed.

(** A larger count reaches every threshold that a smaller one reaches. *)
Lemma num_ge_mono (nth : Num) (z z' : Z) :
  num_ge (Int z) nth = true -> z <= z' -> num_ge (Int z') nth = true.
Proof.
  destruct nth as [y|f].
  - simpl. rewrite !Z.leb_le. lia.
  - rewrite !num_ge_Int_Float.
    destruct f as [s|s| |s m e]; auto.
    + rewrite !Z.leb_le. lia.
    + cbv zeta. destruct (0 <=? e) eqn:He; rewrite !Z.leb_le; intros; [lia|].
      apply Z.leb_gt in He.
      assert (0 < 2 ^ (- e)) by (apply Z.pow_pos_nonneg; lia). nia.
Qed.

Lemma is_floor_zero : is_floor (Int 0).
Proof. intros z. simpl. now rewrite Z.leb_le. Qed.

Lemma is_floor_has_sign (f : float) : has_sign false f -> is_floor (Float f).
Proof.
  intros Hs z. rewrite num_ge_Int_Float.
  destruct f as [s|s| |s m e]; simpl in Hs; subst; try discriminate.
  - now rewrite Z.leb_le.
  - cbv zeta. destruct (0 <=? e) eqn:He; rewrite Z.leb_le.
    + apply Z.leb_le in He.
      assert (0 < 2 ^ e) by (apply Z.pow_pos_nonneg; lia). nia.
    + apply Z.leb_gt in He.
      assert (0 < 2 ^ (- e)) by (apply Z.pow_pos_nonneg; lia). nia.
Qed.

(** ** The counter *)

Section CounterFacts.
Variable nth : Num.

(** [subtract] on a counter that starts with another key works on the
    rest. *)
Lemma subtract_cons_ne (k k' : nat) (v' common : Z) (c : Counter.t) :
  Nat.eqb k k' = false ->
  Counter.subtract k common ((k', v') :: c) =
  (k', v') :: Counter.subtract k common c.
Proof.
  intros E. unfold Counter.subtract. cbn [Counter.get Counter.set].
  rewrite E. cbn [Counter.get Counter.del]. rewrite E.
  now destruct (Counter.get k _ =? 0).
Qed.

Lemma subtract_cons_eq (k : nat) (v common : Z) (c : Counter.t) :
  Counter.subtract k common ((k, v) :: c) =
  if v - common =? 0 then c else (k, v - common) :: c.
Proof.
  unfold Counter.subtract. cbn [Counter.get Counter.set].
  rewrite Nat.eqb_refl. cbn [Counter.get Counter.del].
  now rewrite Nat.eqb_refl.
Qed.

Lemma subtract_nil (k : nat) (common : Z) :
  Counter.subtract k common [] =
  if 0 - common =? 0 then [] else [(k, 0 - common)].
Proof.
  unfold Counter.subtract. cbn [Counter.get Counter.set Counter.del].
  now rewrite Nat.eqb_refl.
Qed.

Lemma eligible_cons (k : nat) (v : Z) (c : Counter.t) :
  eligible nth ((k, v) :: c) =
  ((if num_ge (Int v) nth then 1 else 0) + eligible nth c)%nat.
Proof.
  unfold eligible. cbn [List.filter]. unfold reaches at 1. cbn [snd].
  now destruct (num_ge (Int v) nth).
Qed.

(** Subtracting a non-negative count never makes a candidate eligible:
    a present key keeps its place with a smaller count or leaves, an
    absent key comes back with a negative count, below any floor. *)
Lemma eligible_subtract (k : nat) (common : Z) (c : Counter.t) :
  is_floor nth -> 0 <= common ->
  (eligible nth (Counter.subtract k common c) <= eligible nth c)%nat.
Proof.
  intros Hfloor Hc. induction c as [|[k' v'] c IH].
  - rewrite subtract_nil. destruct (0 - common =? 0) eqn:E; [reflexivity|].
    rewrite eligible_cons.
    destruct (num_ge (Int (0 - common)) nth) eqn:G; [|reflexivity].
    apply Hfloor in G. apply Z.eqb_neq in E. lia.
  - destruct (Nat.eqb k k') eqn:E.
    + apply Nat.eqb_eq in E. subst k'. rewrite subtract_cons_eq.
      destruct (v' - common =? 0); rewrite !eligible_cons; [lia|].
      destruct (num_ge (Int (v' - common)) nth) eqn:G; [|lia].
      rewrite (num_ge_mono nth (v' - common) v' G) by lia. lia.
    + rewrite subtract_cons_ne by assumption.
      rewrite !eligible_cons. lia.
Qed.

Lemma keys_subtract (k : nat) (common : Z) (c : Counter.t) (x : nat) :
  In x (Counter.keys (Counter.subtract k common c)) ->
  x = k \/ In x (Counter.keys c).
Proof.
  induction c as [|[k' v'] c IH].
  - rewrite subtract_nil.
    destruct (0 - common =? 0); simpl; intuition congruence.
  - destruct (Nat.eqb k k') eqn:E.
    + apply Nat.eqb_eq in E. subst k'. rewrite subtract_cons_eq.
      destruct (v' - common =? 0); simpl; intuition congruence.
    + rewrite subtract_cons_ne by assumption. simpl. intuition congruence.
Qed.

Lemma NoDup_keys_subtract (k : nat) (common : Z) (c : Counter.t) :
  List.NoDup (Counter.keys c) ->
  List.NoDup (Counter.keys (Counter.subtract k common c)).
Proof.
  induction c as [|[k' v'] c IH]; intros Hnd.
  - rewrite subtract_nil. destruct (0 - common =? 0); simpl;
      [constructor|constructor; [intros []|constructor]].
  - inversion Hnd as [|? ? Hnotin Hnd']; subst.
    destruct (Nat.eqb k k') eqn:E.
    + apply Nat.eqb_eq in E. subst k'. rewrite subtract_cons_eq.
      destruct (v' - common =? 0); [assumption|].
      simpl. now constructor.
    + rewrite subtract_cons_ne by assumption. simpl. constructor.
      * intros Hin. apply keys_subtract in Hin.
        destruct Hin as [->|Hin]; [|contradiction].
        now rewrite Nat.eqb_refl in E.
      * now apply IH.
Qed.

Lemma keys_del (k : nat) (c : Counter.t) (x : nat) :
  In x (Counter.keys (Counter.del k c)) -> In x (Counter.keys c).
Proof.
  induction c as [|[k' v'] c IH]; simpl; [tauto|].
  destruct (Nat.eqb k k'); simpl; tauto.
Qed.

Lemma NoDup_keys_del (k : nat) (c : Counter.t) :
  List.NoDup (Counter.keys c) -> List.NoDup (Counter.keys (Counter.del k c)).
Proof.
  induction c as [|[k' v'] c IH]; intros Hnd; simpl; [constructor|].
  inversion Hnd; subst. destruct (Nat.eqb k k'); [assumption|].
  simpl. constructor; [|now apply IH].
  intros Hin. now apply keys_del in Hin.
Qed.

(** Deleting a candidate that reaches the threshold leaves fewer
    eligible ones. *)
Lemma eligible_del (k : nat) (v : Z) (c : Counter.t) :
  List.NoDup (Counter.keys c) -> In (k, v) c -> num_ge (Int v) nth = true ->
  (eligible nth (Counter.del k c) < eligible nth c)%nat.
Proof.
  induction c as [|[k' v'] c IH]; intros Hnd Hin Hr; [contradiction|].
  inversion Hnd as [|? ? Hnotin Hnd']; subst. cbn [Counter.del].
  destruct (Nat.eqb k k') eqn:E.
  - apply Nat.eqb_eq in E. subst k'. rewrite eligible_cons.
    destruct Hin as [[= ->]|Hin].
    + rewrite Hr. lia.
    + exfalso. apply Hnotin. now apply (in_map fst) in Hin.
  - destruct Hin as [[= -> ->]|Hin]; [now rewrite Nat.eqb_refl in E|].
    specialize (IH Hnd' Hin Hr). rewrite !eligible_cons. lia.
Qed.

End CounterFacts.

(** ** [most_common]: the largest count first, the earliest on ties *)

Lemma filter_head_split {A} (p : A -> bool) (l : list A) (x : A)
    (t : list A) :
  List.filter p l = x :: t ->
  exists pre post, l = pre ++ x :: post
    /\ Forall (fun y => p y = false) pre.
Proof.
  induction l as [|y l IH]; simpl; [discriminate|].
  destruct (p y) eqn:Hy.
  - intros [= -> _]. exists [], l. split; [reflexivity|constructor].
  - intros E. destruct (IH E) as (pre & post & -> & Hpre).
    exists (y :: pre), post. split; [reflexivity|]. now constructor.
Qed.

Lemma most_common_perm (c : Counter.t) :
  Permutation (Counter.most_common c) c.
Proof. apply list_sort_perm. Qed.

Lemma most_common_head (c : Counter.t) (dataset_id : nat) (size : Z)
    (rest : list (nat * Z)) :
  Counter.most_common c = (dataset_id, size) :: rest ->
  exists pre post, c = pre ++ (dataset_id, size) :: post
    /\ Forall (fun kv => snd kv < size) pre
    /\ Forall (fun kv => snd kv <= size) post.
Proof.
  intros Hmc.
  assert (Hmax : forall kv, In kv c -> snd kv <= size).
  { intros kv Hkv.
    apply (Permutation_in _ (Permutation_sym (most_common_perm c))) in Hkv.
    pose proof (list_sort_sorted (fun a b : nat * Z => snd a <? snd b)
                  (fun _ => True)
                  (fun x y _ _ Hxy =>
                     proj2 (Z.ltb_ge _ _)
                       (Z.lt_le_incl _ _ (proj1 (Z.ltb_lt _ _) Hxy)))
                  (fun x y z _ _ _ Hyx Hzy =>
                     proj2 (Z.ltb_ge _ _)
                       (Z.le_trans _ _ _ (proj1 (Z.ltb_ge _ _) Hyx)
                          (proj1 (Z.ltb_ge _ _) Hzy)))
                  true c) as Hsorted.
    unfold Counter.most_common in Hmc, Hkv. rewrite Hmc in Hsorted, Hkv.
    specialize (Hsorted (proj2 (List.Forall_forall _ _) (fun _ _ => I))).
    inversion Hsorted as [|? ? _ Hhd]; subst.
    destruct Hkv as [<-|Hkv]; [simpl; lia|].
    rewrite List.Forall_forall in Hhd. specialize (Hhd kv Hkv).
    cbn [snd] in Hhd. now apply Z.ltb_ge in Hhd. }
  assert (Hstable :
            List.filter (fun kv => snd kv =? size) (Counter.most_common c) =
            List.filter (fun kv : nat * Z => snd kv =? size) c).
  { apply list_sort_filter.
    intros x y _ _ Hx Hy. apply Z.eqb_eq in Hx, Hy. apply Z.ltb_ge. lia. }
  rewrite Hmc in Hstable.
  cbn [List.filter snd] in Hstable. rewrite Z.eqb_refl in Hstable.
  symmetry in Hstable.
  destruct (filter_head_split _ c _ _ Hstable) as (pre & post & -> & Hpre).
  exists pre, post. split; [reflexivity|]. split.
  - rewrite List.Forall_forall in Hpre |- *. intros kv Hkv.
    specialize (Hpre kv Hkv). apply Z.eqb_neq in Hpre.
    assert (snd kv <= size) by (apply Hmax, in_or_app; now left). lia.
  - rewrite List.Forall_forall. intros kv Hkv.
    apply Hmax, in_or_app. right. now right.
Qed.

(** ** One iteration of the greedy loop *)

Section GreedyIteration.
Context `{SketchCapability}.
Variables (self : Index) (query : Signature).
Variables (signatures : list Signature).
Variables (n_threshold_hashes : Num) (threshold : float).

Lemma decrement_counter_outcome (match_ : Signature)
    (items : list (nat * Z)) (c : Counter.t) :
  Forall (fun k => (k < List.length signatures)%nat) (map fst items) ->
  outcome (decrement_counter signatures match_ items c) =
  Returns (subtract_all signatures match_ items c).
Proof.
  revert c. induction items as [|[k v] items IH]; intros c Hk;
    cbn [decrement_counter subtract_all]; [reflexivity|].
  inversion Hk as [|? ? Hlt Hk']; subst. cbn [fst] in Hlt.
  destruct (nth_error signatures k) eqn:E.
  - autorewrite with run. now apply IH.
  - apply nth_error_None in E. lia.
Qed.

Lemma subtract_all_well_keyed (match_ : Signature)
    (items : list (nat * Z)) (c : Counter.t) :
  Forall (fun k => (k < List.length signatures)%nat) (map fst items) ->
  well_keyed signatures c ->
  well_keyed signatures (subtract_all signatures match_ items c).
Proof.
  revert c. induction items as [|[k v] items IH]; intros c Hk Hc;
    cbn [subtract_all]; [assumption|].
  inversion Hk as [|? ? Hlt Hk']; subst. cbn [fst] in Hlt.
  destruct (nth_error signatures k); [|assumption].
  apply IH; [assumption|]. destruct Hc as [Hnd Hb]. split.
  - now apply NoDup_keys_subtract.
  - rewrite List.Forall_forall in Hb |- *. intros x Hx.
    apply keys_subtract in Hx. destruct Hx as [->|Hx]; auto.
Qed.

Hypothesis count_common_nonneg :
  forall a b d, 0 <= mh_count_common a b d.
Hypothesis floor : is_floor n_threshold_hashes.

Lemma eligible_subtract_all (match_ : Signature)
    (items : list (nat * Z)) (c : Counter.t) :
  (eligible n_threshold_hashes (subtract_all signatures match_ items c)
   <= eligible n_threshold_hashes c)%nat.
Proof.
  revert c. induction items as [|[k v] items IH]; intros c;
    cbn [subtract_all]; [reflexivity|].
  destruct (nth_error signatures k); [|reflexivity].
  etransitivity; [apply IH|]. now apply eligible_subtract.
Qed.

(** With a well-keyed, non-empty counter an iteration does not fail:
    it breaks, or it continues with fewer eligible candidates. *)
Lemma greedy_iteration_progress (st : Greedy) :
  well_keyed signatures (counter st) ->
  Counter.nonempty (counter st) = true ->
  exists step,
    outcome (greedy_iteration self query signatures n_threshold_hashes
               threshold st) = Returns step
    /\ match step with
       | Break st' => st' = st
       | Continue st' =>
           well_keyed signatures (counter st')
           /\ (eligible n_threshold_hashes (counter st')
               < eligible n_threshold_hashes (counter st))%nat
       end.
Proof.
  intros [Hnd Hb] Hne. unfold greedy_iteration.
  pose proof (most_common_perm (counter st)) as Hperm.
  destruct (Counter.most_common (counter st)) as [|[dataset_id size] rest]
    eqn:Hmc.
  { apply Permutation_nil in Hperm. rewrite Hperm in Hne. discriminate. }
  assert (Hin : In (dataset_id, size) (counter st))
    by (apply (Permutation_in _ Hperm); now left).
  assert (Hitems : Forall (fun k => (k < List.length signatures)%nat)
                     (map fst ((dataset_id, size) :: rest))).
  { rewrite List.Forall_forall in Hb |- *. intros k Hk. apply Hb.
    unfold Counter.keys.
    eapply Permutation_in; [apply Permutation_map, Hperm|exact Hk]. }
  destruct (num_ge (Int size) n_threshold_hashes) eqn:Hge.
  - destruct (nth_error signatures dataset_id) as [match_|] eqn:E.
    + autorewrite with run.
      rewrite decrement_counter_outcome by assumption.
      autorewrite with run. eexists. split; [reflexivity|].
      cbn [counter]. split.
      * apply subtract_all_well_keyed; [assumption|]. split.
        -- now apply NoDup_keys_del.
        -- rewrite List.Forall_forall in Hb |- *. intros k Hk.
           apply Hb. now apply keys_del in Hk.
      * eapply Nat.le_lt_trans; [apply eligible_subtract_all|].
        now apply (eligible_del _ dataset_id size).
    + apply nth_error_None in E. inversion Hitems; subst. simpl in *. lia.
  - autorewrite with run. eexists. split; reflexivity.
Qed.

(** The loop returns once its bound exceeds the number of eligible
    candidates. *)
Lemma greedy_loop_returns (fuel : nat) (st : Greedy) :
  well_keyed signatures (counter st) ->
  (eligible n_threshold_hashes (counter st) < fuel)%nat ->
  exists rs,
    outcome (greedy_loop fuel self query signatures n_threshold_hashes
               threshold st) = Returns rs.
Proof.
  revert st. induction fuel as [|fuel IH]; intros st Hwk Hlt; [lia|].
  cbn [greedy_loop].
  destruct (Counter.nonempty (counter st)) eqn:Hne; cbn [andb];
    [|eexists; reflexivity].
  destruct (num_ge (match_size st) n_threshold_hashes);
    [|eexists; reflexivity].
  destruct (greedy_iteration_progress st Hwk Hne) as (step & Hstep & Hs).
  rewrite outcome_bind, Hstep. destruct step as [st'|st'].
  - destruct Hs as [Hwk' Hlt']. apply IH; [assumption|lia].
  - eexists; reflexivity.
Qed.

End GreedyIteration.

(** ** [counter_gather] terminates *)

Lemma set_fresh (k : nat) (v : Z) (c : Counter.t) :
  ~ In k (Counter.keys c) -> Counter.set k v c = c ++ [(k, v)].
Proof.
  induction c as [|[k' v'] c IH]; intros Hk; simpl; [reflexivity|].
  destruct (Nat.eqb k k') eqn:E.
  - apply Nat.eqb_eq in E. subst. exfalso. apply Hk. now left.
  - rewrite IH; [reflexivity|]. intros Hin. apply Hk. now right.
Qed.

Lemma eligible_le_length (nth : Num) (c : Counter.t) :
  (eligible nth c <= List.length c)%nat.
Proof. unfold eligible. apply List.filter_length_le. Qed.

Section Termination.
Context `{SketchCapability}.
Variables (self : Index) (query : Signature).

Lemma preload_outcome (sigs : list Signature) (stop : option Exn)
    (acc : list Signature) :
  outcome (for_sigs sigs stop (fun ss l => ret (l ++ [ss])) acc) =
  match stop with
  | None => Returns (acc ++ sigs)
  | Some e => Raises e
  end.
Proof.
  revert acc. induction sigs as [|ss rest IH]; intros acc; cbn [for_sigs].
  - destruct stop; simpl; [reflexivity|]. now rewrite app_nil_r.
  - autorewrite with run. rewrite IH. destruct stop; [reflexivity|].
    now rewrite <- app_assoc.
Qed.

(** Phase 1 gives every dataset index its own entry, in order. *)
Lemma count_shared_outcome (sigs : list Signature) (i : nat)
    (c : Counter.t) :
  List.NoDup (Counter.keys c) ->
  Forall (fun k => (k < i)%nat) (Counter.keys c) ->
  exists c',
    outcome (count_shared query i sigs c) = Returns c'
    /\ List.NoDup (Counter.keys c')
    /\ Forall (fun k => (k < i + List.length sigs)%nat) (Counter.keys c')
    /\ List.length c' = (List.length c + List.length sigs)%nat.
Proof.
  revert i c. induction sigs as [|ss rest IH]; intros i c Hnd Hb;
    cbn [count_shared].
  - exists c. repeat split; auto.
    eapply List.Forall_impl; [|exact Hb]. simpl. intros; lia.
  - autorewrite with run.
    assert (Hfresh : ~ In i (Counter.keys c)).
    { intros Hin. rewrite List.Forall_forall in Hb.
      specialize (Hb i Hin). lia. }
    rewrite (set_fresh i _ c Hfresh).
    destruct (IH (S i)
                (c ++ [(i, mh_count_common (minhash query) (minhash ss)
                              true)]))
      as (c' & Hc' & Hnd' & Hb' & Hlen).
    + unfold Counter.keys. rewrite map_app. simpl.
      apply List.NoDup_app; [assumption| |].
      * constructor; [intros []|constructor].
      * intros x Hx [<-|[]]. contradiction.
    + unfold Counter.keys. rewrite map_app. apply List.Forall_app. split.
      * eapply List.Forall_impl; [|exact Hb]. simpl. intros; lia.
      * repeat constructor.
    + exists c'. repeat split; auto.
      * eapply List.Forall_impl; [|exact Hb']. simpl. intros; lia.
      * rewrite Hlen, length_app. simpl. lia.
Qed.

Hypothesis count_common_nonneg :
  forall a b d, 0 <= mh_count_common a b d.

Lemma decompose_terminates (fuel : nat) (n_threshold_hashes : Num)
    (threshold : float) :
  is_floor n_threshold_hashes ->
  (List.length (fst (signatures self)) < fuel)%nat ->
  outcome (decompose fuel self query n_threshold_hashes threshold)
  <> OutOfFuel.
Proof.
  intros Hfloor Hfuel. unfold decompose, for_signatures.
  destruct (signatures self) as [sigs stop]. cbn [fst snd] in *.
  rewrite outcome_bind, preload_outcome.
  destruct stop; [discriminate|]. cbn [app].
  destruct (count_shared_outcome sigs 0 Counter.empty)
    as (c & Hc & Hnd & Hb & Hlen); [constructor|constructor|].
  rewrite outcome_bind, Hc.
  destruct (greedy_loop_returns self query sigs n_threshold_hashes
              threshold count_common_nonneg Hfloor fuel
              {| counter := c; match_size := n_threshold_hashes;
                 results := [] |}) as [rs Hrs].
  - split; assumption.
  - cbn [counter]. pose proof (eligible_le_length n_threshold_hashes c).
    simpl in Hlen. lia.
  - rewrite outcome_bind, Hrs. discriminate.
Qed.

(** With counts that are not negative, a [threshold_bp] that is not
    negative and a [scaled] that is not negative, [counter_gather] ends
    within one more iteration than there are signatures. *)
Lemma counter_gather_terminates (fuel : nat) (threshold_bp : float) :
  PyFloat.ltb threshold_bp PyFloat.zero = false ->
  0 <= scaled (minhash query) ->
  (List.length (fst (signatures self)) < fuel)%nat ->
  outcome (counter_gather fuel self query threshold_bp) <> OutOfFuel.
Proof.
  intros Hbp Hsc Hfuel. unfold counter_gather, Index_counter_gather.
  destruct (Nat.eqb _ _); [discriminate|].
  destruct (scaled (minhash query) =? 0); [discriminate|].
  destruct (PyFloat.truthy threshold_bp) eqn:Htruthy.
  - rewrite outcome_bind.
    destruct (outcome (float_div_int threshold_bp _))
      as [n| |] eqn:Hn; try discriminate.
    + rewrite outcome_bind.
      destruct (outcome (float_div_int n _)) as [threshold| |] eqn:Ht;
        try discriminate.
      * destruct (PyFloat.gtb threshold PyFloat.one); [discriminate|].
        apply decompose_terminates; [|assumption].
        apply is_floor_has_sign.
        apply float_div_int_returns in Hn.
        destruct Hn as (d & Hd & Hq).
        unfold PyFloat.truediv in Hq.
        destruct d; try discriminate; injection Hq as <-;
          (apply FloatOrder.SFdiv_sign;
           [now apply FloatOrder.not_negative_sign
           |now apply (FloatOrder.of_int_sign _ _ Hsc)]).
      * now apply float_div_int_ends in Ht.
    + now apply float_div_int_ends in Hn.
  - apply decompose_terminates; [apply is_floor_zero|assumption].
Qed.

End Termination.

(** C5. Whatever the index and the query, a list returned by [gather] or
    by [counter_gather] descends by (containment, fingerprint): of two
    results the earlier has the larger containment, or an equal containment
    and a fingerprint that is lexicographically not smaller.  The loop of
    [counter_gather] needs at most one iteration more than there are
    signatures when the common counts, [threshold_bp] and [scaled] are
    not negative. *)
Theorem gather_results_descend `{SketchCapability} (self : Index)
    (query : Signature) (threshold_bp : float) :
  (forall rs,
     outcome (gather self query threshold_bp) = Returns rs ->
     StronglySorted descends rs)
  /\ (forall fuel rs,
        outcome (counter_gather fuel self query threshold_bp) = Returns rs ->
        StronglySorted descends rs)
  /\ (forall fuel,
        (forall a b d, 0 <= mh_count_common a b d) ->
        PyFloat.ltb threshold_bp PyFloat.zero = false ->
        0 <= scaled (minhash query) ->
        (List.length (fst (signatures self)) < fuel)%nat ->
        outcome (counter_gather fuel self query threshold_bp) <> OutOfFuel).
Proof.
  split; [|split].
  - intros rs Hrs.
    destruct (gather_results query threshold_bp self rs Hrs) as (rs0 & -> & H0).
    now apply gather_sort_descends.
  - intros fuel rs Hrs.
    destruct (counter_gather_results self query score_not_nan
                (fun t c m E =>
                   FloatOrder.geb_not_nan c t
                     (proj2 (proj1 (andb_true_iff _ _) E)))
                fuel threshold_bp rs Hrs) as (rs0 & -> & H0).
    now apply gather_sort_descends.
  - intros fuel Hcc Hbp Hsc Hfuel.
    now apply counter_gather_terminates.
Qed.

(** ** The greedy selection *)

Section GreedySelection.
Context `{SketchCapability}.
Variables (self : Index) (query : Signature).
Variables (signatures : list Signature).
Variables (n_threshold_hashes : Num) (threshold : float).

(** C6. In an iteration of the greedy loop (the counter is not empty) the
    candidate looked at, [(dataset_id, size)], has the largest count of
    the counter and is the first with that count in insertion order.
    If [size] is below [n_threshold_hashes] the iteration breaks with an
    empty trace and the loop returns the results gathered so far, no
    exception raised.  Otherwise the iteration selects
    [signatures[dataset_id]]: it continues with [match_size = size] and
    with that signature's result appended when its containment meets the
    threshold. *)
Theorem greedy_selects_first_largest (st : Greedy) :
  Counter.nonempty (counter st) = true ->
  exists dataset_id size pre post,
    counter st = pre ++ (dataset_id, size) :: post
    /\ Forall (fun kv => snd kv < size) pre
    /\ Forall (fun kv => snd kv <= size) post
    /\ (num_ge (Int size) n_threshold_hashes = false ->
          greedy_iteration self query signatures n_threshold_hashes
            threshold st = ([], Returns (Break st))
          /\ forall fuel,
               greedy_loop (S fuel) self query signatures
                 n_threshold_hashes threshold st
               = ([], Returns (results st)))
    /\ (num_ge (Int size) n_threshold_hashes = true ->
          forall match_ step,
            nth_error signatures dataset_id = Some match_ ->
            outcome (greedy_iteration self query signatures
                       n_threshold_hashes threshold st) = Returns step ->
            exists counter',
              step = Continue {| counter := counter';
                                 match_size := Int size;
                                 results := emitted self query threshold st
                                              match_ |}).
Proof.
  intros Hne.
  pose proof (most_common_perm (counter st)) as Hperm.
  destruct (Counter.most_common (counter st)) as [|[dataset_id size] rest]
    eqn:Hmc.
  { apply Permutation_nil in Hperm. rewrite Hperm in Hne. discriminate. }
  destruct (most_common_head _ _ _ _ Hmc) as (pre & post & Hc & Hpre & Hpost).
  exists dataset_id, size, pre, post.
  split; [exact Hc|]. split; [exact Hpre|]. split; [exact Hpost|].
  assert (Hbreak : num_ge (Int size) n_threshold_hashes = false ->
            greedy_iteration self query signatures n_threshold_hashes
              threshold st = ([], Returns (Break st))).
  { intros Hlt. unfold greedy_iteration. now rewrite Hmc, Hlt. }
  split.
  - intros Hlt. split; [now apply Hbreak|].
    intros fuel. cbn [greedy_loop]. rewrite Hne. cbn [andb].
    destruct (num_ge (match_size st) n_threshold_hashes); [|reflexivity].
    now rewrite (Hbreak Hlt).
  - intros Hge match_ step Hnth. unfold greedy_iteration.
    rewrite Hmc, Hge, Hnth. autorewrite with run.
    destruct (outcome (decrement_counter _ _ _ _)) as [c'| |];
      try discriminate.
    autorewrite with run. intros [= <-]. now exists c'.
Qed.

End GreedySelection.

(** ** The counts after one iteration *)

Lemma get_absent (k : nat) (c : Counter.t) :
  ~ In k (Counter.keys c) -> Counter.get k c = 0.
Proof.
  induction c as [|[k' v'] c IH]; intros Hk; simpl; [reflexivity|].
  destruct (Nat.eqb k k') eqn:E.
  - apply Nat.eqb_eq in E. subst. exfalso. apply Hk. now left.
  - apply IH. intros Hin. apply Hk. now right.
Qed.

Lemma get_nonzero_mem (k : nat) (c : Counter.t) :
  Counter.get k c <> 0 -> Counter.mem k c = true.
Proof.
  induction c as [|[k' v'] c IH]; simpl; [congruence|].
  destruct (Nat.eqb k k'); simpl; auto.
Qed.

Lemma get_del (k x : nat) (c : Counter.t) :
  List.NoDup (Counter.keys c) ->
  Counter.get x (Counter.del k c) =
  if Nat.eqb x k then 0 else Counter.get x c.
Proof.
  induction c as [|[k' v'] c IH]; intros Hnd; simpl.
  - now destruct (Nat.eqb x k).
  - inversion Hnd as [|? ? Hnotin Hnd']; subst.
    destruct (Nat.eqb k k') eqn:E.
    + apply Nat.eqb_eq in E. subst k'.
      destruct (Nat.eqb x k) eqn:Ex; [|reflexivity].
      apply Nat.eqb_eq in Ex. subst x. now apply get_absent.
    + simpl. destruct (Nat.eqb x k') eqn:Ex'.
      * apply Nat.eqb_eq in Ex'. subst x.
        rewrite Nat.eqb_sym, E. reflexivity.
      * now apply IH.
Qed.

(** [subtract] changes the count read at its key and no other. *)
Lemma get_subtract (k x : nat) (common : Z) (c : Counter.t) :
  List.NoDup (Counter.keys c) ->
  Counter.get x (Counter.subtract k common c) =
  if Nat.eqb x k then Counter.get k c - common else Counter.get x c.
Proof.
  induction c as [|[k' v'] c IH]; intros Hnd.
  - rewrite subtract_nil. cbn [Counter.get].
    destruct (0 - common =? 0) eqn:E; cbn [Counter.get];
      destruct (Nat.eqb x k); try reflexivity.
    apply Z.eqb_eq in E. lia.
  - inversion Hnd as [|? ? Hnotin Hnd']; subst.
    destruct (Nat.eqb k k') eqn:E.
    + apply Nat.eqb_eq in E. subst k'. rewrite subtract_cons_eq.
      cbn [Counter.get]. rewrite Nat.eqb_refl.
      destruct (v' - common =? 0) eqn:Ez; cbn [Counter.get];
        destruct (Nat.eqb x k) eqn:Ex; try reflexivity.
      apply Nat.eqb_eq in Ex. subst x. apply Z.eqb_eq in Ez.
      rewrite get_absent by assumption. lia.
    + rewrite subtract_cons_ne by assumption. cbn [Counter.get]. rewrite E.
      destruct (Nat.eqb x k') eqn:Ex'.
      * apply Nat.eqb_eq in Ex'. subst x. now rewrite Nat.eqb_sym, E.
      * now apply IH.
Qed.

Section IterationCounts.
Context `{SketchCapability}.
Variables (signatures : list Signature) (match_ : Signature).

(** After the decrement loop over [items] (each key once), the count
    read at a key of [items] is the count before, less the key's common
    count with the match; other counts are as before. *)
Lemma get_subtract_all (items : list (nat * Z)) (c : Counter.t) (x : nat) :
  List.NoDup (map fst items) ->
  Forall (fun k => (k < List.length signatures)%nat) (map fst items) ->
  List.NoDup (Counter.keys c) ->
  Counter.get x (subtract_all signatures match_ items c) =
  match nth_error signatures x with
  | Some ss =>
      if existsb (Nat.eqb x) (map fst items)
      then Counter.get x c
           - mh_count_common (minhash ss) (minhash match_) true
      else Counter.get x c
  | None => Counter.get x c
  end.
Proof.
  revert c. induction items as [|[k v] items IH]; intros c Hnd Hb Hc.
  - simpl. now destruct (nth_error signatures x).
  - cbn [subtract_all map fst existsb].
    inversion Hnd as [|? ? Hnotin Hnd']; subst.
    inversion Hb as [|? ? Hlt Hb']; subst.
    destruct (nth_error signatures k) as [ss|] eqn:Ek;
      [|apply nth_error_None in Ek; lia].
    rewrite IH; auto using NoDup_keys_subtract.
    rewrite get_subtract by assumption.
    destruct (Nat.eqb x k) eqn:Exk.
    + apply Nat.eqb_eq in Exk. subst x. rewrite Ek. cbn [orb].
      destruct (existsb (Nat.eqb k) (map fst items)) eqn:Ex;
        [|reflexivity].
      apply existsb_exists in Ex. destruct Ex as (y & Hy & Ey).
      apply Nat.eqb_eq in Ey. subst y. contradiction.
    + cbn [orb]. reflexivity.
Qed.

End IterationCounts.

Section IterationEffect.
Context `{SketchCapability}.
Variables (self : Index) (query : Signature).
Variables (signatures : list Signature).
Variables (n_threshold_hashes : Num) (threshold : float).

(** The counter after an iteration that selects [dataset_id]: every
    candidate that was in the counter, the selected one included, reads
    its former count (0 for the selected one, which was deleted) less
    its common count with the match.  So the selected candidate is back
    in the counter, with a negative count, unless its sketch has nothing
    in common with itself. *)
Lemma greedy_iteration_counts (st : Greedy) (dataset_id : nat)
    (size : Z) (rest : list (nat * Z)) (match_ : Signature) :
  well_keyed signatures (counter st) ->
  Counter.most_common (counter st) = (dataset_id, size) :: rest ->
  num_ge (Int size) n_threshold_hashes = true ->
  nth_error signatures dataset_id = Some match_ ->
  exists st',
    outcome (greedy_iteration self query signatures n_threshold_hashes
               threshold st) = Returns (Continue st')
    /\ forall k ss,
         In k (Counter.keys (counter st)) ->
         nth_error signatures k = Some ss ->
         Counter.get k (counter st') =
         (if Nat.eqb k dataset_id then 0 else Counter.get k (counter st))
         - mh_count_common (minhash ss) (minhash match_) true.
Proof.
  intros [Hnd Hb] Hmc Hge Hnth.
  pose proof (most_common_perm (counter st)) as Hperm.
  rewrite Hmc in Hperm.
  assert (Hkeys : Permutation (map fst ((dataset_id, size) :: rest))
                    (Counter.keys (counter st)))
    by now apply Permutation_map.
  assert (Hitems : Forall (fun k => (k < List.length signatures)%nat)
                     (map fst ((dataset_id, size) :: rest))).
  { rewrite List.Forall_forall in Hb |- *. intros k Hk. apply Hb.
    eapply Permutation_in; [exact Hkeys|exact Hk]. }
  unfold greedy_iteration. rewrite Hmc, Hge, Hnth. autorewrite with run.
  rewrite decrement_counter_outcome by assumption.
  autorewrite with run. eexists. split; [reflexivity|].
  intros k ss Hk Hss. cbn [counter].
  rewrite get_subtract_all; auto using NoDup_keys_del.
  - rewrite Hss.
    assert (Hex : existsb (Nat.eqb k)
                    (map fst ((dataset_id, size) :: rest)) = true).
    { apply existsb_exists. exists k. split; [|apply Nat.eqb_refl].
      eapply Permutation_in; [apply Permutation_sym, Hkeys|exact Hk]. }
    rewrite Hex. now rewrite get_del.
  - eapply Permutation_NoDup; [apply Permutation_sym, Hkeys|exact Hnd].
Qed.

Lemma chosen_candidate_reenters (st : Greedy) (dataset_id : nat)
    (size : Z) (rest : list (nat * Z)) (match_ : Signature) :
  well_keyed signatures (counter st) ->
  Counter.most_common (counter st) = (dataset_id, size) :: rest ->
  num_ge (Int size) n_threshold_hashes = true ->
  nth_error signatures dataset_id = Some match_ ->
  mh_count_common (minhash match_) (minhash match_) true <> 0 ->
  exists st',
    outcome (greedy_iteration self query signatures n_threshold_hashes
               threshold st) = Returns (Continue st')
    /\ Counter.mem dataset_id (counter st') = true
    /\ Counter.get dataset_id (counter st') =
       - mh_count_common (minhash match_) (minhash match_) true.
Proof.
  intros Hwk Hmc Hge Hnth Hself.
  destruct (greedy_iteration_counts st dataset_id size rest match_
              Hwk Hmc Hge Hnth) as (st' & Hst' & Hcounts).
  exists st'. split; [exact Hst'|].
  assert (Hget : Counter.get dataset_id (counter st') =
                 - mh_count_common (minhash match_) (minhash match_) true).
  { rewrite (Hcounts dataset_id match_); [|
      |exact Hnth].
    - rewrite Nat.eqb_refl. lia.
    - unfold Counter.keys.
      eapply Permutation_in;
        [apply Permutation_map, most_common_perm|].
      rewrite Hmc. now left. }
  split; [|exact Hget].
  apply get_nonzero_mem. rewrite Hget. lia.
Qed.

End IterationEffect.

(** C7, where the code departs from it.  [counter_gather] on
    [LinearIndex([A, B])] with the example query: phase 1 counts 5 hashes
    shared with A and 3 with B; the first iteration selects A, and the
    decrement loop, which runs over the selected candidate too, assigns
    it the count [0 - count_common(A, A) = -5].  The counter after the
    iteration is [{1: 2, 0: -5}]: the selected candidate is still a key,
    the counter is as large as before, and the loop goes on to another
    iteration. *)
Lemma counter_gather_keeps_selected_candidate :
  let cap := ExampleSketch.capability in
  let sigs := [Example.sigA; Example.sigB] in
  let iteration :=
    greedy_iteration (H := cap) Example.index_AB Example.query sigs (Int 0)
      PyFloat.zero in
  outcome (count_shared (H := cap) Example.query 0 sigs Counter.empty)
    = Returns (counter Example.start_AB)
  /\ exists st1 st2,
       outcome (iteration Example.start_AB) = Returns (Continue st1)
       /\ counter st1 = [(1%nat, 2); (0%nat, -5)]
       /\ Counter.mem 0 (counter st1) = true
       /\ List.length (counter st1) = List.length (counter Example.start_AB)
       /\ Counter.nonempty (counter st1) && num_ge (match_size st1) (Int 0)
          = true
       /\ outcome (iteration st1) = Returns (Continue st2)
       /\ counter st2 = [(0%nat, -6); (1%nat, -3)].
Proof.
  split; [reflexivity|].
  do 2 eexists. split; [vm_compute; reflexivity|].
  split; [reflexivity|]. split; [reflexivity|]. split; [reflexivity|].
  split; [reflexivity|]. split; [vm_compute; reflexivity|]. reflexivity.
Qed.

(** ** [MultiIndex]: pooling and provenance *)

Lemma for_zip_pooled (call : Index -> M (list Result))
    (index_list : list Index) (subs : list (list Result)) :
  Forall2 (fun idx sub => outcome (call idx) = Returns sub)
    index_list subs ->
  forall (source_list : list (option string)) (acc : list Result),
    List.length source_list = List.length index_list ->
    outcome (for_zip (fun idx src acc =>
                        sub <- call idx ;; ret (acc ++ retag src sub))
               index_list source_list acc) =
    Returns (acc ++ concat (map (fun p => retag (fst p) (snd p))
                              (combine source_list subs))).
Proof.
  induction 1 as [|idx sub il subs Hidx Hrest IH];
    intros source_list acc Hlen; cbn [for_zip].
  - destruct source_list; [|discriminate]. simpl. now rewrite app_nil_r.
  - destruct source_list as [|src sl]; [discriminate|].
    autorewrite with run. rewrite Hidx. autorewrite with run.
    rewrite IH by (simpl in Hlen; lia). simpl. now rewrite app_assoc.
Qed.

(** What the code does for C8: [MultiIndex.search] and [MultiIndex.gather]
    run the sub-indexes in list order, give every result the source
    [src or filename], and sort the pool as the base algorithms do. *)
Lemma MultiIndex_pools_and_sorts `{SketchCapability}
    (index_list : list Index) (source_list : list (option string))
    (query : Signature) :
  List.length source_list = List.length index_list ->
  (forall threshold do_containment do_max_containment ignore_abundance subs,
     Forall2 (fun idx sub =>
                outcome (search idx query threshold do_containment
                           do_max_containment ignore_abundance)
                = Returns sub) index_list subs ->
     outcome (search (MultiIndex index_list source_list) query threshold
                do_containment do_max_containment ignore_abundance) =
     Returns (list_sort search_key_lt false
                (concat (map (fun p => retag (fst p) (snd p))
                           (combine source_list subs)))))
  /\ (forall threshold_bp subs,
        Forall2 (fun idx sub =>
                   outcome (gather idx query threshold_bp) = Returns sub)
          index_list subs ->
        outcome (gather (MultiIndex index_list source_list) query
                   threshold_bp) =
        Returns (list_sort gather_key_lt true
                   (concat (map (fun p => retag (fst p) (snd p))
                              (combine source_list subs))))).
Proof.
  intros Hlen. split.
  - intros threshold dc dmc ia subs Hsubs. cbn [search].
    rewrite outcome_bind.
    rewrite (for_zip_pooled
               (fun idx => search idx query threshold dc dmc ia)
               index_list subs Hsubs source_list [] Hlen).
    reflexivity.
  - intros threshold_bp subs Hsubs. cbn [gather].
    rewrite outcome_bind.
    rewrite (for_zip_pooled (fun idx => gather idx query threshold_bp)
               index_list subs Hsubs source_list [] Hlen).
    reflexivity.
Qed.

(** C8, where the code departs from it.  A [MultiIndex] over
    [LinearIndex([A, B], filename="db.sig")] whose recorded source for
    that sub-index is the empty string: the source is set (it is not
    [None]), yet [search] and [gather] report the sub-index's own
    "db.sig", because [src or filename] takes [filename] for every false
    [src]. *)
Lemma MultiIndex_empty_source_does_not_override :
  let cap := ExampleSketch.capability in
  let multi := MultiIndex [Example.index_AB] [Some ""] in
  let sources (m : M (list Result)) :=
    match outcome m with
    | Returns rs => Some (map source rs)
    | _ => None
    end in
  sources (search (H := cap) multi Example.query (Some PyFloat.zero)
             false false false)
    = Some [Some "db.sig"; Some "db.sig"]
  /\ sources (gather (H := cap) multi Example.query PyFloat.zero)
     = Some [Some "db.sig"; Some "db.sig"].
Proof. split; vm_compute; reflexivity. Qed.

(** ** [search] on every index *)

Lemma gen_app_exhausted {A} (g1 g2 : Gen A) :
  snd (gen_app g1 g2) = None ->
  snd g1 = None /\ snd g2 = None
  /\ fst (gen_app g1 g2) = fst g1 ++ fst g2.
Proof.
  unfold gen_app. destruct g1 as [l1 [e|]]; simpl; [discriminate|]. auto.
Qed.

(** The tagged enumeration lists the signatures that [signatures()]
    yields, in the same order. *)
Lemma tagged_signatures_enumeration (self : Index) :
  well_formed self -> snd (signatures self) = None ->
  map fst (tagged_signatures self) = fst (signatures self).
Proof.
  induction self as [sigs loc|zf sd tya|index_list source_list IH]
    using Index_nested_ind; intros Hwf Hstop; cbn [tagged_signatures].
  - rewrite map_map. simpl. apply map_id.
  - rewrite map_map. simpl. apply map_id.
  - inversion Hwf as [| |? ? Hlen Hall]; subst. cbn [signatures] in *.
    clear Hwf. revert source_list Hlen Hstop.
    induction IH as [|idx il Hidx _ IHil];
      intros [|src sl] Hlen Hstop; try discriminate; [reflexivity|].
    inversion Hall as [|? ? Hwf_idx Hall']; subst.
    cbn [signatures_each tagged_each] in *.
    apply gen_app_exhausted in Hstop. destruct Hstop as (H1 & H2 & ->).
    rewrite map_app, map_map. cbn [fst].
    rewrite <- (Hidx Hwf_idx H1), (IHil Hall' sl)
      by (simpl in Hlen; lia || auto).
    reflexivity.
Qed.

Section SearchEveryIndex.
Context `{SketchCapability}.
Variables (query : Signature) (threshold : float).
Variables (do_containment do_max_containment ignore_abundance : bool).
Hypothesis flags : do_containment && do_max_containment = false.

Lemma search_hits_app (l1 l2 : list (Signature * option string)) :
  search_hits query threshold do_containment do_max_containment
    ignore_abundance (l1 ++ l2) =
  search_hits query threshold do_containment do_max_containment
    ignore_abundance l1
  ++ search_hits query threshold do_containment do_max_containment
       ignore_abundance l2.
Proof. unfold search_hits. now rewrite List.filter_app, map_app. Qed.

Lemma search_hits_retag (src : option string)
    (l : list (Signature * option string)) :
  search_hits query threshold do_containment do_max_containment
    ignore_abundance (map (fun p => (fst p, str_or src (snd p))) l) =
  retag src (search_hits query threshold do_containment do_max_containment
               ignore_abundance l).
Proof.
  unfold search_hits, retag. rewrite filter_map_comm, !map_map.
  reflexivity.
Qed.

Lemma filter_score_retag (s : float) (src : option string)
    (l : list Result) :
  List.filter (fun r => PyFloat.eqb (score r) s) (retag src l) =
  retag src (List.filter (fun r => PyFloat.eqb (score r) s) l).
Proof. unfold retag. now rewrite filter_map_comm. Qed.

Lemma search_exact_leaf (self : Index) (loc : option string) :
  location self = inr loc ->
  tagged_signatures self = map (fun ss => (ss, loc)) (fst (signatures self)) ->
  search self query (Some threshold) do_containment do_max_containment
    ignore_abundance
  = Index_search self query (Some threshold) do_containment
      do_max_containment ignore_abundance ->
  search_exact query threshold do_containment do_max_containment
    ignore_abundance self.
Proof.
  intros Hloc Htag Hsearch _ Hstop.
  destruct (signatures self) as [sigs stop] eqn:Hsigs.
  cbn [fst snd] in *. subst stop.
  rewrite Hsearch.
  rewrite (Index_search_returns _ _ _ _ _ self loc sigs Hsigs Hloc flags).
  rewrite Htag. eexists. split; [reflexivity|].
  destruct (search_sort
              (search_hits query threshold do_containment do_max_containment
                 ignore_abundance (map (fun ss => (ss, loc)) sigs)))
    as (Hperm & Hsorted & Hstable).
  - eapply List.Forall_impl; [|apply search_hits_reach].
    intros r Hr. exact (FloatOrder.geb_not_nan _ _ Hr).
  - repeat split; assumption.
Qed.

Lemma search_pool (index_list : list Index) :
  Forall (search_exact query threshold do_containment do_max_containment
    ignore_abundance)
    index_list ->
  Forall well_formed index_list ->
  forall (source_list : list (option string)) (acc : list Result),
    List.length index_list = List.length source_list ->
    snd (signatures_each signatures index_list) = None ->
    exists pooled,
      outcome (for_zip
                 (fun idx src acc =>
                    sub <- search idx query (Some threshold) do_containment
                             do_max_containment ignore_abundance ;;
                    ret (acc ++ retag src sub))
                 index_list source_list acc) = Returns (acc ++ pooled)
      /\ Permutation pooled
           (search_hits query threshold do_containment do_max_containment
              ignore_abundance
              (tagged_each tagged_signatures index_list source_list))
      /\ forall s : float,
           List.filter (fun r => PyFloat.eqb (score r) s) pooled =
           List.filter (fun r => PyFloat.eqb (score r) s)
             (search_hits query threshold do_containment do_max_containment
                ignore_abundance
                (tagged_each tagged_signatures index_list source_list)).
Proof.
  induction 1 as [|idx il Hidx _ IH]; intros Hall [|src sl] acc Hlen Hstop;
    try discriminate; cbn [for_zip tagged_each signatures_each] in *.
  - exists []. rewrite app_nil_r. repeat split; auto.
  - inversion Hall as [|? ? Hwf Hall']; subst.
    apply gen_app_exhausted in Hstop. destruct Hstop as (H1 & H2 & _).
    destruct (Hidx Hwf H1) as (sub & Hsub & Hperm & _ & Hstable).
    destruct (IH Hall' sl (acc ++ retag src sub)) as
      (pooled & Hpool & Hperm' & Hstable'); [simpl in Hlen; lia|exact H2|].
    exists (retag src sub ++ pooled).
    rewrite outcome_bind, outcome_bind, Hsub. autorewrite with run.
    rewrite Hpool, <- app_assoc. split; [reflexivity|].
    rewrite search_hits_app, search_hits_retag. split.
    + apply Permutation_app; [|exact Hperm'].
      unfold retag. now apply Permutation_map.
    + intros s. rewrite !List.filter_app, !filter_score_retag.
      now rewrite Hstable, Hstable'.
Qed.

Lemma search_exact_every_index (self : Index) :
  search_exact query threshold do_containment do_max_containment
    ignore_abundance self.
Proof.
  induction self as [sigs loc|zf sd tya|index_list source_list IH]
    using Index_nested_ind.
  - now apply (search_exact_leaf _ loc).
  - now apply (search_exact_leaf _ (zf_filename zf)).
  - intros Hwf Hstop. inversion Hwf as [| |? ? Hlen Hall]; subst.
    destruct (search_pool index_list IH Hall source_list [] Hlen Hstop)
      as (pooled & Hpool & Hperm & Hstable).
    cbn [search]. rewrite outcome_bind, Hpool. autorewrite with run.
    cbn [app]. eexists. split; [reflexivity|].
    destruct (search_sort pooled) as (Hperm' & Hsorted & Hstable').
    + rewrite List.Forall_forall. intros r Hr.
      apply (Permutation_in _ Hperm) in Hr.
      pose proof (search_hits_reach query threshold do_containment
                    do_max_containment ignore_abundance
                    (tagged_signatures (MultiIndex index_list source_list)))
        as Hreach.
      rewrite List.Forall_forall in Hreach.
      exact (FloatOrder.geb_not_nan _ _ (Hreach r Hr)).
    + split; [|split].
      * etransitivity; [exact Hperm'|exact Hperm].
      * exact Hsorted.
      * intros s. now rewrite Hstable', Hstable.
Qed.

(** C1. For every index backend (a [MultiIndex] as its constructor
    asserts it) whose enumeration succeeds, and every threshold:
    [search] returns the signatures of the enumeration whose selected
    score is at least the threshold, no others, each with its score and
    the source the backend reports for it, which is the index's location
    wherever the index has one; the list is non-increasing in score; and
    the results with any one score stand in enumeration order. *)
Theorem search_returns_sorted_matches (self : Index) :
  well_formed self -> snd (signatures self) = None ->
  map fst (tagged_signatures self) = fst (signatures self)
  /\ (forall loc, location self = inr loc ->
        tagged_signatures self
        = map (fun ss => (ss, loc)) (fst (signatures self)))
  /\ exists matches,
       outcome (search self query (Some threshold) do_containment
                  do_max_containment ignore_abundance) = Returns matches
       /\ Permutation matches
            (search_hits query threshold do_containment do_max_containment
               ignore_abundance (tagged_signatures self))
       /\ StronglySorted
            (fun a b => PyFloat.geb (score a) (score b) = true) matches
       /\ forall s : float,
            List.filter (fun r => PyFloat.eqb (score r) s) matches =
            List.filter (fun r => PyFloat.eqb (score r) s)
              (search_hits query threshold do_containment
                 do_max_containment ignore_abundance
                 (tagged_signatures self)).
Proof.
  intros Hwf Hstop.
  split; [now apply tagged_signatures_enumeration|].
  split; [intros loc Hloc; destruct self; try discriminate Hloc;
          injection Hloc as <-; reflexivity|].
  exact (search_exact_every_index self Hwf Hstop).
Qed.

End SearchEveryIndex.

Lemma for_zip_bad_arguments (call : Index -> M (list Result))
    (index_list : list Index) :
  Forall (fun idx =>
            (exists msg, call idx = ([], Raises (TypeError msg)))
            \/ call idx = ([], Returns [])) index_list ->
  forall source_list : list (option string),
    (exists msg,
       for_zip (fun idx src acc =>
                  sub <- call idx ;; ret (acc ++ retag src sub))
         index_list source_list [] = ([], Raises (TypeError msg)))
    \/ for_zip (fun idx src acc =>
                  sub <- call idx ;; ret (acc ++ retag src sub))
         index_list source_list [] = ([], Returns []).
Proof.
  induction 1 as [|idx il Hidx _ IH]; intros [|src sl]; cbn [for_zip];
    try (right; reflexivity).
  destruct Hidx as [[msg Hidx] | Hidx]; rewrite Hidx.
  - left. exists msg. reflexivity.
  - change (@pair (list Event) _ [] (Returns (@nil Result)))
      with (ret (@nil Result)).
    rewrite !bind_ret. change ([] ++ retag src []) with (@nil Result).
    apply IH.
Qed.

(** [search] with bad arguments on every index: nothing is enumerated or
    compared.  A [MultiIndex] only delegates, so it raises as soon as one of
    its sub-indexes runs [Index.search], and returns the empty list when
    there is none. *)
Lemma search_bad_arguments_every_index `{SketchCapability}
    (query : Signature) (threshold : option float)
    (do_containment do_max_containment ignore_abundance : bool)
    (self : Index) :
  threshold = None \/ do_containment && do_max_containment = true ->
  (exists msg,
     search self query threshold do_containment do_max_containment
       ignore_abundance = ([], Raises (TypeError msg)))
  \/ search self query threshold do_containment do_max_containment
       ignore_abundance = ([], Returns []).
Proof.
  intros Hbad.
  assert (Hleaf : forall idx,
            exists msg,
              Index_search idx query threshold do_containment
                do_max_containment ignore_abundance
              = ([], Raises (TypeError msg))).
  { intros idx. unfold Index_search.
    destruct threshold as [t|]; [|eexists; reflexivity].
    destruct Hbad as [Hbad|Hbad]; [discriminate|].
    rewrite Hbad. eexists; reflexivity. }
  induction self as [sigs loc|zf sd tya|index_list source_list IH]
    using Index_nested_ind.
  - left. apply Hleaf.
  - left. apply Hleaf.
  - cbn [search].
    destruct (for_zip_bad_arguments
                (fun idx => search idx query threshold do_containment
                              do_max_containment ignore_abundance)
                index_list IH source_list) as [[msg Hpool] | Hpool];
      rewrite Hpool.
    + left. exists msg. reflexivity.
    + right. reflexivity.
Qed.

(** ** [select] *)

Lemma LinearIndex_init_eq (sigs : list Signature) (loc : option string) :
  LinearIndex_init sigs loc = LinearIndex sigs loc.
Proof. now destruct sigs. Qed.

Lemma select_siglist_keeps (kw : kwargs) (sigs siglist : list Signature) :
  select_siglist sigs kw = inr siglist ->
  Forall (fun ss => select_signature ss kw = inr true) siglist.
Proof.
  revert siglist. induction sigs as [|ss rest IH]; intros siglist; simpl.
  - intros [= <-]. constructor.
  - destruct (select_signature ss kw) as [e|keep] eqn:Hss; [discriminate|].
    destruct (select_siglist rest kw) as [e|l]; [discriminate|].
    intros [= <-]. destruct keep; auto.
Qed.

Lemma select_siglist_fixed (kw : kwargs) (siglist : list Signature) :
  Forall (fun ss => select_signature ss kw = inr true) siglist ->
  select_siglist siglist kw = inr siglist.
Proof.
  induction 1 as [|ss rest Hss Hrest IH]; simpl; [reflexivity|].
  now rewrite Hss, IH.
Qed.

Lemma select_each_fixed (sel : Index -> Exn + Index)
    (index_list : list Index) :
  Forall (fun idx => forall once, sel idx = inr once -> sel once = inr once)
    index_list ->
  forall source_list new_idx_list new_src_list,
    select_each sel index_list source_list
      = inr (new_idx_list, new_src_list) ->
    select_each sel new_idx_list new_src_list
      = inr (new_idx_list, new_src_list)
    /\ List.length new_idx_list = List.length new_src_list.
Proof.
  induction 1 as [|idx il Hidx Hil IH];
    intros source_list new_il new_sl; cbn [select_each].
  - intros [= <- <-]. split; reflexivity.
  - destruct source_list as [|src sl]; [intros [= <- <-]; split; reflexivity|].
    destruct (sel idx) as [e|idx'] eqn:Hsel; [discriminate|].
    destruct (select_each sel il sl) as [e|[il' sl']] eqn:Hrest;
      [discriminate|].
    intros [= <- <-]. destruct (IH sl il' sl' Hrest) as [Hfix Hlen].
    cbn [select_each]. rewrite (Hidx idx' eq_refl), Hfix.
    split; [reflexivity|simpl; now rewrite Hlen].
Qed.

(** An index that [select] returned is returned unchanged by a second
    [select] with the same constraints. *)
Lemma select_fixed (kw : kwargs) (self : Index) :
  forall once, select self kw = inr once -> select once kw = inr once.
Proof.
  induction self as [sigs loc|zf sd tya|index_list source_list IH]
    using Index_nested_ind; intros once; cbn [select].
  - destruct (select_siglist sigs kw) as [e|siglist] eqn:Hsel;
      [discriminate|].
    intros [= <-]. rewrite LinearIndex_init_eq. cbn [select].
    rewrite (select_siglist_fixed kw siglist (select_siglist_keeps _ _ _ Hsel)).
    now rewrite LinearIndex_init_eq.
  - intros [= <-]. reflexivity.
  - destruct (select_each _ index_list source_list) as [e|[il' sl']] eqn:Hsel;
      [discriminate|].
    destruct (select_each_fixed (fun idx => select idx kw) index_list IH
                source_list il' sl' Hsel) as [Hfix Hlen].
    unfold MultiIndex_init.
    apply Nat.eqb_eq in Hlen. rewrite Hlen. intros [= <-].
    cbn [select]. rewrite Hfix. unfold MultiIndex_init. now rewrite Hlen.
Qed.

(** C9. When [select] accepts the constraints, selecting again with the
    same constraints is accepted too, and the index it returns enumerates
    the same multiset of signatures as the index of the first call (and
    ends its enumeration the same way). *)
Theorem select_twice_enumerates_as_once (self : Index) (kw : kwargs)
    (once : Index) :
  select self kw = inr once ->
  exists twice,
    select once kw = inr twice
    /\ Permutation (fst (signatures twice)) (fst (signatures once))
    /\ snd (signatures twice) = snd (signatures once).
Proof.
  intros Hsel. exists once. split; [now apply (select_fixed kw self)|].
  split; reflexivity.
Qed.

(** ** Provenance of the results of a [LinearIndex] *)

Lemma Index_search_sources `{SketchCapability} (self : Index)
    (loc : option string) (query : Signature) (threshold : option float)
    (do_containment do_max_containment ignore_abundance : bool)
    (rs : list Result) :
  location self = inr loc ->
  outcome (Index_search self query threshold do_containment
             do_max_containment ignore_abundance) = Returns rs ->
  Forall (fun r => source r = loc) rs.
Proof.
  intros Hloc. unfold Index_search.
  destruct threshold as [t|]; [|discriminate].
  destruct (do_containment && do_max_containment); [discriminate|].
  unfold for_signatures. destruct (signatures self) as [sigs stop].
  cbn [fst snd]. rewrite outcome_bind.
  pose proof (search_scan query t do_containment do_max_containment
                ignore_abundance self loc sigs stop [] Hloc) as Hscan.
  unfold Result in Hscan |- *. rewrite Hscan.
  destruct stop; [discriminate|]. autorewrite with run. intros [= <-].
  apply (Forall_list_sort search_key_lt false).
  rewrite List.Forall_forall. intros r Hr.
  cbn [app] in Hr. unfold search_hits in Hr.
  apply in_map_iff in Hr. destruct Hr as (p & <- & Hp).
  apply filter_In in Hp. destruct Hp as [Hp _].
  apply in_map_iff in Hp. now destruct Hp as (ss & <- & _).
Qed.

(** C10. On a [LinearIndex] built with any filename, every result of
    [counter_gather] carries the source [None], since the attribute
    [filename] that it reads does not exist, while every result of
    [search] and of [gather] carries the index's location, which is the
    filename the index was built with. *)
Theorem LinearIndex_counter_gather_source_is_None `{SketchCapability}
    (_signatures : list Signature) (filename : option string)
    (query : Signature) :
  let self := LinearIndex_init _signatures filename in
  getattr_source self "filename" = None
  /\ getattr_source self "location" = filename
  /\ location self = inr filename
  /\ (forall fuel threshold_bp rs,
        outcome (counter_gather fuel self query threshold_bp) = Returns rs ->
        Forall (fun r => source r = None) rs)
  /\ (forall threshold_bp rs,
        outcome (gather self query threshold_bp) = Returns rs ->
        Forall (fun r => source r = filename) rs)
  /\ (forall threshold do_containment do_max_containment ignore_abundance rs,
        outcome (search self query threshold do_containment
                   do_max_containment ignore_abundance) = Returns rs ->
        Forall (fun r => source r = filename) rs).
Proof.
  cbv zeta. rewrite LinearIndex_init_eq.
  split; [reflexivity|]. split; [reflexivity|]. split; [reflexivity|].
  split; [|split].
  - intros fuel threshold_bp rs Hrs.
    destruct (counter_gather_results (LinearIndex _signatures filename)
                query (fun r => source r = None)
                (fun _ _ _ _ => eq_refl) fuel threshold_bp rs Hrs)
      as (rs0 & -> & H0).
    now apply Forall_list_sort.
  - intros threshold_bp rs Hrs.
    destruct (Index_gather_results query
                (LinearIndex _signatures filename) filename threshold_bp rs
                eq_refl Hrs) as (rs0 & -> & H0).
    apply Forall_list_sort.
    eapply List.Forall_impl; [|exact H0]. now intros r [_ Hr].
  - intros threshold dc dmc ia rs Hrs.
    exact (Index_search_sources (LinearIndex _signatures filename) filename
             query threshold dc dmc ia rs eq_refl Hrs).
Qed.

(** ** The theorems at the example data *)

(** C4 at [LinearIndex([B, A, C, D], "db.sig")] with
    [threshold_bp = 2000.0]: 2.0 hashes, a containment threshold of 0.25. *)
Lemma gather_threshold_and_matches_witness :
  let cap := ExampleSketch.capability in
  let found :=
    gather_found (H := cap) Example.query Example.quarter (Some "db.sig")
      [Example.sigB; Example.sigA; Example.sigC; Example.sigD] in
  exists results,
    outcome (gather (H := cap) Example.index_BACD Example.query
               Example.bp_2000) = Returns results
    /\ (PyFloat.gtb Example.quarter PyFloat.one = true -> results = [])
    /\ (PyFloat.gtb Example.quarter PyFloat.one = false ->
          results = list_sort (gather_key_lt (H := cap)) true found
          /\ Permutation results found).
Proof.
  refine (gather_threshold_and_matches (H := ExampleSketch.capability)
            Example.index_BACD (Some "db.sig")
            [Example.sigB; Example.sigA; Example.sigC; Example.sigD]
            Example.query eq_refl eq_refl
            Example.bp_2000 Example.two Example.quarter _ _ _ _).
  - simpl. discriminate.
  - simpl. discriminate.
  - vm_compute. reflexivity.
  - vm_compute. reflexivity.
Defined.

(** C5 at [LinearIndex([B, A, C, D], "db.sig")]: [gather] returns A, then
    D before B on the tie at 3/8; [counter_gather] returns A, then D, and
    five iterations are enough for it. *)
Lemma gather_results_descend_witness :
  let cap := ExampleSketch.capability in
  StronglySorted (descends (H := cap))
    [Example.hit Example.five_eighths Example.sigA (Some "db.sig");
     Example.hit Example.three_eighths Example.sigD (Some "db.sig");
     Example.hit Example.three_eighths Example.sigB (Some "db.sig")]
  /\ StronglySorted (descends (H := cap))
       [Example.hit Example.five_eighths Example.sigA None;
        Example.hit Example.three_eighths Example.sigD None]
  /\ outcome (counter_gather (H := cap) 5 Example.index_BACD Example.query
                PyFloat.zero) <> OutOfFuel.
Proof.
  destruct (gather_results_descend (H := ExampleSketch.capability)
              Example.index_BACD Example.query PyFloat.zero)
    as (Hgather & Hcounter & Hends).
  split; [|split].
  - apply Hgather. vm_compute. reflexivity.
  - apply (Hcounter 5%nat). vm_compute. reflexivity.
  - apply Hends.
    + intros a b d. simpl. lia.
    + reflexivity.
    + simpl. lia.
    + simpl. lia.
Defined.

(** C6 at the counter [{0: 3, 1: 3, 2: 0}] of [LinearIndex([B, D, C])]. *)
Lemma greedy_selects_first_largest_witness :
  let cap := ExampleSketch.capability in
  let self := LinearIndex [Example.sigB; Example.sigD; Example.sigC] None in
  let sigs := [Example.sigB; Example.sigD; Example.sigC] in
  let st := Example.start_BDC in
  exists dataset_id size pre post,
    counter st = pre ++ (dataset_id, size) :: post
    /\ Forall (fun kv => snd kv < size) pre
    /\ Forall (fun kv => snd kv <= size) post
    /\ (num_ge (Int size) (Int 0) = false ->
          greedy_iteration (H := cap) self Example.query sigs (Int 0)
            PyFloat.zero st = ([], Returns (Break st))
          /\ forall fuel,
               greedy_loop (H := cap) (S fuel) self Example.query sigs
                 (Int 0) PyFloat.zero st
               = ([], Returns (results st)))
    /\ (num_ge (Int size) (Int 0) = true ->
          forall match_ step,
            nth_error sigs dataset_id = Some match_ ->
            outcome (greedy_iteration (H := cap) self Example.query sigs
                       (Int 0) PyFloat.zero st) = Returns step ->
            exists counter',
              step = Continue {| counter := counter';
                                 match_size := Int size;
                                 results :=
                                   emitted (H := cap) self Example.query
                                     PyFloat.zero st match_ |}).
Proof.
  exact (greedy_selects_first_largest (H := ExampleSketch.capability)
           (LinearIndex [Example.sigB; Example.sigD; Example.sigC] None)
           Example.query [Example.sigB; Example.sigD; Example.sigC]
           (Int 0) PyFloat.zero Example.start_BDC eq_refl).
Defined.

(** C9 at [LinearIndex([B, A, C, D])] with [ksize=31, scaled=1000]. *)
Lemma select_twice_enumerates_as_once_witness :
  let kw : kwargs := <["ksize" := VInt 31]> (<["scaled" := VInt 1000]> ∅) in
  let once :=
    LinearIndex [Example.sigB; Example.sigA; Example.sigC; Example.sigD]
      (Some "db.sig") in
  select Example.index_BACD kw = inr once
  /\ exists twice,
       select once kw = inr twice
       /\ Permutation (fst (signatures twice)) (fst (signatures once))
       /\ snd (signatures twice) = snd (signatures once).
Proof.
  split; [vm_compute; reflexivity|].
  apply (select_twice_enumerates_as_once Example.index_BACD).
  vm_compute. reflexivity.
Defined.

(** C10 at [LinearIndex([A, B], filename="db.sig")]. *)
Lemma LinearIndex_counter_gather_source_is_None_witness :
  let cap := ExampleSketch.capability in
  Forall (fun r => source r = None)
    [Example.hit Example.five_eighths Example.sigA None;
     Example.hit Example.three_eighths Example.sigB None]
  /\ Forall (fun r => source r = Some "db.sig")
       [Example.hit Example.five_eighths Example.sigA (Some "db.sig");
        Example.hit Example.three_eighths Example.sigB (Some "db.sig")].
Proof.
  destruct (LinearIndex_counter_gather_source_is_None
              (H := ExampleSketch.capability)
              [Example.sigA; Example.sigB] (Some "db.sig") Example.query)
    as (_ & _ & _ & Hcounter & Hgather & _).
  split.
  - apply (Hcounter 3%nat PyFloat.zero). vm_compute. reflexivity.
  - apply (Hgather PyFloat.zero). vm_compute. reflexivity.
Defined.

(** C1 at a [MultiIndex] over [LinearIndex([B, A, C, D], "db.sig")], with
    no recorded source, and [LinearIndex([D])], recorded as "extra.sig":
    containment search with threshold 0.0. *)
Lemma search_returns_sorted_matches_witness :
  let cap := ExampleSketch.capability in
  let hits :=
    search_hits (H := cap) Example.query PyFloat.zero true false false
      (tagged_signatures Example.multi) in
  map fst (tagged_signatures Example.multi) = fst (signatures Example.multi)
  /\ (forall loc, location Example.multi = inr loc ->
        tagged_signatures Example.multi
        = map (fun ss => (ss, loc)) (fst (signatures Example.multi)))
  /\ exists matches,
       outcome (search (H := cap) Example.multi Example.query
                  (Some PyFloat.zero) true false false) = Returns matches
       /\ Permutation matches hits
       /\ StronglySorted
            (fun a b => PyFloat.geb (score a) (score b) = true) matches
       /\ forall s : float,
            List.filter (fun r => PyFloat.eqb (score r) s) matches =
            List.filter (fun r => PyFloat.eqb (score r) s) hits.
Proof.
  refine (search_returns_sorted_matches (H := ExampleSketch.capability)
            Example.query PyFloat.zero true false false eq_refl
            Example.multi _ eq_refl).
  constructor; [reflexivity|]. repeat constructor.
Defined.

(** * Further properties of the backends and of the algorithms *)

(** ** [Index.find] *)

Lemma bind_tell {B} (ev : Event) (k : unit -> M B) :
  bind (tell ev) k = (ev :: trace (k tt), outcome (k tt)).
Proof. unfold bind, tell, trace, outcome. now destruct (k tt). Qed.

Lemma find_scan (search_fn : Signature -> bool) (sigs : list Signature)
    (stop : option Exn) (acc : list Signature) :
  for_sigs sigs stop
    (fun node matches =>
       if search_fn node then ret (matches ++ [node]) else ret matches)
    acc
  = (map Enumerated sigs,
     match stop with
     | None => Returns (acc ++ List.filter search_fn sigs)
     | Some e => Raises e
     end).
Proof.
  revert acc. induction sigs as [|ss rest IH]; intros acc; cbn [for_sigs].
  - destruct stop; [reflexivity|]. simpl. now rewrite app_nil_r.
  - rewrite bind_tell. cbn [map List.filter].
    destruct (search_fn ss); rewrite bind_ret, IH; cbn [trace outcome fst snd];
      [|reflexivity].
    destruct stop; [reflexivity|]. now rewrite <- app_assoc.
Qed.

(** X1. [find] hands out every signature of the enumeration once, in
    order, and returns those on which [search_fn] is true, in enumeration
    order; when the enumeration ends in an exception, [find] raises it
    after the signatures yielded before. *)
Theorem find_returns_matches_in_order (self : Index)
    (search_fn : Signature -> bool) :
  trace (find self search_fn) = map Enumerated (fst (signatures self))
  /\ outcome (find self search_fn) =
     match snd (signatures self) with
     | None => Returns (List.filter search_fn (fst (signatures self)))
     | Some e => Raises e
     end.
Proof.
  unfold find, for_signatures. rewrite find_scan. split; reflexivity.
Qed.

(** ** [__len__] *)

Lemma len_each_enumeration (index_list : list Index) :
  Forall (fun idx =>
            len idx = match snd (signatures idx) with
                      | None => inr (List.length (fst (signatures idx)))
                      | Some e => inl e
                      end) index_list ->
  match snd (signatures_each signatures index_list) with
  | None =>
      exists ns,
        len_each len index_list = inr ns
        /\ list_sum ns
           = List.length (fst (signatures_each signatures index_list))
  | Some e => len_each len index_list = inl e
  end.
Proof.
  induction 1 as [|idx il Hidx _ IH]; cbn [signatures_each len_each].
  - exists []. split; reflexivity.
  - rewrite Hidx. unfold gen_app.
    destruct (signatures idx) as [l1 [e|]]; cbn [fst snd]; [reflexivity|].
    destruct (snd (signatures_each signatures il)) as [e|].
    + now rewrite IH.
    + destruct IH as (ns & -> & Hsum). eexists. split; [reflexivity|].
      change (list_sum (List.length l1 :: ns))
        with (List.length l1 + list_sum ns)%nat.
      rewrite length_app. now rewrite Hsum.
Qed.

(** X2. [len(self)] agrees with the enumeration on every backend: it is
    the number of signatures that [signatures()] yields when the
    enumeration runs to its end, and it raises the exception of the
    enumeration when that ends in one. *)
Theorem len_counts_the_enumeration (self : Index) :
  len self = match snd (signatures self) with
             | None => inr (List.length (fst (signatures self)))
             | Some e => inl e
             end.
Proof.
  induction self as [sigs loc|zf sd tya|index_list source_list IH]
    using Index_nested_ind; cbn [len signatures].
  - reflexivity.
  - now destruct (ZipFileLinearIndex_signatures _ _ _) as [l [e|]].
  - pose proof (len_each_enumeration index_list IH) as Heach.
    destruct (snd (signatures_each signatures index_list)) as [e|].
    + now rewrite Heach.
    + destruct Heach as (ns & -> & Hsum). now rewrite Hsum.
Qed.

(** ** [select_signature] and [select] *)


Lemma declared_keywords_run (kw : kwargs) (ss : Signature) :
  declared_keywords kw ->
  select_signature ss kw =
  let ksize_ := kw_get kw "ksize" VNone in
  let moltype_ := kw_get kw "moltype" VNone in
  let scaled_ := kw_get kw "scaled" (VInt 0) in
  let num_ := kw_get kw "num" (VInt 0) in
  let containment_ := kw_get kw "containment" (VBool false) in
  if truthy ksize_ && py_ne ksize_ (VInt (ksize (minhash ss)))
  then inr false
  else if truthy moltype_ && py_ne moltype_ (VStr (moltype (minhash ss)))
  then inr false
  else if truthy containment_ && negb (truthy scaled_)
  then inl (ValueError "'containment' requires 'scaled' in Index.select'")
  else if truthy containment_ && (scaled (minhash ss) =? 0)
  then inr false
  else if truthy scaled_ && negb (num (minhash ss) =? 0)
  then inr false
  else if truthy num_ &&
          (negb (scaled (minhash ss) =? 0)
           || py_ne num_ (VInt (num (minhash ss))))
  then inr false
  else inr true.
Proof.
  intros Hkw. unfold select_signature.
  now rewrite bool_decide_eq_true_2.
Qed.


Lemma truthy_present (kw : kwargs) (key : string) (default : PyVal) :
  truthy default = false ->
  truthy (kw_get kw key default) = true -> kw <> ∅.
Proof.
  intros Hdef Hkey ->. unfold kw_get in Hkey.
  rewrite lookup_empty in Hkey. congruence.
Qed.

(** The loop of [LinearIndex.select] is a filter, unless the predicate
    raises on a signature. *)
Lemma select_siglist_filter (kw : kwargs) (sigs : list Signature) :
  Forall (fun ss => exists keep, select_signature ss kw = inr keep) sigs ->
  select_siglist sigs kw = inr (List.filter (accepts kw) sigs).
Proof.
  induction 1 as [|ss rest [keep Hss] _ IH]; [reflexivity|].
  cbn [select_siglist List.filter]. unfold accepts at 1.
  rewrite Hss, IH. now destruct keep.
Qed.

Lemma select_siglist_returns (kw : kwargs) (sigs siglist : list Signature) :
  select_siglist sigs kw = inr siglist ->
  Forall (fun ss => exists keep, select_signature ss kw = inr keep) sigs
  /\ siglist = List.filter (accepts kw) sigs.
Proof.
  intros Hsel.
  assert (Hall : Forall (fun ss => exists keep,
                           select_signature ss kw = inr keep) sigs).
  { revert siglist Hsel. induction sigs as [|ss rest IH]; intros siglist;
      [constructor|].
    cbn [select_siglist].
    destruct (select_signature ss kw) as [e|keep] eqn:Hss; [discriminate|].
    destruct (select_siglist rest kw) as [e|l]; [discriminate|].
    intros _. constructor; eauto. }
  split; [exact Hall|].
  rewrite (select_siglist_filter kw sigs Hall) in Hsel. congruence.
Qed.

Lemma select_siglist_raises (kw : kwargs) (sigs : list Signature) (e : Exn) :
  select_siglist sigs kw = inl e ->
  exists ss, In ss sigs /\ select_signature ss kw = inl e.
Proof.
  induction sigs as [|ss rest IH]; cbn [select_siglist]; [discriminate|].
  destruct (select_signature ss kw) as [e'|keep] eqn:Hss.
  - intros [= <-]. exists ss. split; [now left|exact Hss].
  - destruct (select_siglist rest kw) as [e'|l]; [|discriminate].
    intros [= <-]. destruct (IH eq_refl) as (ss' & Hin & Hss').
    exists ss'. split; [now right|exact Hss'].
Qed.

(** An archive index whose selection accepts no signature yields none. *)
Lemma zip_member_nothing (kw : kwargs) (loaded : list Signature) :
  kw <> ∅ -> (forall ss, select_signature ss kw <> inr true) ->
  fst (zip_member_signatures (Some kw) loaded) = [].
Proof.
  intros Hkw Hnone. induction loaded as [|ss rest IH]; [reflexivity|].
  cbn [zip_member_signatures dict_truthy].
  rewrite bool_decide_eq_false_2 by exact Hkw. cbn [negb].
  change (default ∅ (Some kw)) with kw.
  destruct (select_signature ss kw) as [e|[|]] eqn:Hss;
    [reflexivity|now apply Hnone in Hss|exact IH].
Qed.

Lemma zip_nothing (kw : kwargs) (members : list ZipInfo)
    (traverse_yield_all : bool) :
  kw <> ∅ -> (forall ss, select_signature ss kw <> inr true) ->
  fst (ZipFileLinearIndex_signatures members (Some kw) traverse_yield_all)
  = [].
Proof.
  intros Hkw Hnone. induction members as [|zipinfo rest IH]; [reflexivity|].
  cbn [ZipFileLinearIndex_signatures].
  destruct (_ || _ || traverse_yield_all); [|exact IH].
  pose proof (zip_member_nothing kw (zi_signatures zipinfo) Hkw Hnone) as Hm.
  unfold gen_app.
  destruct (zip_member_signatures (Some kw) (zi_signatures zipinfo))
    as [l [e|]]; cbn [fst snd] in *; [exact Hm|].
  now rewrite Hm, IH.
Qed.




Lemma select_siglist_nothing (kw : kwargs) (sigs siglist : list Signature) :
  (forall ss, select_signature ss kw <> inr true) ->
  select_siglist sigs kw = inr siglist -> siglist = [].
Proof.
  intros Hnone Hsel. apply select_siglist_returns in Hsel.
  destruct Hsel as [_ ->]. induction sigs as [|ss rest IH]; [reflexivity|].
  cbn [List.filter]. unfold accepts at 1.
  destruct (select_signature ss kw) as [e|[|]] eqn:Hss;
    [exact IH|now apply Hnone in Hss|exact IH].
Qed.

(** X4. [containment] without [scaled]: the predicate accepts no
    signature.  It returns [False] for a signature with another [ksize] or
    [moltype] than requested and raises [ValueError] for every other one,
    so [LinearIndex.select], whose docstring says it does not raise
    [ValueError], raises it exactly when a signature has the requested
    [ksize] and [moltype], and returns an empty index otherwise. *)
Theorem select_containment_requires_scaled (kw : kwargs) :
  declared_keywords kw ->
  truthy (kw_get kw "containment" (VBool false)) = true ->
  truthy (kw_get kw "scaled" (VInt 0)) = false ->
  (forall ss,
     select_signature ss kw =
     if ksize_moltype_match kw ss
     then inl (ValueError "'containment' requires 'scaled' in Index.select'")
     else inr false)
  /\ forall sigs loc,
       select (LinearIndex sigs loc) kw =
       if existsb (ksize_moltype_match kw) sigs
       then inl (ValueError
                   "'containment' requires 'scaled' in Index.select'")
       else inr (LinearIndex [] loc).
Proof.
  intros Hkw Hcont Hscaled.
  assert (Hss : forall ss,
            select_signature ss kw =
            if ksize_moltype_match kw ss
            then inl (ValueError
                        "'containment' requires 'scaled' in Index.select'")
            else inr false).
  { intros ss. rewrite (declared_keywords_run kw ss Hkw). cbv zeta.
    unfold ksize_moltype_match. rewrite Hcont, Hscaled.
    destruct (truthy (kw_get kw "ksize" VNone) && _); [reflexivity|].
    destruct (truthy (kw_get kw "moltype" VNone) && _); reflexivity. }
  split; [exact Hss|].
  intros sigs loc. cbn [select].
  induction sigs as [|ss rest IH]; [reflexivity|].
  cbn [select_siglist existsb]. rewrite Hss.
  destruct (ksize_moltype_match kw ss); [reflexivity|]. cbn [orb].
  destruct (select_siglist rest kw) as [e|siglist];
    destruct (existsb (ksize_moltype_match kw) rest);
    try discriminate; try exact IH.
Qed.

(** X5. [scaled] and [num] requested together select nothing: the
    predicate never returns [True], so a [LinearIndex.select] that returns
    gives an empty index, and the [ZipFileLinearIndex] selected this way
    yields no signature. *)
Theorem select_scaled_with_num_selects_nothing (kw : kwargs) :
  truthy (kw_get kw "scaled" (VInt 0)) = true ->
  truthy (kw_get kw "num" (VInt 0)) = true ->
  (forall ss, select_signature ss kw <> inr true)
  /\ (forall sigs loc selected,
        select (LinearIndex sigs loc) kw = inr selected ->
        selected = LinearIndex [] loc)
  /\ forall zf sd tya selected,
       select (ZipFileLinearIndex zf sd tya) kw = inr selected ->
       fst (signatures selected) = [].
Proof.
  intros Hscaled Hnum.
  assert (Hnone : forall ss, select_signature ss kw <> inr true).
  { intros ss. unfold select_signature. rewrite Hscaled, Hnum.
    repeat match goal with
           | |- context [if ?b then _ else _] =>
               let E := fresh "E" in destruct b eqn:E
           end; try discriminate.
    exfalso. cbn [andb] in *. apply negb_false_iff in E4.
    apply Z.eqb_eq in E4. rewrite E4 in E5.
    apply orb_false_iff in E5. destruct E5 as [_ E5].
    unfold py_ne in E5. apply negb_false_iff in E5.
    destruct (kw_get kw "num" (VInt 0)) as [|[|]|z|s]; cbn in *;
      try discriminate.
    rewrite E5 in Hnum. discriminate. }
  split; [exact Hnone|]. split.
  - intros sigs loc selected. cbn [select].
    destruct (select_siglist sigs kw) as [e|siglist] eqn:Hsel;
      [discriminate|].
    rewrite (select_siglist_nothing kw sigs siglist Hnone Hsel).
    now intros [= <-].
  - intros zf sd tya selected [= <-]. cbn [signatures].
    apply zip_nothing; [|exact Hnone].
    now apply (truthy_present kw "scaled" (VInt 0)).
Qed.

Lemma kw_get_falsy (kw : kwargs) (key : string) (default : PyVal) :
  (forall k v, kw !! k = Some v -> truthy v = false) ->
  truthy default = false ->
  truthy (kw_get kw key default) = false.
Proof.
  intros Hkw Hdef. unfold kw_get.
  destruct (kw !! key) as [v|] eqn:Hv; [exact (Hkw key v Hv)|exact Hdef].
Qed.

Lemma zip_member_unselected (sd : option kwargs) (loaded : list Signature) :
  (forall kw ss, sd = Some kw -> kw <> ∅ -> select_signature ss kw = inr true) ->
  zip_member_signatures sd loaded = (loaded, None).
Proof.
  intros Hsd. induction loaded as [|ss rest IH]; [reflexivity|].
  cbn [zip_member_signatures].
  destruct (dict_truthy sd) eqn:Htruthy.
  - destruct sd as [kw|]; [|discriminate].
    change (default ∅ (Some kw)) with kw.
    rewrite (Hsd kw ss eq_refl).
    + now rewrite IH.
    + intros ->. cbn in Htruthy. discriminate.
  - now rewrite IH.
Qed.

Lemma zip_unselected (sd : option kwargs) (zf : ZipFile)
    (traverse_yield_all : bool) :
  (forall kw ss, sd = Some kw -> kw <> ∅ -> select_signature ss kw = inr true) ->
  ZipFileLinearIndex_signatures (infolist zf) sd traverse_yield_all
  = (archive_signatures zf traverse_yield_all, None).
Proof.
  intros Hsd. unfold archive_signatures.
  induction (infolist zf) as [|zipinfo rest IH]; [reflexivity|].
  cbn [ZipFileLinearIndex_signatures List.filter].
  unfold member_is_loaded at 1.
  destruct (_ || _ || traverse_yield_all); [|exact IH].
  rewrite (zip_member_unselected sd _ Hsd), IH. reflexivity.
Qed.

(** X6. Constraints that are all false ([None], [0], [False], the empty
    string) constrain nothing: the predicate accepts every signature,
    [LinearIndex.select] returns an index with the same signatures and
    location, and the [ZipFileLinearIndex] that [select] returns yields
    every signature of the members it loads, whatever selection the index
    had before. *)
Theorem select_false_constraints_keep_all (kw : kwargs) :
  declared_keywords kw ->
  (forall k v, kw !! k = Some v -> truthy v = false) ->
  (forall ss, select_signature ss kw = inr true)
  /\ (forall sigs loc,
        select (LinearIndex sigs loc) kw = inr (LinearIndex sigs loc))
  /\ forall zf sd tya,
       exists selected,
         select (ZipFileLinearIndex zf sd tya) kw = inr selected
         /\ signatures selected = (archive_signatures zf tya, None).
Proof.
  intros Hkw Hfalse.
  assert (Hall : forall ss, select_signature ss kw = inr true).
  { intros ss. rewrite (declared_keywords_run kw ss Hkw). cbv zeta.
    now rewrite !(kw_get_falsy kw _ _ Hfalse) by reflexivity. }
  split; [exact Hall|]. split.
  - intros sigs loc. cbn [select].
    rewrite (select_siglist_fixed kw sigs).
    + now rewrite LinearIndex_init_eq.
    + rewrite List.Forall_forall. intros ss _. apply Hall.
  - intros zf sd tya. eexists. split; [reflexivity|]. cbn [signatures].
    apply zip_unselected. intros kw' ss [= <-] _. apply Hall.
Qed.

Lemma filter_accepts_filter (kw1 kw2 : kwargs) (sigs : list Signature) :
  List.filter (accepts kw2) (List.filter (accepts kw1) sigs)
  = List.filter (fun ss => accepts kw1 ss && accepts kw2 ss) sigs.
Proof.
  induction sigs as [|ss rest IH]; [reflexivity|]. cbn [List.filter].
  destruct (accepts kw1 ss); cbn [List.filter andb]; [|exact IH].
  destruct (accepts kw2 ss); now rewrite IH.
Qed.

Lemma Forall_filter_weaken {A} (P : A -> Prop) (p : A -> bool)
    (l : list A) :
  Forall P l -> Forall P (List.filter p l).
Proof.
  rewrite !List.Forall_forall. intros HP x Hx. apply HP.
  now apply filter_In in Hx.
Qed.

(** X7. Selections of a [LinearIndex] accumulate and commute: selecting
    with [kw1] and then with [kw2] gives the index of the signatures that
    both predicates accept, in their order, with the location kept; and
    when the selection with [kw2] alone returns as well, selecting in the
    other order returns the same index. *)
Theorem LinearIndex_select_accumulates (sigs : list Signature)
    (loc : option string) (kw1 kw2 : kwargs) (once twice : Index) :
  select (LinearIndex sigs loc) kw1 = inr once ->
  select once kw2 = inr twice ->
  twice = LinearIndex
            (List.filter (fun ss => accepts kw1 ss && accepts kw2 ss) sigs)
            loc
  /\ forall other,
       select (LinearIndex sigs loc) kw2 = inr other ->
       select other kw1 = inr twice.
Proof.
  cbn [select].
  destruct (select_siglist sigs kw1) as [e|l1] eqn:H1; [discriminate|].
  rewrite LinearIndex_init_eq. intros [= <-]. cbn [select].
  destruct (select_siglist l1 kw2) as [e|l12] eqn:H12; [discriminate|].
  rewrite LinearIndex_init_eq. intros [= <-].
  apply select_siglist_returns in H1. destruct H1 as [Hall1 ->].
  apply select_siglist_returns in H12. destruct H12 as [_ ->].
  rewrite filter_accepts_filter. split; [reflexivity|].
  intros other.
  destruct (select_siglist sigs kw2) as [e|l2] eqn:H2; [discriminate|].
  rewrite LinearIndex_init_eq. intros [= <-]. cbn [select].
  apply select_siglist_returns in H2. destruct H2 as [_ ->].
  rewrite (select_siglist_filter kw1)
    by (now apply Forall_filter_weaken).
  rewrite LinearIndex_init_eq, filter_accepts_filter.
  apply (f_equal (fun l => @inr Exn Index (LinearIndex l loc))).
  apply List.filter_ext. intros ss. apply andb_comm.
Qed.

Lemma select_each_shape (sel : Index -> Exn + Index) (P : Exn -> Prop)
    (index_list : list Index) :
  Forall (fun idx =>
            (forall e, sel idx = inl e -> P e)
            /\ forall idx', sel idx = inr idx' -> well_formed idx')
    index_list ->
  forall source_list,
    (forall e, select_each sel index_list source_list = inl e -> P e)
    /\ forall new_idx_list new_src_list,
         select_each sel index_list source_list
           = inr (new_idx_list, new_src_list) ->
         List.length new_idx_list = List.length new_src_list
         /\ Forall well_formed new_idx_list
         /\ (List.length index_list = List.length source_list ->
               new_src_list = source_list
               /\ Forall2 (fun idx idx' => sel idx = inr idx')
                    index_list new_idx_list).
Proof.
  induction 1 as [|idx il [Herr Hwf] _ IH]; intros [|src sl];
    cbn [select_each]; try (split; [discriminate|]);
    try (intros ? ? [= <- <-]; repeat split; try constructor;
         intros; discriminate || constructor).
  destruct (sel idx) as [e|idx'] eqn:Hsel.
  { split; [|discriminate]. intros e' [= <-]. now apply Herr. }
  destruct (IH sl) as [IHerr IHok].
  destruct (select_each sel il sl) as [e|[il' sl']] eqn:Hrest.
  { split; [|discriminate]. intros e' [= <-]. now apply IHerr. }
  split; [discriminate|]. intros new_il new_sl [= <- <-].
  destruct (IHok il' sl' eq_refl) as (Hlen & Hall & Hsame).
  split; [simpl; now rewrite Hlen|]. split; [constructor; auto|].
  intros Hlen'. destruct Hsame as [-> Hsel']; [simpl in Hlen'; lia|].
  split; [reflexivity|]. now constructor.
Qed.

Lemma select_shape (kw : kwargs) (self : Index) :
  (forall e, select self kw = inl e ->
     exists ss, select_signature ss kw = inl e)
  /\ forall selected, select self kw = inr selected -> well_formed selected.
Proof.
  induction self as [sigs loc|zf sd tya|index_list source_list IH]
    using Index_nested_ind; cbn [select].
  - destruct (select_siglist sigs kw) as [e|siglist] eqn:Hsel.
    + split; [|discriminate]. intros e' [= <-].
      destruct (select_siglist_raises kw sigs e Hsel) as (ss & _ & Hss).
      now exists ss.
    + split; [discriminate|]. intros selected [= <-].
      rewrite LinearIndex_init_eq. constructor.
  - split; [discriminate|]. intros selected [= <-]. constructor.
  - destruct (select_each_shape (fun idx => select idx kw)
                (fun e => exists ss, select_signature ss kw = inl e)
                index_list IH source_list) as [Herr Hok].
    destruct (select_each _ index_list source_list) as [e|[il' sl']].
    + split; [|discriminate]. intros e' [= <-]. now apply Herr.
    + destruct (Hok il' sl' eq_refl) as (Hlen & Hall & _).
      unfold MultiIndex_init. apply Nat.eqb_eq in Hlen. rewrite Hlen.
      split; [discriminate|]. intros selected [= <-].
      apply Nat.eqb_eq in Hlen. now constructor.
Qed.


(** ** [ZipFileLinearIndex]: what it enumerates *)

Lemma select_siglist_app (kw : kwargs) (l1 l2 : list Signature) :
  select_siglist (l1 ++ l2) kw =
  match select_siglist l1 kw with
  | inl e => inl e
  | inr a =>
      match select_siglist l2 kw with
      | inl e => inl e
      | inr b => inr (a ++ b)
      end
  end.
Proof.
  induction l1 as [|ss rest IH]; cbn [app select_siglist].
  - now destruct (select_siglist l2 kw).
  - destruct (select_signature ss kw) as [e|keep]; [reflexivity|].
    rewrite IH. destruct (select_siglist rest kw) as [e|a]; [reflexivity|].
    destruct (select_siglist l2 kw) as [e|b]; [reflexivity|].
    now destruct keep.
Qed.

Lemma zip_member_selected (kw : kwargs) (loaded : list Signature) :
  kw <> ∅ ->
  match select_siglist loaded kw with
  | inr siglist => zip_member_signatures (Some kw) loaded = (siglist, None)
  | inl e => snd (zip_member_signatures (Some kw) loaded) = Some e
  end.
Proof.
  intros Hkw. induction loaded as [|ss rest IH]; [reflexivity|].
  cbn [select_siglist zip_member_signatures dict_truthy].
  rewrite bool_decide_eq_false_2 by exact Hkw. cbn [negb].
  change (default ∅ (Some kw)) with kw.
  destruct (select_signature ss kw) as [e|keep]; [reflexivity|].
  destruct (select_siglist rest kw) as [e|siglist].
  - destruct keep; [cbn [gen_cons snd]|]; exact IH.
  - rewrite IH. now destruct keep.
Qed.

Lemma zip_selected (kw : kwargs) (zf : ZipFile) (traverse_yield_all : bool) :
  kw <> ∅ ->
  match select_siglist (archive_signatures zf traverse_yield_all) kw with
  | inr siglist =>
      ZipFileLinearIndex_signatures (infolist zf) (Some kw)
        traverse_yield_all = (siglist, None)
  | inl e =>
      snd (ZipFileLinearIndex_signatures (infolist zf) (Some kw)
             traverse_yield_all) = Some e
  end.
Proof.
  intros Hkw. unfold archive_signatures.
  induction (infolist zf) as [|zipinfo rest IH]; [reflexivity|].
  cbn [ZipFileLinearIndex_signatures List.filter].
  unfold member_is_loaded at 1.
  destruct (_ || _ || traverse_yield_all); [|exact IH].
  cbn [flat_map]. rewrite select_siglist_app.
  pose proof (zip_member_selected kw (zi_signatures zipinfo) Hkw) as Hm.
  unfold gen_app.
  destruct (select_siglist (zi_signatures zipinfo) kw) as [e|a].
  - now rewrite Hm.
  - rewrite Hm. cbn [fst snd].
    destruct (select_siglist (flat_map _ _) kw) as [e|b].
    + exact IH.
    + now rewrite IH.
Qed.

Lemma select_signature_no_keywords (ss : Signature) :
  select_signature ss ∅ = inr true.
Proof.
  rewrite declared_keywords_run; [reflexivity|].
  unfold declared_keywords. rewrite dom_empty_L. apply empty_subseteq.
Qed.

(** X9. A [ZipFileLinearIndex] selects lazily what a [LinearIndex]
    selects eagerly.  Without a selection it yields the signatures of the
    members whose name ends in [.sig] or [.sig.gz] (of all members with
    [traverse_yield_all]), member by member.  After [select], whatever
    selection it had before, it yields what [LinearIndex.select] keeps of
    those signatures; and where [LinearIndex.select] raises, [select] on
    the archive returns and the enumeration of the index it returns ends
    in that exception. *)
Theorem ZipFileLinearIndex_selects_lazily (zf : ZipFile)
    (sd : option kwargs) (tya : bool) (kw : kwargs) (loc : option string) :
  signatures (ZipFileLinearIndex zf None tya)
  = (archive_signatures zf tya, None)
  /\ exists selected,
       select (ZipFileLinearIndex zf sd tya) kw = inr selected
       /\ match select (LinearIndex (archive_signatures zf tya) loc) kw with
          | inr eager => signatures selected = signatures eager
          | inl e => snd (signatures selected) = Some e
          end.
Proof.
  split.
  - cbn [signatures]. apply zip_unselected. discriminate.
  - eexists. split; [reflexivity|]. cbn [select signatures].
    destruct (decide (kw = ∅)) as [->|Hkw].
    + rewrite select_siglist_fixed
        by (rewrite List.Forall_forall; intros ss _;
            apply select_signature_no_keywords).
      rewrite LinearIndex_init_eq. cbn [signatures].
      apply zip_unselected. now intros kw ss [= <-] [].
    + pose proof (zip_selected kw zf tya Hkw) as Hz.
      destruct (select_siglist (archive_signatures zf tya) kw) as [e|l];
        [exact Hz|].
      rewrite LinearIndex_init_eq. exact Hz.
Qed.

(** ** [LinearIndex.insert] *)

(** X10. Inserting into a [LinearIndex] and then selecting is selecting
    and then inserting, when the new signature passes the selection; it
    is the selection alone when the signature does not pass; and it raises
    what the predicate raises on the new signature. *)
Theorem insert_then_select (sigs : list Signature) (loc : option string)
    (node : Signature) (kw : kwargs) (selected : Index) :
  select (LinearIndex sigs loc) kw = inr selected ->
  exists inserted,
    Index_insert (LinearIndex sigs loc) node = inr inserted
    /\ select inserted kw =
       match select_signature node kw with
       | inl e => inl e
       | inr true => Index_insert selected node
       | inr false => inr selected
       end.
Proof.
  cbn [select].
  destruct (select_siglist sigs kw) as [e|siglist] eqn:Hsel; [discriminate|].
  rewrite LinearIndex_init_eq. intros [= <-].
  eexists. split; [reflexivity|]. cbn [select].
  rewrite select_siglist_app, Hsel. cbn [select_siglist].
  destruct (select_signature node kw) as [e|[|]]; [reflexivity| |].
  - now rewrite LinearIndex_init_eq.
  - now rewrite app_nil_r, LinearIndex_init_eq.
Qed.

(** X11. [search] after an insertion: the index has one signature more,
    and [search] returns the matches it returned before together with the
    new signature when that scores at least the threshold; the list is
    again non-increasing in score, and among the results with one score
    the former ones keep their order and the new one comes last. *)
Theorem insert_then_search `{SketchCapability} (sigs : list Signature)
    (loc : option string) (node query : Signature) (threshold : float)
    (do_containment do_max_containment ignore_abundance : bool) :
  do_containment && do_max_containment = false ->
  let new_hits :=
    search_hits query threshold do_containment do_max_containment
      ignore_abundance [(node, loc)] in
  exists inserted before after,
    Index_insert (LinearIndex sigs loc) node = inr inserted
    /\ len inserted = inr (S (List.length sigs))
    /\ outcome (search (LinearIndex sigs loc) query (Some threshold)
                  do_containment do_max_containment ignore_abundance)
       = Returns before
    /\ outcome (search inserted query (Some threshold) do_containment
                  do_max_containment ignore_abundance) = Returns after
    /\ Permutation after (before ++ new_hits)
    /\ StronglySorted (fun a b => PyFloat.geb (score a) (score b) = true)
         after
    /\ forall s : float,
         List.filter (fun r => PyFloat.eqb (score r) s) after =
         List.filter (fun r => PyFloat.eqb (score r) s) (before ++ new_hits).
Proof.
  intros Hflags new_hits.
  set (hits l := search_hits query threshold do_containment
                   do_max_containment ignore_abundance
                   (map (fun ss => (ss, loc)) l)).
  assert (Hnan : forall l, Forall score_not_nan (hits l)).
  { intros l. eapply List.Forall_impl; [|apply search_hits_reach].
    intros r Hr. exact (FloatOrder.geb_not_nan _ _ Hr). }
  exists (LinearIndex (sigs ++ [node]) loc),
         (list_sort search_key_lt false (hits sigs)),
         (list_sort search_key_lt false (hits (sigs ++ [node]))).
  split; [reflexivity|].
  split; [cbn [len]; rewrite length_app, Nat.add_1_r; reflexivity|].
  split; [now apply Index_search_returns|].
  split; [now apply Index_search_returns|].
  destruct (search_sort (hits sigs) (Hnan sigs)) as (Hp1 & _ & Hst1).
  destruct (search_sort (hits (sigs ++ [node])) (Hnan _))
    as (Hp2 & Hsorted & Hst2).
  assert (Happ : hits (sigs ++ [node]) = hits sigs ++ new_hits).
  { unfold hits, new_hits. now rewrite map_app, search_hits_app. }
  split; [|split; [exact Hsorted|]].
  - rewrite Hp2, Happ. apply Permutation_app_tail. now symmetry.
  - intros s. rewrite Hst2, Happ, !List.filter_app. now rewrite Hst1.
Qed.

(** ** [MultiIndex.signatures_with_location] *)

Lemma signatures_with_location_each (index_list : list Index) :
  forall source_list,
    List.length index_list = List.length source_list ->
    map fst (fst (MultiIndex_signatures_with_location index_list
                    source_list))
    = fst (signatures_each signatures index_list)
    /\ snd (MultiIndex_signatures_with_location index_list source_list)
       = snd (signatures_each signatures index_list)
    /\ Forall (fun p => In (snd p) source_list)
         (fst (MultiIndex_signatures_with_location index_list source_list)).
Proof.
  induction index_list as [|idx il IH]; intros [|src sl] Hlen;
    try discriminate;
    cbn [MultiIndex_signatures_with_location signatures_each].
  - repeat split. constructor.
  - destruct (IH sl) as (Hfst & Hsnd & Hin); [simpl in Hlen; lia|].
    unfold gen_app, gen_map.
    destruct (signatures idx) as [l [e|]]; cbn [fst snd].
    + rewrite map_map. cbn [fst]. rewrite map_id. repeat split.
      rewrite List.Forall_forall. intros p Hp. apply in_map_iff in Hp.
      destruct Hp as (ss & <- & _). now left.
    + rewrite map_app, map_map. cbn [fst]. rewrite map_id, Hfst.
      repeat split; [exact Hsnd|].
      apply List.Forall_app. split.
      * rewrite List.Forall_forall. intros p Hp. apply in_map_iff in Hp.
        destruct Hp as (ss & <- & _). now left.
      * eapply List.Forall_impl; [|exact Hin]. intros p Hp. now right.
Qed.

(** X12. On a [MultiIndex] built as its constructor asserts,
    [signatures_with_location] yields the signatures that [signatures]
    yields, in the same order and ending the same way, each paired with a
    source of the source list. *)
Theorem signatures_with_location_enumerates (index_list : list Index)
    (source_list : list (option string)) :
  List.length index_list = List.length source_list ->
  let located :=
    MultiIndex_signatures_with_location index_list source_list in
  map fst (fst located)
  = fst (signatures (MultiIndex index_list source_list))
  /\ snd located = snd (signatures (MultiIndex index_list source_list))
  /\ Forall (fun p => In (snd p) source_list) (fst located).
Proof.
  intros Hlen. exact (signatures_with_location_each index_list source_list Hlen).
Qed.

Lemma tagged_with_recorded_sources (index_list : list Index) :
  Forall well_formed index_list ->
  forall source_list,
    List.length index_list = List.length source_list ->
    snd (signatures_each signatures index_list) = None ->
    Forall (fun src => str_truthy src = true) source_list ->
    tagged_each tagged_signatures index_list source_list
    = fst (MultiIndex_signatures_with_location index_list source_list).
Proof.
  induction 1 as [|idx il Hwf _ IH]; intros [|src sl] Hlen Hstop Hsrc;
    try discriminate; [reflexivity|].
  cbn [tagged_each MultiIndex_signatures_with_location signatures_each] in *.
  apply gen_app_exhausted in Hstop. destruct Hstop as (H1 & H2 & _).
  inversion Hsrc as [|? ? Hsrc1 Hsrc2]; subst.
  rewrite (IH sl) by (simpl in Hlen; lia || assumption).
  unfold gen_app, gen_map. cbn [fst snd]. rewrite H1. cbn [fst].
  apply (f_equal (fun l => l ++ _)).
  rewrite <- (tagged_signatures_enumeration idx Hwf H1), map_map.
  apply map_ext. intros p. cbn [fst]. unfold str_or. now rewrite Hsrc1.
Qed.

(** X13. When every recorded source of a [MultiIndex] is a non-empty
    string, [search] reports for each match the source that
    [signatures_with_location] pairs with the signature: the results are
    the pairs of that enumeration whose score is at least the threshold,
    each with its score. *)
Theorem search_reports_recorded_sources `{SketchCapability}
    (index_list : list Index) (source_list : list (option string))
    (query : Signature) (threshold : float)
    (do_containment do_max_containment ignore_abundance : bool) :
  well_formed (MultiIndex index_list source_list) ->
  snd (signatures (MultiIndex index_list source_list)) = None ->
  Forall (fun src => str_truthy src = true) source_list ->
  do_containment && do_max_containment = false ->
  exists matches,
    outcome (search (MultiIndex index_list source_list) query
               (Some threshold) do_containment do_max_containment
               ignore_abundance) = Returns matches
    /\ Permutation matches
         (search_hits query threshold do_containment do_max_containment
            ignore_abundance
            (fst (MultiIndex_signatures_with_location index_list
                    source_list))).
Proof.
  intros Hwf Hstop Hsrc Hflags.
  destruct (search_exact_every_index query threshold do_containment
              do_max_containment ignore_abundance Hflags
              (MultiIndex index_list source_list) Hwf Hstop)
    as (matches & Hret & Hperm & _).
  exists matches. split; [exact Hret|].
  inversion Hwf as [| |? ? Hlen Hall]; subst.
  cbn [tagged_signatures] in Hperm.
  now rewrite (tagged_with_recorded_sources index_list Hall source_list Hlen
                 Hstop Hsrc) in Hperm.
Qed.

(** ** [MultiIndex.filter] *)

Lemma filter_each_empty (flt : Index -> Exn + Index)
    (index_list : list Index) :
  Forall (fun idx =>
            (forall e, flt idx = inl e -> e = AttributeError "filter")
            /\ (forall idx', flt idx = inr idx' ->
                  signatures idx' = ([], None) /\ well_formed idx'
                  /\ (well_formed idx -> idx' = idx)))
    index_list ->
  forall source_list,
    (forall e, select_each flt index_list source_list = inl e ->
       e = AttributeError "filter")
    /\ forall new_idx_list new_src_list,
         select_each flt index_list source_list
           = inr (new_idx_list, new_src_list) ->
         List.length new_idx_list = List.length new_src_list
         /\ signatures_each signatures new_idx_list = ([], None)
         /\ Forall well_formed new_idx_list
         /\ (List.length index_list = List.length source_list ->
             Forall well_formed index_list ->
             new_idx_list = index_list /\ new_src_list = source_list).
Proof.
  induction 1 as [|idx il [Herr Hok] _ IH]; intros [|src sl];
    cbn [select_each]; try (split; [discriminate|]);
    try (intros ? ? [= <- <-]; repeat split; try constructor;
         intros; discriminate || auto).
  destruct (flt idx) as [e|idx'] eqn:Hflt.
  { split; [|discriminate]. intros e' [= <-]. now apply Herr. }
  destruct (IH sl) as [IHerr IHok].
  destruct (select_each flt il sl) as [e|[il' sl']] eqn:Hrest.
  { split; [|discriminate]. intros e' [= <-]. now apply IHerr. }
  split; [discriminate|]. intros new_il new_sl [= <- <-].
  destruct (IHok il' sl' eq_refl) as (Hlen & Hsigs & Hwf & Hsame).
  destruct (Hok idx' eq_refl) as (Hsigs' & Hwf' & Hsame').
  split; [simpl; now rewrite Hlen|]. split; [|split].
  - cbn [signatures_each]. now rewrite Hsigs', Hsigs.
  - now constructor.
  - intros Hlen' Hall. inversion Hall; subst.
    destruct Hsame as [-> ->]; [simpl in Hlen'; lia|assumption|].
    now rewrite Hsame'.
Qed.

Lemma filter_empty (filter_fn : Signature -> bool) (self : Index) :
  (forall e, Index_filter self filter_fn = inl e ->
     e = AttributeError "filter")
  /\ forall filtered, Index_filter self filter_fn = inr filtered ->
       signatures filtered = ([], None) /\ well_formed filtered
       /\ (well_formed self -> filtered = self).
Proof.
  induction self as [sigs loc|zf sd tya|index_list source_list IH]
    using Index_nested_ind; cbn [Index_filter].
  - split; [now intros e [= <-]|discriminate].
  - split; [now intros e [= <-]|discriminate].
  - destruct (filter_each_empty (fun idx => Index_filter idx filter_fn)
                index_list IH source_list) as [Herr Hok].
    destruct (select_each _ index_list source_list) as [e|[il' sl']].
    + split; [|discriminate]. intros e' [= <-]. now apply Herr.
    + destruct (Hok il' sl' eq_refl) as (Hlen & Hsigs & Hwf & Hsame).
      unfold MultiIndex_init. apply Nat.eqb_eq in Hlen. rewrite Hlen.
      split; [discriminate|]. intros filtered [= <-].
      apply Nat.eqb_eq in Hlen. split; [exact Hsigs|].
      split; [now constructor|].
      intros Hself. inversion Hself as [| |? ? Hlen' Hall]; subst.
      now destruct (Hsame Hlen' Hall) as [-> ->].
Qed.

(** X14. [MultiIndex.filter] cannot filter.  It calls [filter] on every
    sub-index, which [LinearIndex] and [ZipFileLinearIndex] do not have:
    the only exception it raises is that [AttributeError], it raises it
    whenever the index (built as the constructor asserts) holds a
    signature, and when it returns, the index it returns holds no
    signature and is the index it was called on. *)
Theorem MultiIndex_filter_cannot_filter (self : Index)
    (filter_fn : Signature -> bool) :
  (forall e, Index_filter self filter_fn = inl e ->
     e = AttributeError "filter")
  /\ (forall filtered, Index_filter self filter_fn = inr filtered ->
        signatures filtered = ([], None)
        /\ (well_formed self -> filtered = self))
  /\ (well_formed self -> fst (signatures self) <> [] ->
        Index_filter self filter_fn = inl (AttributeError "filter")).
Proof.
  destruct (filter_empty filter_fn self) as [Herr Hok].
  split; [exact Herr|]. split.
  - intros filtered Hf. destruct (Hok filtered Hf) as (Hs & _ & Hsame).
    split; assumption.
  - intros Hwf Hne.
    destruct (Index_filter self filter_fn) as [e|filtered] eqn:Hf.
    + now rewrite (Herr e eq_refl).
    + destruct (Hok filtered eq_refl) as (Hs & _ & Hsame).
      rewrite <- (Hsame Hwf) in Hne. rewrite Hs in Hne. now destruct Hne.
Qed.

(** ** [search] and its threshold *)

Section SortedFilter.
Context {A : Type}.
Variable lt : A -> A -> bool.
Variable P : A -> Prop.
Hypothesis lt_asym : forall x y, P x -> P y -> lt x y = true -> lt y x = false.
Hypothesis nlt_trans : forall x y z, P x -> P y -> P z ->
  lt y x = false -> lt z y = false -> lt z x = false.

Lemma insert_stable_least (x : A) (l : list A) :
  Forall (fun z => lt z x = false) l -> insert_stable lt x l = x :: l.
Proof. intros [|y l' Hy _]; simpl; [reflexivity|now rewrite Hy]. Qed.

(** Inserting into a sorted list and filtering is filtering and
    inserting. *)
Lemma insert_stable_filter_sorted (p : A -> bool) (x : A) (l : list A) :
  P x -> Forall P l ->
  StronglySorted (fun a b => lt b a = false) l ->
  List.filter p (insert_stable lt x l) =
  if p x then insert_stable lt x (List.filter p l) else List.filter p l.
Proof.
  intros Px. induction l as [|y l IH]; intros HP Hs.
  - simpl. now destruct (p x).
  - inversion HP as [|? ? Py HPl]; subst.
    inversion Hs as [|? ? Hsl Hy]; subst.
    cbn [insert_stable]. destruct (lt y x) eqn:Hyx.
    + cbn [List.filter]. rewrite (IH HPl Hsl).
      destruct (p y), (p x); cbn [insert_stable]; rewrite ?Hyx; reflexivity.
    + cbn [List.filter]. destruct (p x); [|reflexivity].
      symmetry. apply insert_stable_least.
      assert (Hall : Forall (fun z => lt z x = false) (y :: l)).
      { constructor; [exact Hyx|].
        rewrite List.Forall_forall in Hy, HPl |- *. intros z Hz.
        apply (nlt_trans x y z); auto. }
      destruct (p y).
      * constructor; [exact Hyx|].
        apply Forall_filter_weaken. now inversion Hall.
      * apply Forall_filter_weaken. now inversion Hall.
Qed.

(** The ascending stable sort commutes with every filter. *)
Lemma stable_sort_filter_comm (p : A -> bool) (l : list A) :
  Forall P l ->
  List.filter p (stable_sort lt l) = stable_sort lt (List.filter p l).
Proof.
  induction l as [|x l IH]; intros HP; [reflexivity|].
  inversion HP as [|? ? Px HPl]; subst.
  cbn [stable_sort List.filter].
  rewrite insert_stable_filter_sorted.
  - rewrite (IH HPl). now destruct (p x).
  - exact Px.
  - rewrite List.Forall_forall in HPl |- *. intros y Hy. apply HPl.
    now apply (Permutation_in _ (stable_sort_perm lt l)) in Hy.
  - now apply (stable_sort_sorted lt P).
Qed.

End SortedFilter.

Lemma filter_filter_implied {A} (p q : A -> bool) (l : list A) :
  (forall x, q x = true -> p x = true) ->
  List.filter q (List.filter p l) = List.filter q l.
Proof.
  intros Hqp. induction l as [|x l IH]; [reflexivity|]. cbn [List.filter].
  destruct (p x) eqn:Hp; cbn [List.filter].
  - now rewrite IH.
  - destruct (q x) eqn:Hq; [|exact IH].
    rewrite (Hqp x Hq) in Hp. discriminate.
Qed.

Section SearchThreshold.
Context `{SketchCapability}.
Variable query : Signature.
Variables (do_containment do_max_containment ignore_abundance : bool).

Lemma Index_search_outcome (self : Index) (loc : option string)
    (threshold : float) :
  location self = inr loc ->
  do_containment && do_max_containment = false ->
  outcome (Index_search self query (Some threshold) do_containment
             do_max_containment ignore_abundance) =
  match snd (signatures self) with
  | None =>
      Returns (list_sort search_key_lt false
                 (search_hits query threshold do_containment
                    do_max_containment ignore_abundance
                    (map (fun ss => (ss, loc)) (fst (signatures self)))))
  | Some e => Raises e
  end.
Proof.
  intros Hloc Hflags. unfold Index_search. rewrite Hflags.
  rewrite outcome_bind. unfold for_signatures.
  pose proof (search_scan query threshold do_containment do_max_containment
                ignore_abundance self loc (fst (signatures self))
                (snd (signatures self)) [] Hloc) as Hscan.
  unfold Result in Hscan |- *. rewrite Hscan.
  now destruct (snd (signatures self)).
Qed.

Lemma Index_search_flags (self : Index) (threshold : option float)
    (rs : list Result) :
  outcome (Index_search self query threshold do_containment
             do_max_containment ignore_abundance) = Returns rs ->
  do_containment && do_max_containment = false.
Proof.
  unfold Index_search. destruct threshold; [|discriminate].
  now destruct (do_containment && do_max_containment).
Qed.

(** Every result of [search], on every index, scores at least the
    threshold. *)
Lemma search_results_reach (threshold : float) (self : Index) :
  forall rs,
    outcome (search self query (Some threshold) do_containment
               do_max_containment ignore_abundance) = Returns rs ->
    Forall (fun r => PyFloat.geb (score r) threshold = true) rs.
Proof.
  assert (Hleaf : forall idx loc rs,
            location idx = inr loc ->
            outcome (Index_search idx query (Some threshold) do_containment
                       do_max_containment ignore_abundance) = Returns rs ->
            Forall (fun r => PyFloat.geb (score r) threshold = true) rs).
  { intros idx loc rs Hloc Hrs.
    pose proof (Index_search_flags idx _ rs Hrs) as Hflags.
    rewrite (Index_search_outcome idx loc threshold Hloc Hflags) in Hrs.
    destruct (snd (signatures idx)); [discriminate|].
    injection Hrs as <-.
    apply (Forall_list_sort search_key_lt false). apply search_hits_reach. }
  induction self as [sigs loc|zf sd tya|index_list source_list IH]
    using Index_nested_ind; intros rs.
  - now apply (Hleaf _ loc).
  - now apply (Hleaf _ (zf_filename zf)).
  - cbn [search]. rewrite outcome_bind.
    destruct (outcome (for_zip _ index_list source_list []))
      as [pooled| |] eqn:Hpool; try discriminate.
    autorewrite with run. intros [= <-].
    apply (Forall_list_sort search_key_lt false).
    refine (for_zip_pool
              (fun idx => search idx query (Some threshold) do_containment
                            do_max_containment ignore_abundance)
              (fun r => PyFloat.geb (score r) threshold = true)
              index_list source_list _ IH [] pooled _ Hpool).
    + intros r src Hr. exact Hr.
    + constructor.
Qed.

Variables (low high : float).
Hypothesis high_low : PyFloat.geb high low = true.

Lemma search_hits_raise (tagged : list (Signature * option string)) :
  List.filter (fun r => PyFloat.geb (score r) high)
    (search_hits query low do_containment do_max_containment
       ignore_abundance tagged)
  = search_hits query high do_containment do_max_containment
      ignore_abundance tagged.
Proof.
  unfold search_hits. rewrite filter_map_comm. apply f_equal.
  apply (filter_filter_implied
           (fun p => search_hit query low do_containment do_max_containment
                       ignore_abundance (fst p))
           (fun p => search_hit query high do_containment do_max_containment
                       ignore_abundance (fst p))).
  intros p Hhigh. unfold search_hit in *.
  exact (FloatOrder.geb_trans _ _ _ Hhigh high_low).
Qed.

Lemma search_sort_filter (l : list Result) :
  Forall score_not_nan l ->
  List.filter (fun r => PyFloat.geb (score r) high)
    (list_sort search_key_lt false l)
  = list_sort search_key_lt false
      (List.filter (fun r => PyFloat.geb (score r) high) l).
Proof.
  intros Hnan. unfold list_sort.
  apply (stable_sort_filter_comm search_key_lt score_not_nan); [| |exact Hnan].
  - intros x y _ _. rewrite !search_key_lt_neg. apply FloatOrder.ltb_asym.
  - intros x y z Hx Hy Hz. rewrite !search_key_lt_neg.
    rewrite !FloatOrder.not_ltb_geb by assumption.
    apply FloatOrder.geb_trans.
Qed.

Lemma for_zip_filter (call1 call2 : Index -> M (list Result))
    (index_list : list Index) :
  Forall (fun idx => forall sub,
            outcome (call1 idx) = Returns sub ->
            outcome (call2 idx)
            = Returns (List.filter (fun r => PyFloat.geb (score r) high) sub))
    index_list ->
  forall source_list acc pooled,
    outcome (for_zip (fun idx src acc =>
                        sub <- call1 idx ;; ret (acc ++ retag src sub))
               index_list source_list acc) = Returns pooled ->
    outcome (for_zip (fun idx src acc =>
                        sub <- call2 idx ;; ret (acc ++ retag src sub))
               index_list source_list
               (List.filter (fun r => PyFloat.geb (score r) high) acc))
    = Returns (List.filter (fun r => PyFloat.geb (score r) high) pooled).
Proof.
  induction 1 as [|idx il Hidx _ IH]; intros [|src sl] acc pooled;
    cbn [for_zip]; autorewrite with run; try (now intros [= <-]).
  destruct (outcome (call1 idx)) as [sub| |] eqn:Hsub; try discriminate.
  rewrite (Hidx sub eq_refl). autorewrite with run. intros Hrest.
  apply IH in Hrest. rewrite List.filter_app in Hrest.
  unfold retag in Hrest |- *. rewrite filter_map_comm in Hrest.
  exact Hrest.
Qed.

Lemma search_raise_threshold (self : Index) :
  forall matches,
    outcome (search self query (Some low) do_containment do_max_containment
               ignore_abundance) = Returns matches ->
    outcome (search self query (Some high) do_containment
               do_max_containment ignore_abundance)
    = Returns (List.filter (fun r => PyFloat.geb (score r) high) matches).
Proof.
  assert (Hleaf : forall idx loc matches,
            location idx = inr loc ->
            outcome (Index_search idx query (Some low) do_containment
                       do_max_containment ignore_abundance)
            = Returns matches ->
            outcome (Index_search idx query (Some high) do_containment
                       do_max_containment ignore_abundance)
            = Returns (List.filter (fun r => PyFloat.geb (score r) high)
                         matches)).
  { intros idx loc matches Hloc Hrs.
    pose proof (Index_search_flags idx _ matches Hrs) as Hflags.
    rewrite (Index_search_outcome idx loc low Hloc Hflags) in Hrs.
    rewrite (Index_search_outcome idx loc high Hloc Hflags).
    destruct (snd (signatures idx)); [discriminate|].
    injection Hrs as <-.
    change (stable_sort search_key_lt) with (list_sort search_key_lt false).
    rewrite search_sort_filter, search_hits_raise.
    - reflexivity.
    - eapply List.Forall_impl; [|apply search_hits_reach].
      intros r Hr. exact (FloatOrder.geb_not_nan _ _ Hr). }
  induction self as [sigs loc|zf sd tya|index_list source_list IH]
    using Index_nested_ind; intros matches.
  - now apply (Hleaf _ loc).
  - now apply (Hleaf _ (zf_filename zf)).
  - cbn [search]. rewrite !outcome_bind.
    destruct (outcome (for_zip _ index_list source_list []))
      as [pooled| |] eqn:Hpool; try discriminate.
    autorewrite with run. intros [= <-].
    pose proof (for_zip_filter
                  (fun idx => search idx query (Some low) do_containment
                                do_max_containment ignore_abundance)
                  (fun idx => search idx query (Some high) do_containment
                                do_max_containment ignore_abundance)
                  index_list IH source_list [] pooled Hpool) as Hhigh.
    cbn [List.filter] in Hhigh. rewrite Hhigh. autorewrite with run.
    change (stable_sort search_key_lt) with (list_sort search_key_lt false).
    rewrite search_sort_filter; [reflexivity|].
    assert (Hreach : Forall (fun r => PyFloat.geb (score r) low = true)
                       (list_sort search_key_lt false pooled)).
    { apply (search_results_reach low (MultiIndex index_list source_list)).
      cbn [search]. rewrite outcome_bind, Hpool. reflexivity. }
    rewrite List.Forall_forall in Hreach |- *. intros r Hr.
    apply (FloatOrder.geb_not_nan _ low). apply Hreach.
    now apply list_sort_In.
Qed.

End SearchThreshold.

(** X15. Raising the threshold filters the result: when [search] returns
    with a threshold, then with any threshold at least as large it
    returns, on every backend, exactly the matches of the first list that
    reach the larger threshold, in the order they have there. *)
Theorem search_threshold_filters `{SketchCapability} (self : Index)
    (query : Signature) (low high : float)
    (do_containment do_max_containment ignore_abundance : bool)
    (matches : list Result) :
  PyFloat.geb high low = true ->
  outcome (search self query (Some low) do_containment do_max_containment
             ignore_abundance) = Returns matches ->
  outcome (search self query (Some high) do_containment do_max_containment
             ignore_abundance)
  = Returns (List.filter (fun r => PyFloat.geb (score r) high) matches).
Proof.
  intros Hge. now apply search_raise_threshold.
Qed.

(** ** [gather] on every index *)

Section GatherEveryIndex.
Context `{SketchCapability}.
Variables (query : Signature) (threshold_bp threshold : float).
Hypothesis query_not_empty : mh_len (minhash query) <> 0%nat.
Hypothesis query_scaled : scaled (minhash query) <> 0.
Hypothesis Hthreshold :
  outcome (containment_threshold query threshold_bp) = Returns threshold.
Hypothesis Hreachable : PyFloat.gtb threshold PyFloat.one = false.

Lemma gather_found_hits (loc : option string) (sigs : list Signature) :
  gather_found query threshold loc sigs
  = gather_hits query threshold (map (fun ss => (ss, loc)) sigs).
Proof.
  unfold gather_found, gather_hits. rewrite filter_map_comm, map_map.
  reflexivity.
Qed.

Lemma gather_hits_app (l1 l2 : list (Signature * option string)) :
  gather_hits query threshold (l1 ++ l2)
  = gather_hits query threshold l1 ++ gather_hits query threshold l2.
Proof. unfold gather_hits. now rewrite List.filter_app, map_app. Qed.

Lemma gather_hits_retag (src : option string)
    (l : list (Signature * option string)) :
  gather_hits query threshold
    (map (fun p => (fst p, str_or src (snd p))) l)
  = retag src (gather_hits query threshold l).
Proof.
  unfold gather_hits, retag. rewrite filter_map_comm, !map_map.
  reflexivity.
Qed.

(** [Index.gather] past its guards is the scan with the threshold. *)
Lemma Index_gather_scans (self : Index) :
  outcome (Index_gather self query threshold_bp)
  = outcome (gather_scan self query threshold).
Proof.
  unfold Index_gather.
  rewrite (proj2 (Nat.eqb_neq _ _) query_not_empty).
  rewrite (proj2 (Z.eqb_neq _ _) query_scaled).
  pose proof Hthreshold as Hth. unfold containment_threshold in Hth.
  destruct (PyFloat.truthy threshold_bp).
  - rewrite outcome_bind in Hth.
    destruct (outcome (float_div_int threshold_bp _)) as [n| |] eqn:Hn;
      try discriminate.
    rewrite (float_div_int_outcome _ _ _ Hn). cbn [bind app].
    rewrite (float_div_int_outcome _ _ _ Hth). cbn [bind app].
    rewrite Hreachable. now destruct (gather_scan self query threshold).
  - now injection Hth as <-.
Qed.

Lemma gather_leaf (self : Index) (loc : option string) :
  location self = inr loc ->
  snd (signatures self) = None ->
  outcome (Index_gather self query threshold_bp)
  = Returns (list_sort gather_key_lt true
               (gather_hits query threshold
                  (map (fun ss => (ss, loc)) (fst (signatures self))))).
Proof.
  intros Hloc Hstop. rewrite Index_gather_scans, <- gather_found_hits.
  apply (gather_scan_returns self loc (fst (signatures self)) query);
    [|exact Hloc].
  rewrite <- Hstop. now destruct (signatures self).
Qed.

Lemma gather_pool (index_list : list Index) :
  Forall (fun idx =>
            well_formed idx -> snd (signatures idx) = None ->
            exists sub,
              outcome (gather idx query threshold_bp) = Returns sub
              /\ Permutation sub
                   (gather_hits query threshold (tagged_signatures idx)))
    index_list ->
  Forall well_formed index_list ->
  forall (source_list : list (option string)) (acc : list Result),
    List.length index_list = List.length source_list ->
    snd (signatures_each signatures index_list) = None ->
    exists pooled,
      outcome (for_zip
                 (fun idx src acc =>
                    sub <- gather idx query threshold_bp ;;
                    ret (acc ++ retag src sub))
                 index_list source_list acc) = Returns (acc ++ pooled)
      /\ Permutation pooled
           (gather_hits query threshold
              (tagged_each tagged_signatures index_list source_list)).
Proof.
  induction 1 as [|idx il Hidx _ IH]; intros Hall [|src sl] acc Hlen Hstop;
    try discriminate; cbn [for_zip tagged_each signatures_each] in *.
  - exists []. rewrite app_nil_r. split; [reflexivity|constructor].
  - inversion Hall as [|? ? Hwf Hall']; subst.
    apply gen_app_exhausted in Hstop. destruct Hstop as (H1 & H2 & _).
    destruct (Hidx Hwf H1) as (sub & Hsub & Hperm).
    destruct (IH Hall' sl (acc ++ retag src sub)) as
      (pooled & Hpool & Hperm'); [simpl in Hlen; lia|exact H2|].
    exists (retag src sub ++ pooled).
    rewrite outcome_bind, outcome_bind, Hsub. autorewrite with run.
    rewrite Hpool, <- app_assoc. split; [reflexivity|].
    rewrite gather_hits_app, gather_hits_retag.
    apply Permutation_app; [|exact Hperm'].
    unfold retag. now apply Permutation_map.
Qed.

Lemma gather_exact (self : Index) :
  well_formed self -> snd (signatures self) = None ->
  exists results,
    outcome (gather self query threshold_bp) = Returns results
    /\ Permutation results
         (gather_hits query threshold (tagged_signatures self)).
Proof.
  induction self as [sigs loc|zf sd tya|index_list source_list IH]
    using Index_nested_ind; intros Hwf Hstop.
  - eexists. split;
      [exact (gather_leaf (LinearIndex sigs loc) loc eq_refl Hstop)|].
    apply list_sort_perm.
  - eexists. split;
      [exact (gather_leaf (ZipFileLinearIndex zf sd tya) (zf_filename zf)
                eq_refl Hstop)|].
    apply list_sort_perm.
  - inversion Hwf as [| |? ? Hlen Hall]; subst.
    destruct (gather_pool index_list IH Hall source_list [] Hlen Hstop)
      as (pooled & Hpool & Hperm).
    cbn [gather]. rewrite outcome_bind, Hpool. autorewrite with run.
    cbn [app]. eexists. split; [reflexivity|].
    etransitivity; [apply list_sort_perm|exact Hperm].
Qed.

End GatherEveryIndex.

(** X16. [gather] on every backend, a [MultiIndex] included: for a
    non-empty scaled query whose threshold is at most 1.0, and an index
    whose enumeration succeeds, [gather] returns the signatures of the
    enumeration whose containment is nonzero and at least the threshold,
    no others, each with its containment and the source that [search]
    reports for it, in descending order of (containment, fingerprint). *)
Theorem gather_returns_kept_signatures `{SketchCapability} (self : Index)
    (query : Signature) (threshold_bp threshold : float) :
  mh_len (minhash query) <> 0%nat ->
  scaled (minhash query) <> 0 ->
  outcome (containment_threshold query threshold_bp) = Returns threshold ->
  PyFloat.gtb threshold PyFloat.one = false ->
  well_formed self -> snd (signatures self) = None ->
  exists results,
    outcome (gather self query threshold_bp) = Returns results
    /\ Permutation results
         (gather_hits query threshold (tagged_signatures self))
    /\ StronglySorted descends results.
Proof.
  intros Hlen Hsc Hth Hle Hwf Hstop.
  destruct (gather_exact query threshold_bp threshold Hlen Hsc Hth Hle self
              Hwf Hstop) as (results & Hret & Hperm).
  exists results. split; [exact Hret|]. split; [exact Hperm|].
  destruct (gather_results query threshold_bp self results Hret)
    as (rs0 & -> & H0).
  now apply gather_sort_descends.
Qed.

(** ** [counter_gather] against [gather] *)

Lemma no_filename_attribute (self : Index) :
  getattr_source self "filename" = None.
Proof. now destruct self. Qed.

Section CounterGatherMembers.
Context `{SketchCapability}.
Variables (self : Index) (query : Signature).
Variables (signatures : list Signature).
Variables (n_threshold_hashes : Num) (threshold : float).

Lemma greedy_iteration_members (st : Greedy) (step : Step) :
  Forall (greedy_member query threshold signatures) (results st) ->
  outcome (greedy_iteration self query signatures n_threshold_hashes
             threshold st) = Returns step ->
  match step with
  | Continue st' | Break st' =>
      Forall (greedy_member query threshold signatures) (results st')
  end.
Proof.
  intros HQ. unfold greedy_iteration.
  destruct (Counter.most_common (counter st)) as [|[dataset_id size] rest];
    [discriminate|].
  destruct (num_ge (Int size) n_threshold_hashes).
  - destruct (nth_error signatures dataset_id) as [match_|] eqn:Hnth;
      [|discriminate].
    autorewrite with run.
    destruct (outcome (decrement_counter _ _ _ _)); try discriminate.
    autorewrite with run. intros [= <-]. cbn [results].
    destruct (PyFloat.truthy _ && PyFloat.geb _ threshold) eqn:E.
    + apply List.Forall_app. split; [assumption|].
      constructor; [|constructor]. unfold greedy_member.
      cbn [matched score source fst snd].
      split; [exact (nth_error_In _ _ Hnth)|]. split; [reflexivity|].
      split; [exact E|apply no_filename_attribute].
    + assumption.
  - autorewrite with run. now intros [= <-].
Qed.

Lemma greedy_loop_members (fuel : nat) (st : Greedy) (rs : list Result) :
  Forall (greedy_member query threshold signatures) (results st) ->
  outcome (greedy_loop fuel self query signatures n_threshold_hashes
             threshold st) = Returns rs ->
  Forall (greedy_member query threshold signatures) rs.
Proof.
  revert st. induction fuel as [|fuel IH]; intros st HQ; cbn [greedy_loop];
    destruct (Counter.nonempty (counter st)
              && num_ge (match_size st) n_threshold_hashes);
    autorewrite with run; try (now intros [= <-]); try discriminate.
  destruct (outcome (greedy_iteration _ _ _ _ _ st)) as [step| |] eqn:E;
    try discriminate.
  pose proof (greedy_iteration_members st step HQ E) as Hstep.
  destruct step as [st'|st'].
  - now apply IH.
  - autorewrite with run. now intros [= <-].
Qed.

End CounterGatherMembers.

Lemma decompose_members `{SketchCapability} (fuel : nat) (self : Index)
    (query : Signature) (n_threshold_hashes : Num) (threshold : float)
    (rs : list Result) :
  outcome (decompose fuel self query n_threshold_hashes threshold)
    = Returns rs ->
  snd (signatures self) = None
  /\ Forall (greedy_member query threshold (fst (signatures self))) rs.
Proof.
  unfold decompose, for_signatures. rewrite outcome_bind, preload_outcome.
  destruct (snd (signatures self)); [discriminate|]. cbn [app].
  autorewrite with run.
  destruct (outcome (count_shared _ _ _ _)) as [c| |]; try discriminate.
  autorewrite with run.
  destruct (outcome (greedy_loop _ _ _ _ _ _ _)) as [rs0| |] eqn:E;
    try discriminate.
  autorewrite with run. intros [= <-]. split; [reflexivity|].
  apply (Forall_list_sort gather_key_lt true).
  eapply greedy_loop_members; [|exact E]. constructor.
Qed.

(** X17. Every match of [counter_gather] is a match of [gather].  For a
    non-empty scaled query whose threshold is at most 1.0, on any index
    built as the constructor of [MultiIndex] asserts: when
    [counter_gather] returns, [gather] returns too, and every triple of
    [counter_gather] holds a signature and a containment that a triple of
    [gather] holds; but its source is [None], whatever source [gather]
    reports. *)
Theorem counter_gather_within_gather `{SketchCapability} (self : Index)
    (query : Signature) (threshold_bp threshold : float) (fuel : nat)
    (decomposition : list Result) :
  mh_len (minhash query) <> 0%nat ->
  scaled (minhash query) <> 0 ->
  outcome (containment_threshold query threshold_bp) = Returns threshold ->
  PyFloat.gtb threshold PyFloat.one = false ->
  well_formed self ->
  outcome (counter_gather fuel self query threshold_bp)
    = Returns decomposition ->
  exists results,
    outcome (gather self query threshold_bp) = Returns results
    /\ Forall (fun r =>
                 source r = None
                 /\ exists src, In (score r, matched r, src) results)
         decomposition.
Proof.
  intros Hlen Hsc Hth Hle Hwf Hdec.
  assert (Hmem : snd (signatures self) = None
                 /\ Forall (greedy_member query threshold
                              (fst (signatures self))) decomposition).
  { revert Hdec. unfold counter_gather, Index_counter_gather.
    rewrite (proj2 (Nat.eqb_neq _ _) Hlen), (proj2 (Z.eqb_neq _ _) Hsc).
    unfold containment_threshold in Hth.
    destruct (PyFloat.truthy threshold_bp).
    - rewrite outcome_bind in Hth.
      destruct (outcome (float_div_int threshold_bp _)) as [n| |] eqn:Hn;
        try discriminate.
      rewrite (float_div_int_outcome _ _ _ Hn). cbn [bind app].
      rewrite (float_div_int_outcome _ _ _ Hth). cbn [bind app].
      rewrite Hle.
      destruct (decompose fuel self query (Float n) threshold) eqn:Hd.
      cbn [outcome snd]. intros ->.
      apply (decompose_members fuel self query (Float n) threshold).
      now rewrite Hd.
    - injection Hth as <-. apply decompose_members. }
  destruct Hmem as [Hstop Hmem].
  destruct (gather_exact query threshold_bp threshold Hlen Hsc Hth Hle self
              Hwf Hstop) as (results & Hret & Hperm).
  exists results. split; [exact Hret|].
  eapply List.Forall_impl; [|exact Hmem].
  intros r (Hin & Hscore & Hkeep & Hsrc). split; [exact Hsrc|].
  rewrite <- (tagged_signatures_enumeration self Hwf Hstop) in Hin.
  apply in_map_iff in Hin. destruct Hin as ([ss src] & Hss & Hp).
  cbn [fst] in Hss. exists src.
  apply (Permutation_in _ (Permutation_sym Hperm)).
  unfold gather_hits. apply in_map_iff. exists (ss, src). cbn [fst snd].
  subst ss. split; [now rewrite Hscore|].
  apply filter_In. split; [exact Hp|exact Hkeep].
Qed.

(** ** [MultiIndex.load_from_path] and [MultiIndex.load_from_pathlist] *)

Section LoadFacts.
Context `{Loaders}.

Lemma load_from_path_loop_returns (force : bool) (files : list string)
    (stop : option LoadError) :
  forall index_list source_list new_idx_list new_src_list,
    load_from_path_loop files stop force index_list source_list
      = inr (new_idx_list, new_src_list) ->
    stop = None
    /\ new_idx_list = index_list ++ map snd (loadable files)
    /\ new_src_list
       = source_list ++ map (fun p => Some (fst p)) (loadable files)
    /\ (force = false -> map fst (loadable files) = files).
Proof.
  induction files as [|thisfile rest IH]; intros il sl il' sl';
    cbn [load_from_path_loop loadable].
  - destruct stop; [discriminate|]. intros [= <- <-].
    now rewrite !app_nil_r.
  - destruct (LinearIndex_load thisfile) as [e|idx].
    + destruct (caught e); [|discriminate].
      destruct force; [|discriminate].
      intros Hrest. destruct (IH _ _ _ _ Hrest) as (Hs & Hi & Hl & _).
      repeat split; auto. discriminate.
    + intros Hrest. destruct (IH _ _ _ _ Hrest) as (Hs & Hi & Hl & Hall).
      rewrite <- !app_assoc in Hi, Hl. repeat split; auto.
      intros Hforce. cbn [map fst]. now rewrite (Hall Hforce).
Qed.

Lemma load_from_path_loop_skips (files : list string) :
  Forall (fun thisfile => forall e,
            LinearIndex_load thisfile = inl e -> caught e = true) files ->
  forall index_list source_list,
    load_from_path_loop files None true index_list source_list
    = inr (index_list ++ map snd (loadable files),
           source_list ++ map (fun p => Some (fst p)) (loadable files)).
Proof.
  induction 1 as [|thisfile rest Hfile _ IH]; intros il sl;
    cbn [load_from_path_loop loadable].
  - now rewrite !app_nil_r.
  - destruct (LinearIndex_load thisfile) as [e|idx].
    + rewrite (Hfile e eq_refl). apply IH.
    + rewrite IH, <- !app_assoc. reflexivity.
Qed.

Lemma load_from_path_loop_stops (force : bool) (pre post : list string)
    (stop : option LoadError) (thisfile : string) (e : LoadError) :
  map fst (loadable pre) = pre ->
  LinearIndex_load thisfile = inl e ->
  caught e = false \/ force = false ->
  forall index_list source_list,
    load_from_path_loop (pre ++ thisfile :: post) stop force index_list
      source_list = inl e.
Proof.
  intros Hpre Hfile Hraise. induction pre as [|f pre IH]; intros il sl;
    cbn [app load_from_path_loop].
  - rewrite Hfile. destruct (caught e); [|reflexivity].
    destruct Hraise as [ | -> ]; [discriminate|reflexivity].
  - cbn [loadable] in Hpre.
    destruct (LinearIndex_load f) as [e'|idx].
    + exfalso. assert (Hlen : List.length (map fst (loadable pre))
                               = S (List.length pre)) by now rewrite Hpre.
      rewrite length_map in Hlen.
      assert (Hle : forall l, (List.length (loadable l) <= List.length l)%nat).
      { clear. induction l as [|x l IHl]; cbn [loadable]; [simpl; lia|].
        destruct (LinearIndex_load x); simpl; lia. }
      specialize (Hle pre). lia.
    + cbn [map fst] in Hpre. injection Hpre as Hpre. now apply IH.
Qed.

Lemma loadable_indexes (files : list string) :
  Forall (fun p => exists si,
            load_signatures (fst p) = inr si
            /\ snd p = LinearIndex si (Some (fst p))) (loadable files)
  /\ forall p, In p (loadable files) -> In (fst p) files.
Proof.
  induction files as [|f rest [IH1 IH2]]; cbn [loadable].
  - split; [constructor|now intros p []].
  - unfold LinearIndex_load.
    destruct (load_signatures f) as [e|si] eqn:Hf.
    + split; [exact IH1|]. intros p Hp. right. now apply IH2.
    + split.
      * constructor; [|exact IH1]. exists si. cbn [fst snd].
        split; [exact Hf|apply LinearIndex_init_eq].
      * intros p [ <- | Hp ]; [now left|right; now apply IH2].
Qed.

Lemma tagged_of_files (loaded : list (string * Index)) :
  Forall (fun p => exists si, snd p = LinearIndex si (Some (fst p))) loaded ->
  well_formed (MultiIndex_of_files loaded)
  /\ snd (signatures (MultiIndex_of_files loaded)) = None
  /\ tagged_signatures (MultiIndex_of_files loaded)
     = flat_map (fun p => map (fun ss => (ss, Some (fst p)))
                            (fst (signatures (snd p)))) loaded.
Proof.
  unfold MultiIndex_of_files. intros Hall. split; [|split].
  - constructor; [now rewrite !length_map|].
    rewrite List.Forall_forall. intros idx Hidx.
    apply in_map_iff in Hidx. destruct Hidx as (p & <- & Hp).
    rewrite List.Forall_forall in Hall.
    destruct (Hall p Hp) as (si & ->). constructor.
  - cbn [signatures]. induction Hall as [|p l (si & Hp) _ IH];
      [reflexivity|].
    cbn [map signatures_each]. rewrite Hp. unfold gen_app.
    cbn [signatures fst snd]. exact IH.
  - cbn [tagged_signatures]. induction Hall as [|p l (si & Hp) _ IH];
      [reflexivity|].
    cbn [map tagged_each flat_map]. rewrite IH, Hp.
    cbn [tagged_signatures signatures fst]. rewrite map_map.
    apply (f_equal (fun x => x ++ _)), map_ext. intros ss.
    cbn [fst snd]. unfold str_or, str_truthy.
    now destruct (negb (String.eqb (fst p) "")).
Qed.

End LoadFacts.

Lemma do_containment_and_max (a b : bool) :
  a && b = true \/ a && b = false.
Proof. destruct (a && b); auto. Qed.

(** X18. The index that [load_from_path] returns records which file
    provided which signature.  It is the [MultiIndex] over the files of
    the traversal that [LinearIndex.load] loaded, in order, at least one,
    each a [LinearIndex] of the signatures of its file, recorded under the
    file's name (without [force], these are all the files of the
    traversal); and whenever [search] on it returns, every match carries
    the name of a file of the traversal whose signatures hold the matched
    signature. *)
Theorem load_from_path_records_files `{Loaders} `{SketchCapability}
    (pathname : string) (force : bool) (db : Index) :
  MultiIndex_load_from_path pathname force = inr db ->
  let files := fst (traverse_find_sigs [pathname] force) in
  path_exists pathname = true
  /\ loadable files <> []
  /\ db = MultiIndex_of_files (loadable files)
  /\ (force = false -> map fst (loadable files) = files)
  /\ forall query threshold do_containment do_max_containment
            ignore_abundance matches,
       outcome (search db query (Some threshold) do_containment
                  do_max_containment ignore_abundance) = Returns matches ->
       Forall (fun r =>
                 exists thisfile si,
                   source r = Some thisfile
                   /\ In thisfile files
                   /\ load_signatures thisfile = inr si
                   /\ In (matched r) si) matches.
Proof.
  unfold MultiIndex_load_from_path.
  destruct (path_exists pathname); [|discriminate]. cbn [negb].
  destruct (traverse_find_sigs [pathname] force) as [files stop].
  destruct (load_from_path_loop files stop force [] []) as [e|[il sl]]
    eqn:Hloop; [discriminate|].
  destruct (load_from_path_loop_returns force files stop [] [] il sl Hloop)
    as (_ & -> & -> & Hall).
  cbn [app fst].
  destruct (map snd (loadable files)) as [|idx rest] eqn:Hmap;
    [discriminate|].
  rewrite <- Hmap. unfold MultiIndex_init. rewrite !length_map, Nat.eqb_refl.
  intros [= <-].
  split; [reflexivity|].
  split; [intros Hnil; now rewrite Hnil in Hmap|].
  split; [reflexivity|]. split; [exact Hall|].
  intros query threshold dc dmc ia matches Hsearch.
  fold (MultiIndex_of_files (loadable files)) in Hsearch.
  destruct (loadable_indexes files) as [Hidx Hin].
  destruct (tagged_of_files (loadable files)) as (Hwf & Hstop & Htag).
  { eapply List.Forall_impl; [|exact Hidx]. intros p (si & _ & Hp). eauto. }
  destruct (do_containment_and_max dc dmc) as [Hflags|Hflags].
  { destruct (search_bad_arguments_every_index query (Some threshold) dc dmc
                ia (MultiIndex_of_files (loadable files)) (or_intror Hflags))
      as [[msg Hbad] | Hbad]; rewrite Hbad in Hsearch;
      [discriminate|]. injection Hsearch as <-. constructor. }
  destruct (search_exact_every_index query threshold dc dmc ia Hflags
              (MultiIndex_of_files (loadable files)) Hwf Hstop)
    as (rs & Hret & Hperm & _).
  rewrite Hsearch in Hret. injection Hret as <-.
  rewrite List.Forall_forall. intros r Hr.
  apply (Permutation_in _ Hperm) in Hr. rewrite Htag in Hr.
  unfold search_hits in Hr. apply in_map_iff in Hr.
  destruct Hr as ([ss src] & <- & Hp). apply filter_In in Hp.
  destruct Hp as [Hp _]. apply in_flat_map in Hp.
  destruct Hp as (p & Hp & Hss). apply in_map_iff in Hss.
  destruct Hss as (ss' & [= <- <-] & Hss').
  rewrite List.Forall_forall in Hidx.
  destruct (Hidx p Hp) as (si & Hload & Hidxp). rewrite Hidxp in Hss'.
  cbn [signatures fst] in Hss'.
  exists (fst p), si. cbn [source matched fst snd].
  repeat split; auto.
Qed.

Lemma LinearIndex_load_raises `{Loaders} (thisfile : string)
    (e : LoadError) :
  load_signatures thisfile = inl e <-> LinearIndex_load thisfile = inl e.
Proof.
  unfold LinearIndex_load.
  destruct (load_signatures thisfile); split; congruence.
Qed.

(** X19. [force] in [load_from_path], for a path that exists.  With
    [force], a file whose loading fails with [IOError] or [SourmashError]
    is skipped: when the traversal ends normally and no file fails in
    another way, the call returns the [MultiIndex] of the files that
    load, and raises [ValueError] when none does.  Without [force], and
    for every other exception, the first file that fails ends the call
    with its exception. *)
Theorem load_from_path_force `{Loaders} (pathname : string) :
  path_exists pathname = true ->
  (forall files,
     traverse_find_sigs [pathname] true = (files, None) ->
     Forall (fun thisfile => forall e,
               load_signatures thisfile = inl e -> caught e = true) files ->
     MultiIndex_load_from_path pathname true =
     match loadable files with
     | [] =>
         inl (Uncaught (ValueError
                ("no signatures to load under directory '"
                 ++ pathname ++ "'")))
     | _ :: _ => inr (MultiIndex_of_files (loadable files))
     end)
  /\ forall force pre thisfile post stop e,
       traverse_find_sigs [pathname] force
         = (pre ++ thisfile :: post, stop) ->
       map fst (loadable pre) = pre ->
       load_signatures thisfile = inl e ->
       caught e = false \/ force = false ->
       MultiIndex_load_from_path pathname force = inl e.
Proof.
  intros Hpath. unfold MultiIndex_load_from_path. rewrite Hpath. cbn [negb].
  split.
  - intros files -> Hall.
    rewrite load_from_path_loop_skips.
    + cbn [app]. destruct (loadable files) as [|p l] eqn:Hl; [reflexivity|].
      cbn [map]. unfold MultiIndex_init. cbn [List.length].
      now rewrite !length_map, Nat.eqb_refl.
    + eapply List.Forall_impl; [|exact Hall]. intros f Hf e He.
      apply Hf. now apply LinearIndex_load_raises.
  - intros force pre thisfile post stop e -> Hpre Hfile Hraise.
    apply LinearIndex_load_raises in Hfile.
    now rewrite (load_from_path_loop_stops force pre post stop thisfile e
                   Hpre Hfile Hraise).
Qed.

Lemma load_from_pathlist_loop_returns `{Loaders} (file_list : list string)
    (loaded : list Index) :
  Forall2 (fun fname idx => load_file_as_index fname = inr idx)
    file_list loaded ->
  forall idx_list src_list,
    load_from_pathlist_loop file_list idx_list src_list
    = inr (idx_list ++ loaded, src_list ++ map Some file_list).
Proof.
  induction 1 as [|fname idx fl l Hf _ IH]; intros il sl;
    cbn [load_from_pathlist_loop].
  - now rewrite !app_nil_r.
  - rewrite Hf, IH, <- !app_assoc. reflexivity.
Qed.

Lemma load_from_pathlist_loop_stops `{Loaders} (pre post : list string)
    (fname : string) (e : LoadError) :
  Forall (fun f => exists idx, load_file_as_index f = inr idx) pre ->
  load_file_as_index fname = inl e ->
  forall idx_list src_list,
    load_from_pathlist_loop (pre ++ fname :: post) idx_list src_list
    = inl e.
Proof.
  intros Hpre Hf. induction Hpre as [|f pre [idx Hidx] _ IH]; intros il sl;
    cbn [app load_from_pathlist_loop].
  - now rewrite Hf.
  - rewrite Hidx. apply IH.
Qed.

(** X20. [load_from_pathlist] loads every file of the list or fails:
    when [load_file_as_index] loads them all, it returns the [MultiIndex]
    of the indexes in the order of the list, each recorded under its file
    name; an empty list gives an empty [MultiIndex], not an error; the
    first file that fails to load ends the call with its exception,
    whatever its class; and so does a failure to read the list. *)
Theorem load_from_pathlist_loads_all_or_fails `{Loaders}
    (filename : string) :
  match load_pathlist_from_file filename with
  | inl e => MultiIndex_load_from_pathlist filename = inl e
  | inr file_list =>
      (forall loaded,
         Forall2 (fun fname idx => load_file_as_index fname = inr idx)
           file_list loaded ->
         MultiIndex_load_from_pathlist filename
         = inr (MultiIndex loaded (map Some file_list)))
      /\ (file_list = [] ->
            MultiIndex_load_from_pathlist filename = inr (MultiIndex [] []))
      /\ forall pre fname post e,
           file_list = pre ++ fname :: post ->
           Forall (fun f => exists idx, load_file_as_index f = inr idx)
             pre ->
           load_file_as_index fname = inl e ->
           MultiIndex_load_from_pathlist filename = inl e
  end.
Proof.
  unfold MultiIndex_load_from_pathlist.
  destruct (load_pathlist_from_file filename) as [e|file_list];
    [reflexivity|].
  split; [|split].
  - intros loaded Hall.
    rewrite (load_from_pathlist_loop_returns file_list loaded Hall).
    cbn [app]. unfold MultiIndex_init.
    rewrite length_map, (List.Forall2_length Hall), Nat.eqb_refl. reflexivity.
  - intros ->. reflexivity.
  - intros pre fname post e -> Hpre Hf.
    now rewrite (load_from_pathlist_loop_stops pre post fname e Hpre Hf).
Qed.

(** ** What [search] enumerates and compares *)

Lemma trace_bind {A B} (m : M A) (k : A -> M B) :
  trace (bind m k) =
  trace m ++ match outcome m with
             | Returns a => trace (k a)
             | _ => []
             end.
Proof.
  destruct m as [t [a|e|]]; cbn [bind trace outcome fst snd];
    try (now rewrite app_nil_r).
  now destruct (k a).
Qed.

Section SearchTrace.
Context `{SketchCapability}.
Variables (query : Signature) (threshold : float).
Variables (do_containment do_max_containment ignore_abundance : bool).
Hypothesis flags : do_containment && do_max_containment = false.

Lemma search_scan_trace (self : Index) (loc : option string)
    (sigs : list Signature) (stop : option Exn) (acc : list Result) :
  location self = inr loc ->
  trace
    (for_sigs sigs stop
       (fun ss matches =>
          score <- compared (minhash query) (minhash ss)
                     (query_match query do_containment do_max_containment
                        ignore_abundance ss) ;;
          if PyFloat.geb score threshold then
            loc <- lift (location self) ;;
            ret (matches ++ [(score, ss, loc)])
          else ret matches)
       acc) =
  flat_map (fun ss => [Enumerated ss; Compared (minhash query) (minhash ss)])
    sigs.
Proof.
  intros Hloc. rewrite Hloc. revert acc.
  induction sigs as [|ss rest IH]; intros acc; cbn [for_sigs flat_map].
  - now destruct stop.
  - rewrite bind_tell. cbn [trace fst app]. apply f_equal.
    rewrite trace_bind.
    match goal with
    | |- trace ?b ++ _ = _ =>
        assert (Hb : exists acc',
                  b = ([Compared (minhash query) (minhash ss)], Returns acc'))
    end.
    { unfold compared, tell, ret, lift. cbn [bind app].
      destruct (PyFloat.geb _ threshold); eexists; reflexivity. }
    destruct Hb as [acc' ->]. cbn [trace outcome fst snd app].
    now rewrite IH.
Qed.

Lemma Index_search_trace (self : Index) (loc : option string) :
  location self = inr loc ->
  trace (Index_search self query (Some threshold) do_containment
           do_max_containment ignore_abundance) =
  flat_map (fun ss => [Enumerated ss; Compared (minhash query) (minhash ss)])
    (fst (signatures self)).
Proof.
  intros Hloc. unfold Index_search. rewrite flags, trace_bind.
  unfold for_signatures.
  pose proof (search_scan_trace self loc (fst (signatures self))
                (snd (signatures self)) [] Hloc) as Ht.
  unfold Result in Ht |- *. rewrite Ht.
  destruct (outcome _); cbn [trace ret fst]; apply app_nil_r.
Qed.

Lemma search_pool_trace (index_list : list Index) :
  Forall (fun self =>
            well_formed self ->
            trace (search self query (Some threshold) do_containment
                     do_max_containment ignore_abundance) =
            flat_map (fun ss => [Enumerated ss;
                                 Compared (minhash query) (minhash ss)])
              (fst (signatures self))
            /\ match snd (signatures self) with
               | None =>
                   exists matches,
                     outcome (search self query (Some threshold)
                                do_containment do_max_containment
                                ignore_abundance) = Returns matches
               | Some e =>
                   outcome (search self query (Some threshold)
                              do_containment do_max_containment
                              ignore_abundance) = Raises e
               end) index_list ->
  Forall well_formed index_list ->
  forall (source_list : list (option string)) (acc : list Result),
    List.length index_list = List.length source_list ->
    let pool :=
      for_zip (fun idx src acc =>
                 sub <- search idx query (Some threshold) do_containment
                          do_max_containment ignore_abundance ;;
                 ret (acc ++ retag src sub))
        index_list source_list acc in
    trace pool =
    flat_map (fun ss => [Enumerated ss; Compared (minhash query) (minhash ss)])
      (fst (signatures_each signatures index_list))
    /\ match snd (signatures_each signatures index_list) with
       | None => exists pooled, outcome pool = Returns pooled
       | Some e => outcome pool = Raises e
       end.
Proof.
  induction 1 as [|idx il Hidx _ IH]; intros Hall [|src sl] acc Hlen;
    try discriminate; cbn [for_zip signatures_each].
  - split; [reflexivity|]. now exists acc.
  - inversion Hall as [|? ? Hwf Hall']; subst.
    destruct (Hidx Hwf) as [Htrace Hout].
    cbv zeta. rewrite !trace_bind, !outcome_bind.
    rewrite Htrace. unfold gen_app.
    destruct (signatures idx) as [l [e|]]; cbn [fst snd] in *.
    + rewrite Hout. rewrite !app_nil_r. now split.
    + destruct Hout as [sub ->]. cbn [fst snd trace ret app].
      rewrite outcome_ret, flat_map_app.
      destruct (IH Hall' sl (acc ++ retag src sub)) as [IHt IHo];
        [simpl in Hlen; lia|].
      cbv zeta in IHt, IHo. rewrite IHt, app_nil_r.
      split; [reflexivity|exact IHo].
Qed.

Lemma search_trace (self : Index) :
  well_formed self ->
  trace (search self query (Some threshold) do_containment
           do_max_containment ignore_abundance) =
  flat_map (fun ss => [Enumerated ss; Compared (minhash query) (minhash ss)])
    (fst (signatures self))
  /\ match snd (signatures self) with
     | None =>
         exists matches,
           outcome (search self query (Some threshold) do_containment
                      do_max_containment ignore_abundance) = Returns matches
     | Some e =>
         outcome (search self query (Some threshold) do_containment
                    do_max_containment ignore_abundance) = Raises e
     end.
Proof.
  induction self as [sigs loc|zf sd tya|index_list source_list IH]
    using Index_nested_ind; intros Hwf.
  - split; [exact (Index_search_trace (LinearIndex sigs loc) loc eq_refl)|].
    eexists. exact (Index_search_outcome query do_containment
                      do_max_containment ignore_abundance
                      (LinearIndex sigs loc) loc threshold eq_refl flags).
  - split; [exact (Index_search_trace (ZipFileLinearIndex zf sd tya)
                     (zf_filename zf) eq_refl)|].
    pose proof (Index_search_outcome query do_containment
                  do_max_containment ignore_abundance
                  (ZipFileLinearIndex zf sd tya) (zf_filename zf) threshold
                  eq_refl flags) as Hout.
    cbn [search]. destruct (snd (signatures _)); [exact Hout|eauto].
  - inversion Hwf as [| |? ? Hlen Hall]; subst.
    destruct (search_pool_trace index_list IH Hall source_list [] Hlen)
      as [Ht Ho].
    cbv zeta in Ht, Ho. cbn [search signatures].
    rewrite trace_bind, outcome_bind, Ht.
    destruct (snd (signatures_each signatures index_list)) as [e|].
    + rewrite Ho. split; [apply app_nil_r|reflexivity].
    + destruct Ho as [pooled ->]. split; [apply app_nil_r|eauto].
Qed.

End SearchTrace.

(** X21. With a threshold and at most one containment flag, [search] on
    any index built as the constructor of [MultiIndex] asserts takes every
    signature of the enumeration once, in order, compares the query with
    it right away, and compares nothing else; it returns when the
    enumeration runs to its end and raises the exception of the
    enumeration otherwise. *)
Theorem search_scans_the_enumeration_once `{SketchCapability} (self : Index)
    (query : Signature) (threshold : float)
    (do_containment do_max_containment ignore_abundance : bool) :
  well_formed self ->
  do_containment && do_max_containment = false ->
  trace (search self query (Some threshold) do_containment
           do_max_containment ignore_abundance) =
  flat_map (fun ss => [Enumerated ss; Compared (minhash query) (minhash ss)])
    (fst (signatures self))
  /\ match snd (signatures self) with
     | None =>
         exists matches,
           outcome (search self query (Some threshold) do_containment
                      do_max_containment ignore_abundance) = Returns matches
     | Some e =>
         outcome (search self query (Some threshold) do_containment
                    do_max_containment ignore_abundance) = Raises e
     end.
Proof.
  intros Hwf Hflags. now apply search_trace.
Qed.

(** ** [select] and then [search] *)

Lemma filter_filter_comm {A} (p q : A -> bool) (l : list A) :
  List.filter p (List.filter q l) = List.filter q (List.filter p l).
Proof.
  induction l as [|x l IH]; [reflexivity|]. cbn [List.filter].
  destruct (p x) eqn:Hp, (q x) eqn:Hq; cbn [List.filter];
    rewrite ?Hp, ?Hq, IH; reflexivity.
Qed.

Section SelectThenSearch.
Context `{SketchCapability}.
Variables (query : Signature) (threshold : float).
Variables (do_containment do_max_containment ignore_abundance : bool).
Hypothesis flags : do_containment && do_max_containment = false.
Variable kw : kwargs.

Lemma search_hits_select (tagged : list (Signature * option string)) :
  search_hits query threshold do_containment do_max_containment
    ignore_abundance
    (List.filter (fun p => accepts kw (fst p)) tagged)
  = List.filter (fun r => accepts kw (matched r))
      (search_hits query threshold do_containment do_max_containment
         ignore_abundance tagged).
Proof.
  unfold search_hits. rewrite filter_map_comm. apply f_equal.
  apply filter_filter_comm.
Qed.

Lemma search_sort_select (l : list Result) :
  Forall score_not_nan l ->
  List.filter (fun r => accepts kw (matched r))
    (list_sort search_key_lt false l)
  = list_sort search_key_lt false
      (List.filter (fun r => accepts kw (matched r)) l).
Proof.
  intros Hnan. unfold list_sort.
  apply (stable_sort_filter_comm search_key_lt score_not_nan); [| |exact Hnan].
  - intros x y _ _. rewrite !search_key_lt_neg. apply FloatOrder.ltb_asym.
  - intros x y z Hx Hy Hz. rewrite !search_key_lt_neg.
    rewrite !FloatOrder.not_ltb_geb by assumption.
    apply FloatOrder.geb_trans.
Qed.

(** What [select] leaves of an index with a location *)
Lemma select_leaf (self selected : Index) (loc : option string) :
  location self = inr loc -> unselected self ->
  select self kw = inr selected ->
  snd (signatures selected) = None ->
  location selected = inr loc
  /\ fst (signatures selected)
     = List.filter (accepts kw) (fst (signatures self)).
Proof.
  intros Hloc Hun. destruct self as [sigs loc'|zf sd tya|il sl];
    [| |discriminate]; cbn [select]; injection Hloc as <-.
  - destruct (select_siglist sigs kw) as [e|siglist] eqn:Hsel;
      [discriminate|].
    rewrite LinearIndex_init_eq. intros [= <-] _.
    apply select_siglist_returns in Hsel. destruct Hsel as [_ ->].
    now split.
  - intros [= <-]. cbn [signatures location]. intros Hstop.
    split; [reflexivity|].
    inversion Hun as [|? ? ? Hsd|]; subst.
    rewrite (zip_unselected sd zf tya).
    2:{ intros kw' ss -> Hne. cbn in Hsd.
        apply negb_false_iff, bool_decide_eq_true in Hsd. contradiction. }
    cbn [fst]. destruct (decide (kw = ∅)) as [->|Hkw].
    + rewrite (zip_unselected (Some ∅) zf tya)
        by (now intros kw' ss [= <-] []).
      cbn [fst]. symmetry. apply forallb_filter_id.
      apply forallb_forall. intros ss _. unfold accepts.
      now rewrite select_signature_no_keywords.
    + pose proof (zip_selected kw zf tya Hkw) as Hz.
      destruct (select_siglist (archive_signatures zf tya) kw) as [e|l]
        eqn:Hsel.
      * rewrite Hz in Hstop. discriminate.
      * rewrite Hz. cbn [fst].
        apply select_siglist_returns in Hsel. now destruct Hsel.
Qed.

Lemma for_zip_select (call : Index -> M (list Result))
    (index_list new_idx_list : list Index) :
  Forall2 (fun idx idx' => forall sub,
             outcome (call idx) = Returns sub ->
             outcome (call idx')
             = Returns (List.filter (fun r => accepts kw (matched r)) sub))
    index_list new_idx_list ->
  forall source_list acc pooled,
    outcome (for_zip (fun idx src acc =>
                        sub <- call idx ;; ret (acc ++ retag src sub))
               index_list source_list acc) = Returns pooled ->
    outcome (for_zip (fun idx src acc =>
                        sub <- call idx ;; ret (acc ++ retag src sub))
               new_idx_list source_list
               (List.filter (fun r => accepts kw (matched r)) acc))
    = Returns (List.filter (fun r => accepts kw (matched r)) pooled).
Proof.
  induction 1 as [|idx idx' il il' Hidx _ IH]; intros [|src sl] acc pooled;
    cbn [for_zip]; autorewrite with run; try (now intros [= <-]).
  destruct (outcome (call idx)) as [sub| |] eqn:Hsub; try discriminate.
  rewrite (Hidx sub eq_refl). autorewrite with run. intros Hrest.
  apply IH in Hrest. rewrite List.filter_app in Hrest.
  unfold retag in Hrest |- *. rewrite filter_map_comm in Hrest.
  exact Hrest.
Qed.

Lemma signatures_each_exhausted (index_list : list Index) :
  snd (signatures_each signatures index_list) = None ->
  Forall (fun idx => snd (signatures idx) = None) index_list.
Proof.
  induction index_list as [|idx il IH]; [constructor|].
  cbn [signatures_each]. intros Hstop.
  apply gen_app_exhausted in Hstop. destruct Hstop as (H1 & H2 & _).
  constructor; auto.
Qed.

Lemma select_search (self : Index) :
  well_formed self -> unselected self ->
  forall selected matches,
    select self kw = inr selected ->
    snd (signatures selected) = None ->
    outcome (search self query (Some threshold) do_containment
               do_max_containment ignore_abundance) = Returns matches ->
    outcome (search selected query (Some threshold) do_containment
               do_max_containment ignore_abundance)
    = Returns (List.filter (fun r => accepts kw (matched r)) matches).
Proof.
  assert (Hleaf : forall idx loc selected matches,
            location idx = inr loc -> unselected idx ->
            select idx kw = inr selected ->
            snd (signatures selected) = None ->
            outcome (Index_search idx query (Some threshold) do_containment
                       do_max_containment ignore_abundance)
            = Returns matches ->
            outcome (Index_search selected query (Some threshold)
                       do_containment do_max_containment ignore_abundance)
            = Returns (List.filter (fun r => accepts kw (matched r))
                         matches)).
  { intros idx loc selected matches Hloc Hun Hsel Hstop Hrs.
    destruct (select_leaf idx selected loc Hloc Hun Hsel Hstop)
      as [Hloc' Hsigs].
    rewrite (Index_search_outcome query do_containment do_max_containment
               ignore_abundance idx loc threshold Hloc flags) in Hrs.
    rewrite (Index_search_outcome query do_containment do_max_containment
               ignore_abundance selected loc threshold Hloc' flags).
    rewrite Hstop, Hsigs.
    destruct (snd (signatures idx)); [discriminate|].
    injection Hrs as <-.
    change (stable_sort search_key_lt) with (list_sort search_key_lt false).
    rewrite search_sort_select.
    - rewrite <- search_hits_select, filter_map_comm. reflexivity.
    - eapply List.Forall_impl; [|apply search_hits_reach].
      intros r Hr. exact (FloatOrder.geb_not_nan _ _ Hr). }
  induction self as [sigs loc|zf sd tya|index_list source_list IH]
    using Index_nested_ind; intros Hwf Hun selected matches Hsel Hstop.
  - assert (Hloc' : location selected = inr loc)
      by now destruct (select_leaf (LinearIndex sigs loc) selected loc
                         eq_refl Hun Hsel Hstop).
    destruct selected; try discriminate Hloc'.
    + now apply (Hleaf (LinearIndex sigs loc) loc).
    + now apply (Hleaf (LinearIndex sigs loc) loc).
  - assert (Hloc' : location selected = inr (zf_filename zf))
      by now destruct (select_leaf (ZipFileLinearIndex zf sd tya) selected
                         (zf_filename zf) eq_refl Hun Hsel Hstop).
    destruct selected; try discriminate Hloc'.
    + now apply (Hleaf (ZipFileLinearIndex zf sd tya) (zf_filename zf)).
    + now apply (Hleaf (ZipFileLinearIndex zf sd tya) (zf_filename zf)).
  - inversion Hwf as [| |? ? Hlen Hall]; subst.
    inversion Hun as [| |? ? Hunall]; subst.
    cbn [select] in Hsel.
    assert (Hsub : Forall (fun idx =>
                     (forall e, select idx kw = inl e -> True)
                     /\ forall idx', select idx kw = inr idx' ->
                                     well_formed idx') index_list).
    { rewrite List.Forall_forall. intros idx _. split; [auto|].
      apply select_shape. }
    destruct (select_each_shape (fun idx => select idx kw) (fun _ => True)
                index_list Hsub source_list) as [_ Hok].
    destruct (select_each _ index_list source_list) as [e|[il' sl']];
      [discriminate|].
    destruct (Hok il' sl' eq_refl) as (Hlen' & _ & Hsame).
    destruct (Hsame Hlen) as [-> Hsel2].
    unfold MultiIndex_init in Hsel. apply Nat.eqb_eq in Hlen'.
    rewrite Hlen' in Hsel. injection Hsel as <-.
    cbn [signatures] in Hstop. apply signatures_each_exhausted in Hstop.
    cbn [search]. rewrite !outcome_bind.
    destruct (outcome (for_zip _ index_list source_list []))
      as [pooled| |] eqn:Hpool; try discriminate.
    autorewrite with run. intros [= <-].
    assert (Hpair : Forall2 (fun idx idx' => forall sub,
                       outcome (search idx query (Some threshold)
                                  do_containment do_max_containment
                                  ignore_abundance) = Returns sub ->
                       outcome (search idx' query (Some threshold)
                                  do_containment do_max_containment
                                  ignore_abundance)
                       = Returns (List.filter
                                    (fun r => accepts kw (matched r)) sub))
                      index_list il').
    { clear - IH Hall Hunall Hsel2 Hstop.
      induction Hsel2 as [|idx idx' il il' Hs _ IHl]; [constructor|].
      inversion IH; inversion Hall; inversion Hunall; inversion Hstop; subst.
      constructor; [|now apply IHl]. intros sub Hsub. auto. }
    pose proof (for_zip_select
                  (fun idx => search idx query (Some threshold)
                                do_containment do_max_containment
                                ignore_abundance)
                  index_list il' Hpair source_list [] pooled Hpool) as Hsel3.
    cbn [List.filter] in Hsel3. rewrite Hsel3. autorewrite with run.
    change (stable_sort search_key_lt) with (list_sort search_key_lt false).
    rewrite search_sort_select; [reflexivity|].
    assert (Hreach : Forall (fun r => PyFloat.geb (score r) threshold = true)
                       (list_sort search_key_lt false pooled)).
    { apply (search_results_reach query do_containment do_max_containment
               ignore_abundance threshold
               (MultiIndex index_list source_list)).
      cbn [search]. rewrite outcome_bind, Hpool. reflexivity. }
    rewrite List.Forall_forall in Hreach |- *. intros r Hr.
    apply (FloatOrder.geb_not_nan _ threshold). apply Hreach.
    now apply list_sort_In.
Qed.

End SelectThenSearch.

(** X22. Selecting and then searching is searching and then keeping the
    matches that the selection accepts.  On an index built as the
    constructor of [MultiIndex] asserts and with no selection pending in
    its archives: when [search] returns and [select] returns, [search] on
    the selected index returns the matches of the first list whose
    signature the predicate accepts, in the order they have there, unless
    the enumeration of the selected index raises, which [search] then
    raises too. *)
Theorem select_then_search `{SketchCapability} (self selected : Index)
    (kw : kwargs) (query : Signature) (threshold : float)
    (do_containment do_max_containment ignore_abundance : bool)
    (matches : list Result) :
  well_formed self -> unselected self ->
  do_containment && do_max_containment = false ->
  select self kw = inr selected ->
  outcome (search self query (Some threshold) do_containment
             do_max_containment ignore_abundance) = Returns matches ->
  outcome (search selected query (Some threshold) do_containment
             do_max_containment ignore_abundance) =
  match snd (signatures selected) with
  | None => Returns (List.filter (fun r => accepts kw (matched r)) matches)
  | Some e => Raises e
  end.
Proof.
  intros Hwf Hun Hflags Hsel Hsearch.
  destruct (snd (signatures selected)) as [e|] eqn:Hstop.
  - destruct (select_shape kw self) as [_ Hwf'].
    destruct (search_trace query threshold do_containment do_max_containment
                ignore_abundance Hflags selected (Hwf' selected Hsel))
      as [_ Hout].
    now rewrite Hstop in Hout.
  - now apply (select_search query threshold do_containment
                 do_max_containment ignore_abundance Hflags kw self).
Qed.

(** ** How many matches [counter_gather] returns *)

Section GreedyBound.
Context `{SketchCapability}.
Variables (self : Index) (query : Signature).
Variables (signatures : list Signature).
Variables (n_threshold_hashes : Num) (threshold : float).
Hypothesis count_common_nonneg :
  forall a b d, 0 <= mh_count_common a b d.
Hypothesis floor : is_floor n_threshold_hashes.



End GreedyBound.



(** ** What [counter_gather] enumerates and compares *)

Lemma preload_trace (sigs : list Signature) (stop : option Exn)
    (acc : list Signature) :
  trace (for_sigs sigs stop (fun ss l => ret (l ++ [ss])) acc)
  = map Enumerated sigs.
Proof.
  revert acc. induction sigs as [|ss rest IH]; intros acc; cbn [for_sigs map].
  - now destruct stop.
  - rewrite bind_tell, bind_ret. cbn [trace fst]. now rewrite IH.
Qed.

Section CounterGatherTrace.
Context `{SketchCapability}.
Variables (self : Index) (query : Signature).

Lemma count_shared_run (sigs : list Signature) (i : nat) (c : Counter.t) :
  exists c',
    count_shared query i sigs c
    = (map (fun ss => Compared (minhash query) (minhash ss)) sigs,
       Returns c').
Proof.
  revert i c. induction sigs as [|ss rest IH]; intros i c;
    cbn [count_shared map].
  - now exists c.
  - destruct (IH (S i)
                (Counter.set i (mh_count_common (minhash query) (minhash ss)
                                  true) c)) as [c' Hc'].
    exists c'. unfold compared, tell, ret. cbn [bind app].
    now rewrite Hc'.
Qed.

Lemma decrement_counter_trace (signatures : list Signature)
    (match_ : Signature) (items : list (nat * Z)) (c : Counter.t) :
  Forall (fun ev => exists a b, ev = Compared a b)
    (trace (decrement_counter signatures match_ items c)).
Proof.
  revert c. induction items as [|[k v] items IH]; intros c;
    cbn [decrement_counter]; [constructor|].
  destruct (nth_error signatures k) as [ss|]; [|constructor].
  rewrite trace_bind. apply List.Forall_app. split.
  - repeat constructor. eauto.
  - cbn [outcome compared]. rewrite outcome_compared. apply IH.
Qed.

Lemma greedy_iteration_trace (signatures : list Signature)
    (n_threshold_hashes : Num) (threshold : float) (st : Greedy) :
  Forall (fun ev => exists a b, ev = Compared a b)
    (trace (greedy_iteration self query signatures n_threshold_hashes
              threshold st)).
Proof.
  unfold greedy_iteration.
  destruct (Counter.most_common (counter st)) as [|[dataset_id size] rest];
    [constructor|].
  destruct (num_ge (Int size) n_threshold_hashes); [|constructor].
  destruct (nth_error signatures dataset_id) as [match_|]; [|constructor].
  rewrite trace_bind. apply List.Forall_app. split.
  - repeat constructor. eauto.
  - rewrite outcome_compared, trace_bind. apply List.Forall_app. split.
    + apply decrement_counter_trace.
    + destruct (outcome (decrement_counter _ _ _ _)); constructor.
Qed.

Lemma greedy_loop_trace (fuel : nat) (signatures : list Signature)
    (n_threshold_hashes : Num) (threshold : float) (st : Greedy) :
  Forall (fun ev => exists a b, ev = Compared a b)
    (trace (greedy_loop fuel self query signatures n_threshold_hashes
              threshold st)).
Proof.
  revert st. induction fuel as [|fuel IH]; intros st; cbn [greedy_loop];
    destruct (Counter.nonempty (counter st)
              && num_ge (match_size st) n_threshold_hashes);
    try constructor.
  rewrite trace_bind. apply List.Forall_app. split.
  - apply greedy_iteration_trace.
  - destruct (outcome (greedy_iteration _ _ _ _ _ st)) as [[st'|st']| |];
      [apply IH|constructor..].
Qed.

Lemma decompose_trace (fuel : nat) (n_threshold_hashes : Num)
    (threshold : float) :
  match snd (signatures self) with
  | Some e =>
      decompose fuel self query n_threshold_hashes threshold
      = (map Enumerated (fst (signatures self)), Raises e)
  | None =>
      exists rest,
        trace (decompose fuel self query n_threshold_hashes threshold)
        = map Enumerated (fst (signatures self))
          ++ map (fun ss => Compared (minhash query) (minhash ss))
               (fst (signatures self))
          ++ rest
        /\ Forall (fun ev => exists a b, ev = Compared a b) rest
  end.
Proof.
  unfold decompose, for_signatures.
  destruct (signatures self) as [sigs stop]. cbn [fst snd].
  pose proof (preload_trace sigs stop []) as Ht.
  pose proof (preload_outcome sigs stop []) as Ho.
  destruct (for_sigs sigs stop (fun ss l => ret (l ++ [ss])) [])
    as [t o]. cbn [trace outcome fst snd] in Ht, Ho. subst t o.
  destruct stop as [e|]; [reflexivity|]. cbn [app].
  destruct (count_shared_run sigs 0 Counter.empty) as [c Hc].
  eexists. rewrite trace_bind. cbn [trace outcome fst snd].
  rewrite trace_bind, Hc. cbn [trace outcome fst snd].
  rewrite trace_bind. split; [reflexivity|].
  apply List.Forall_app. split; [apply greedy_loop_trace|].
  destruct (outcome (greedy_loop _ _ _ _ _ _ _)); constructor.
Qed.

End CounterGatherTrace.

(** X24. [counter_gather] loads the whole index before it compares
    anything.  Past its guards (a non-empty scaled query, a threshold at
    most 1.0), its trace is the enumeration of every signature, then one
    comparison of the query with each of them in order, then comparisons
    only; and when the enumeration ends in an exception, it raises that
    exception having compared nothing. *)
Theorem counter_gather_preloads `{SketchCapability} (self : Index)
    (query : Signature) (threshold_bp threshold : float) (fuel : nat) :
  mh_len (minhash query) <> 0%nat ->
  scaled (minhash query) <> 0 ->
  outcome (containment_threshold query threshold_bp) = Returns threshold ->
  PyFloat.gtb threshold PyFloat.one = false ->
  match snd (signatures self) with
  | Some e =>
      counter_gather fuel self query threshold_bp
      = (map Enumerated (fst (signatures self)), Raises e)
  | None =>
      exists rest,
        trace (counter_gather fuel self query threshold_bp)
        = map Enumerated (fst (signatures self))
          ++ map (fun ss => Compared (minhash query) (minhash ss))
               (fst (signatures self))
          ++ rest
        /\ Forall (fun ev => exists a b, ev = Compared a b) rest
  end.
Proof.
  intros Hlen Hsc Hth Hle. unfold counter_gather, Index_counter_gather.
  rewrite (proj2 (Nat.eqb_neq _ _) Hlen), (proj2 (Z.eqb_neq _ _) Hsc).
  unfold containment_threshold in Hth.
  destruct (PyFloat.truthy threshold_bp).
  - rewrite outcome_bind in Hth.
    destruct (outcome (float_div_int threshold_bp _)) as [n| |] eqn:Hn;
      try discriminate.
    rewrite (float_div_int_outcome _ _ _ Hn). cbn [bind app].
    rewrite (float_div_int_outcome _ _ _ Hth). cbn [bind app].
    rewrite Hle.
    pose proof (decompose_trace self query fuel (Float n) threshold) as Hd.
    destruct (decompose fuel self query (Float n) threshold) as [t o].
    exact Hd.
  - apply decompose_trace.
Qed.

(** ** The guards of [gather] on a [MultiIndex] *)

Lemma for_zip_guard (call : Index -> M (list Result)) (e : Exn)
    (index_list : list Index) :
  Forall (fun idx =>
            call idx = ([], Raises e)
            \/ (call idx = ([], Returns [])
                /\ (well_formed idx -> signatures idx = ([], None))))
    index_list ->
  forall source_list : list (option string),
    for_zip (fun idx src acc =>
               sub <- call idx ;; ret (acc ++ retag src sub))
      index_list source_list [] = ([], Raises e)
    \/ (for_zip (fun idx src acc =>
                   sub <- call idx ;; ret (acc ++ retag src sub))
          index_list source_list [] = ([], Returns [])
        /\ (List.length index_list = List.length source_list ->
            Forall well_formed index_list ->
            signatures_each signatures index_list = ([], None))).
Proof.
  induction 1 as [|idx il Hidx _ IH]; intros [|src sl]; cbn [for_zip];
    try (right; split; [reflexivity|]; intros; discriminate || reflexivity).
  destruct Hidx as [Hidx | [Hidx Hsigs]]; rewrite Hidx.
  - now left.
  - change (@pair (list Event) _ [] (Returns (@nil Result)))
      with (ret (@nil Result)).
    rewrite !bind_ret. change ([] ++ retag src []) with (@nil Result).
    destruct (IH sl) as [Hrest | [Hrest Hall]]; [now left|].
    right. split; [exact Hrest|]. intros Hlen Hwf.
    inversion Hwf as [|? ? Hwf1 Hwf2]; subst.
    cbn [signatures_each]. rewrite (Hsigs Hwf1), Hall; auto.
Qed.

Lemma for_zip_nothing (call : Index -> M (list Result))
    (index_list : list Index) :
  Forall (fun idx => call idx = ([], Returns [])) index_list ->
  forall source_list : list (option string),
    for_zip (fun idx src acc =>
               sub <- call idx ;; ret (acc ++ retag src sub))
      index_list source_list [] = ([], Returns []).
Proof.
  induction 1 as [|idx il Hidx _ IH]; intros [|src sl]; cbn [for_zip];
    try reflexivity.
  rewrite Hidx.
  change (@pair (list Event) _ [] (Returns (@nil Result)))
    with (ret (@nil Result)).
  rewrite !bind_ret. change ([] ++ retag src []) with (@nil Result).
  apply IH.
Qed.

(** X25. [MultiIndex.gather] has no test of its own on the query.  On an
    empty query every index returns the empty list with nothing
    enumerated.  On a non-empty query without [scaled], [gather] raises
    [ValueError] with nothing enumerated as soon as a sub-index runs
    [Index.gather], and returns the empty list when there is none: an
    index for which it returns holds no signature; while
    [counter_gather], which [MultiIndex] inherits, raises on every
    index. *)
Theorem gather_guards_on_every_index `{SketchCapability} (self : Index)
    (query : Signature) (threshold_bp : float) :
  (mh_len (minhash query) = 0%nat ->
     gather self query threshold_bp = ([], Returns []))
  /\ (mh_len (minhash query) <> 0%nat -> scaled (minhash query) = 0 ->
        (gather self query threshold_bp
         = ([], Raises (ValueError "gather requires scaled signatures"))
         \/ (gather self query threshold_bp = ([], Returns [])
             /\ (well_formed self -> signatures self = ([], None))))
        /\ forall fuel,
             counter_gather fuel self query threshold_bp
             = ([], Raises (ValueError "gather requires scaled signatures"))).
Proof.
  split.
  - intros Hempty.
    induction self as [sigs loc|zf sd tya|index_list source_list IH]
      using Index_nested_ind.
    + now apply gather_empty_query.
    + now apply gather_empty_query.
    + cbn [gather].
      now rewrite (for_zip_nothing
                     (fun idx => gather idx query threshold_bp) index_list
                     IH source_list).
  - intros Hlen Hsc. split; [|intros fuel; now apply counter_gather_not_scaled].
    induction self as [sigs loc|zf sd tya|index_list source_list IH]
      using Index_nested_ind.
    + left. now apply gather_not_scaled.
    + left. now apply gather_not_scaled.
    + cbn [gather].
      destruct (for_zip_guard (fun idx => gather idx query threshold_bp)
                  (ValueError "gather requires scaled signatures")
                  index_list IH source_list) as [Hpool | [Hpool Hall]];
        rewrite Hpool.
      * now left.
      * right. split; [reflexivity|]. intros Hwf.
        inversion Hwf as [| |? ? Hlen' Hall']; subst.
        cbn [signatures]. now apply Hall.
Qed.

(** ** The further properties at the example data *)


(** X4 at [{"containment": True}] and [LinearIndex([A, B], "db.sig")]. *)
Lemma select_containment_requires_scaled_witness :
  select Example.index_AB ExampleSelect.kw_containment
  = inl (ValueError "'containment' requires 'scaled' in Index.select'").
Proof.
  destruct (select_containment_requires_scaled ExampleSelect.kw_containment)
    as [_ Hlinear].
  - unfold declared_keywords. apply (bool_decide_unpack _).
    vm_compute. exact I.
  - vm_compute. reflexivity.
  - vm_compute. reflexivity.
  - exact (Hlinear [Example.sigA; Example.sigB] (Some "db.sig")).
Defined.

(** X5 at [{"scaled": 1000, "num": 500}]: neither the scaled A nor the
    fixed-size N is accepted. *)
Lemma select_scaled_with_num_selects_nothing_witness :
  select_signature Example.sigA ExampleSelect.kw_scaled_num <> inr true
  /\ select_signature ExampleSelect.sigN ExampleSelect.kw_scaled_num
     <> inr true.
Proof.
  destruct (select_scaled_with_num_selects_nothing
              ExampleSelect.kw_scaled_num) as [Hnone _].
  - vm_compute. reflexivity.
  - vm_compute. reflexivity.
  - split; apply Hnone.
Defined.

(** X6 at [{"ksize": None, "scaled": 0}] and [LinearIndex([A, N, B])]. *)
Lemma select_false_constraints_keep_all_witness :
  select ExampleSelect.index_ANB ExampleSelect.kw_nothing
  = inr ExampleSelect.index_ANB.
Proof.
  destruct (select_false_constraints_keep_all ExampleSelect.kw_nothing)
    as (_ & Hlinear & _).
  - unfold declared_keywords. apply (bool_decide_unpack _).
    vm_compute. exact I.
  - apply (bool_decide_unpack
             (map_Forall (fun (_ : string) v => truthy v = false)
                ExampleSelect.kw_nothing)).
    vm_compute. exact I.
  - exact (Hlinear [Example.sigA; ExampleSelect.sigN; Example.sigB]
             (Some "mixed.sig")).
Defined.

(** X7 at [LinearIndex([A, N, B])], [{"scaled": 1000}] and
    [{"ksize": 31}]: N goes with the first selection, in either order. *)
Lemma LinearIndex_select_accumulates_witness :
  select (LinearIndex [Example.sigA; ExampleSelect.sigN; Example.sigB]
            (Some "mixed.sig")) ExampleSelect.kw_scaled
  = inr (LinearIndex [Example.sigA; Example.sigB] (Some "mixed.sig")).
Proof.
  destruct (LinearIndex_select_accumulates
              [Example.sigA; ExampleSelect.sigN; Example.sigB]
              (Some "mixed.sig") ExampleSelect.kw_scaled
              ExampleSelect.kw_ksize
              (LinearIndex [Example.sigA; Example.sigB] (Some "mixed.sig"))
              (LinearIndex [Example.sigA; Example.sigB] (Some "mixed.sig")))
    as [_ Hother].
  - vm_compute. reflexivity.
  - vm_compute. reflexivity.
  - apply Hother. vm_compute. reflexivity.
Defined.

(** X10 at [LinearIndex([A, B])], the new signature D and
    [{"scaled": 1000}]. *)
Lemma insert_then_select_witness :
  exists inserted,
    Index_insert (LinearIndex [Example.sigA; Example.sigB] (Some "db.sig"))
      Example.sigD = inr inserted
    /\ select inserted ExampleSelect.kw_scaled =
       match select_signature Example.sigD ExampleSelect.kw_scaled with
       | inl e => inl e
       | inr true =>
           Index_insert
             (LinearIndex [Example.sigA; Example.sigB] (Some "db.sig"))
             Example.sigD
       | inr false =>
           inr (LinearIndex [Example.sigA; Example.sigB] (Some "db.sig"))
       end.
Proof.
  apply (insert_then_select [Example.sigA; Example.sigB] (Some "db.sig")
           Example.sigD ExampleSelect.kw_scaled).
  vm_compute. reflexivity.
Defined.

(** X11 at [LinearIndex([A, B])] and the new signature D, similarity
    search with threshold 0.25. *)
Lemma insert_then_search_witness :
  let cap := ExampleSketch.capability in
  exists inserted before after,
    Index_insert (LinearIndex [Example.sigA; Example.sigB] (Some "db.sig"))
      Example.sigD = inr inserted
    /\ len inserted = inr 3%nat
    /\ outcome (search (H := cap)
                  (LinearIndex [Example.sigA; Example.sigB] (Some "db.sig"))
                  Example.query (Some Example.quarter) false false false)
       = Returns before
    /\ outcome (search (H := cap) inserted Example.query
                  (Some Example.quarter) false false false) = Returns after
    /\ Permutation after
         (before ++ search_hits (H := cap) Example.query Example.quarter
                      false false false [(Example.sigD, Some "db.sig")])
    /\ StronglySorted (fun a b => PyFloat.geb (score a) (score b) = true)
         after
    /\ forall s : float,
         List.filter (fun r => PyFloat.eqb (score r) s) after =
         List.filter (fun r => PyFloat.eqb (score r) s)
           (before ++ search_hits (H := cap) Example.query Example.quarter
                        false false false [(Example.sigD, Some "db.sig")]).
Proof.
  exact (insert_then_search (H := ExampleSketch.capability)
           [Example.sigA; Example.sigB] (Some "db.sig") Example.sigD
           Example.query Example.quarter false false false eq_refl).
Defined.

(** X12 at the example [MultiIndex]. *)
Lemma signatures_with_location_enumerates_witness :
  MultiIndex_signatures_with_location
    [Example.index_AB; LinearIndex [Example.sigD] None]
    [Some "one"; Some "two"]
  = ([(Example.sigA, Some "one"); (Example.sigB, Some "one");
      (Example.sigD, Some "two")], None)
  /\ map fst
       (fst (MultiIndex_signatures_with_location
               [Example.index_AB; LinearIndex [Example.sigD] None]
               [Some "one"; Some "two"]))
     = fst (signatures ExampleSelect.multi_named).
Proof.
  split; [reflexivity|].
  apply (signatures_with_location_enumerates
           [Example.index_AB; LinearIndex [Example.sigD] None]
           [Some "one"; Some "two"]).
  reflexivity.
Defined.

(** X13 at the example [MultiIndex] with the sources "one" and "two". *)
Lemma search_reports_recorded_sources_witness :
  let cap := ExampleSketch.capability in
  exists matches,
    outcome (search (H := cap) ExampleSelect.multi_named Example.query
               (Some PyFloat.zero) true false false) = Returns matches
    /\ Permutation matches
         (search_hits (H := cap) Example.query PyFloat.zero true false false
            [(Example.sigA, Some "one"); (Example.sigB, Some "one");
             (Example.sigD, Some "two")]).
Proof.
  refine (search_reports_recorded_sources (H := ExampleSketch.capability)
            [Example.index_AB; LinearIndex [Example.sigD] None]
            [Some "one"; Some "two"] Example.query PyFloat.zero true false
            false _ eq_refl _ eq_refl).
  - constructor; [reflexivity|]. repeat constructor.
  - repeat constructor.
Defined.

(** X15 at the example [MultiIndex]: containment search with the
    thresholds 0.0 and 0.25. *)
Lemma search_threshold_filters_witness :
  let cap := ExampleSketch.capability in
  exists matches,
    outcome (search (H := cap) Example.multi Example.query
               (Some PyFloat.zero) true false false) = Returns matches
    /\ outcome (search (H := cap) Example.multi Example.query
                  (Some Example.quarter) true false false)
       = Returns (List.filter
                    (fun r => PyFloat.geb (score r) Example.quarter) matches).
Proof.
  eexists. split; [vm_compute; reflexivity|].
  apply (search_threshold_filters (H := ExampleSketch.capability)
           Example.multi Example.query PyFloat.zero Example.quarter).
  - vm_compute. reflexivity.
  - vm_compute. reflexivity.
Defined.

(** X16 at the example [MultiIndex] with [threshold_bp = 2000.0], a
    containment threshold of 0.25. *)
Lemma gather_returns_kept_signatures_witness :
  let cap := ExampleSketch.capability in
  exists results,
    outcome (gather (H := cap) Example.multi Example.query Example.bp_2000)
      = Returns results
    /\ Permutation results
         (gather_hits (H := cap) Example.query Example.quarter
            (tagged_signatures Example.multi))
    /\ StronglySorted (descends (H := cap)) results.
Proof.
  refine (gather_returns_kept_signatures (H := ExampleSketch.capability)
            Example.multi Example.query Example.bp_2000 Example.quarter
            _ _ _ _ _ eq_refl).
  - simpl. discriminate.
  - simpl. discriminate.
  - vm_compute. reflexivity.
  - vm_compute. reflexivity.
  - constructor; [reflexivity|]. repeat constructor.
Defined.

(** X17 at [LinearIndex([B, A, C, D], "db.sig")], default
    [threshold_bp]. *)
Lemma counter_gather_within_gather_witness :
  let cap := ExampleSketch.capability in
  exists results,
    outcome (gather (H := cap) Example.index_BACD Example.query
               PyFloat.zero) = Returns results
    /\ Forall (fun r =>
                 source r = None
                 /\ exists src, In (score r, matched r, src) results)
         [Example.hit Example.five_eighths Example.sigA None;
          Example.hit Example.three_eighths Example.sigD None].
Proof.
  refine (counter_gather_within_gather (H := ExampleSketch.capability)
            Example.index_BACD Example.query PyFloat.zero PyFloat.zero 5
            [Example.hit Example.five_eighths Example.sigA None;
             Example.hit Example.three_eighths Example.sigD None]
            _ _ eq_refl eq_refl _ _).
  - simpl. discriminate.
  - simpl. discriminate.
  - constructor.
  - vm_compute. reflexivity.
Defined.

(** X18 at the example directory, without [force]. *)
Lemma load_from_path_records_files_witness :
  let cap := ExampleSketch.capability in
  let db :=
    MultiIndex
      [LinearIndex [Example.sigA; Example.sigB] (Some "dir/a.sig");
       LinearIndex [Example.sigD] (Some "dir/b.sig")]
      [Some "dir/a.sig"; Some "dir/b.sig"] in
  MultiIndex_load_from_path (H := ExampleLoaders.loaders) "dir" false
  = inr db
  /\ db = MultiIndex_of_files
            (loadable (H := ExampleLoaders.loaders)
               ["dir/a.sig"; "dir/b.sig"])
  /\ forall matches,
       outcome (search (H := cap) db Example.query (Some PyFloat.zero)
                  true false false) = Returns matches ->
       Forall (fun r =>
                 exists thisfile si,
                   source r = Some thisfile
                   /\ In thisfile ["dir/a.sig"; "dir/b.sig"]
                   /\ load_signatures (Loaders := ExampleLoaders.loaders)
                        thisfile = inr si
                   /\ In (matched r) si) matches.
Proof.
  cbv zeta.
  destruct (load_from_path_records_files (H := ExampleLoaders.loaders)
              (H0 := ExampleSketch.capability) "dir" false
              (MultiIndex
                 [LinearIndex [Example.sigA; Example.sigB]
                    (Some "dir/a.sig");
                  LinearIndex [Example.sigD] (Some "dir/b.sig")]
                 [Some "dir/a.sig"; Some "dir/b.sig"]))
    as (_ & _ & Hdb & _ & Hsearch).
  - vm_compute. reflexivity.
  - split; [vm_compute; reflexivity|]. split; [exact Hdb|].
    intros matches. apply Hsearch.
Defined.

(** X19 at the example directory: with [force] the file that does not
    load is skipped. *)
Lemma load_from_path_force_witness :
  MultiIndex_load_from_path (H := ExampleLoaders.loaders) "dir" true
  = inr (MultiIndex
           [LinearIndex [Example.sigA; Example.sigB] (Some "dir/a.sig");
            LinearIndex [Example.sigD] (Some "dir/b.sig")]
           [Some "dir/a.sig"; Some "dir/b.sig"]).
Proof.
  destruct (load_from_path_force (H := ExampleLoaders.loaders) "dir")
    as [Hforce _].
  - reflexivity.
  - rewrite (Hforce ["dir/a.sig"; "dir/bad.sig"; "dir/b.sig"]).
    + vm_compute. reflexivity.
    + reflexivity.
    + constructor; [intros e; vm_compute; discriminate|].
      constructor; [intros e; vm_compute; now intros [= <-]|].
      constructor; [intros e; vm_compute; discriminate|]. constructor.
Defined.

(** X21 at the example [MultiIndex]. *)
Lemma search_scans_the_enumeration_once_witness :
  let cap := ExampleSketch.capability in
  trace (search (H := cap) Example.multi Example.query (Some PyFloat.zero)
           true false false) =
  flat_map (fun ss => [Enumerated ss;
                       Compared (minhash Example.query) (minhash ss)])
    [Example.sigB; Example.sigA; Example.sigC; Example.sigD; Example.sigD].
Proof.
  destruct (search_scans_the_enumeration_once
              (H := ExampleSketch.capability) Example.multi Example.query
              PyFloat.zero true false false) as [Htrace _].
  - constructor; [reflexivity|]. repeat constructor.
  - reflexivity.
  - exact Htrace.
Defined.

(** X22 at [LinearIndex([A, N, B])] and [{"scaled": 1000}], similarity
    search with threshold 0.0. *)
Lemma select_then_search_witness :
  let cap := ExampleSketch.capability in
  exists matches,
    outcome (search (H := cap) ExampleSelect.index_ANB Example.query
               (Some PyFloat.zero) false false false) = Returns matches
    /\ outcome (search (H := cap)
                  (LinearIndex [Example.sigA; Example.sigB]
                     (Some "mixed.sig"))
                  Example.query (Some PyFloat.zero) false false false)
       = Returns (List.filter
                    (fun r => accepts ExampleSelect.kw_scaled (matched r))
                    matches).
Proof.
  eexists. split; [vm_compute; reflexivity|].
  refine (select_then_search (H := ExampleSketch.capability)
            ExampleSelect.index_ANB
            (LinearIndex [Example.sigA; Example.sigB] (Some "mixed.sig"))
            ExampleSelect.kw_scaled Example.query PyFloat.zero false false
            false _ _ _ eq_refl _ _).
  - constructor.
  - constructor.
  - vm_compute. reflexivity.
  - vm_compute. reflexivity.
Defined.


(** X24 at [LinearIndex([A, B], "db.sig")], default [threshold_bp]. *)
Lemma counter_gather_preloads_witness :
  let cap := ExampleSketch.capability in
  exists rest,
    trace (counter_gather (H := cap) 3 Example.index_AB Example.query
             PyFloat.zero)
    = [Enumerated Example.sigA; Enumerated Example.sigB]
      ++ [Compared (minhash Example.query) (minhash Example.sigA);
          Compared (minhash Example.query) (minhash Example.sigB)]
      ++ rest
    /\ Forall (fun ev => exists a b, ev = Compared a b) rest.
Proof.
  refine (counter_gather_preloads (H := ExampleSketch.capability)
            Example.index_AB Example.query PyFloat.zero PyFloat.zero 3
            _ _ eq_refl eq_refl).
  - simpl. discriminate.
  - simpl. discriminate.
Defined.
